(** * ChmlFrpLauncher: the session lifecycle coordinator

    A shallow embedding of the TypeScript sources that make up the
    coordinator: the log store ([logStore]), the IPC boundary
    ([FrpcManager]), the tunnel list hook ([useTunnelList]), the
    notification hook ([useTunnelNotifications]) and the auto-start hook
    ([useAutoStartTunnels]).

    Conventions.
    - A JavaScript number used as an id is a [Z]; [Date.now()] is a [Z].
    - A string is a [string] of UTF-8 bytes; [s.includes(p)] on well-formed
      text is byte-wise substring search.
    - An array is a [list]; a [Set<string>] is a [gset string], a
      [Set<number>] a [gset Z], a [Map<number, Tunnel>] a [gmap Z Tunnel].
    - A promise is described by how it settles ([promise]); an [async]
      function that suspends is cut at its [await]s and resumed by an event.
    - React refs ([useRef]) are record fields threaded through the steps. *)

From Stdlib Require Import ZArith List String Ascii Bool Lia.
From stdpp Require Import base gmap strings list pretty.

Open Scope string_scope.

(** ** JavaScript prelude *)

Module Js.

(** [s.includes(pat)] *)
Fixpoint includes (s pat : string) : bool :=
  String.prefix pat s ||
  match s with
  | EmptyString => false
  | String _ rest => includes rest pat
  end.

Definition lower_ascii (c : ascii) : ascii :=
  let n := nat_of_ascii c in
  if (65 <=? n)%nat && (n <=? 90)%nat then ascii_of_nat (n + 32) else c.

(** [s.toLowerCase()], on the ASCII letters.  No character outside ASCII
    lower-cases to one of [h], [t], [p], [s], so the comparison of the result
    with "http" and "https" below is the one JavaScript makes. *)
Fixpoint toLowerCase (s : string) : string :=
  match s with
  | EmptyString => EmptyString
  | String c rest => String (lower_ascii c) (toLowerCase rest)
  end.

(** The double quote character, for template literals that contain it. *)
Definition dquote : string := String (ascii_of_nat 34) EmptyString.

(** [a || b] on strings: the empty string is falsy. *)
Definition or_else (a b : string) : string :=
  if String.eqb a "" then b else a.

(** A thrown value: [Some m] is an [Error] with message [m], [None] any
    other value. *)
Definition error : Type := option string.

(** The result of a settled promise. *)
Inductive settled (A : Type) : Type :=
| resolved (v : A)
| rejected (e : error).
Arguments resolved {A} v.
Arguments rejected {A} e.

(** A promise, by the way it settles: [t] is the time in milliseconds between
    its creation and its settlement; [Never] stays pending for ever. *)
Inductive promise (A : Type) : Type :=
| Fulfils (t : nat) (v : A)
| Rejects (t : nat) (e : error)
| Never.
Arguments Fulfils {A} t v.
Arguments Rejects {A} t e.
Arguments Never {A}.

Definition delay {A} (d : nat) (p : promise A) : promise A :=
  match p with
  | Fulfils t v => Fulfils (d + t) v
  | Rejects t e => Rejects (d + t) e
  | Never => Never
  end.

(** [const v = await p; k v] inside an [async] function. *)
Definition await {A B} (p : promise A) (k : A -> promise B) : promise B :=
  match p with
  | Fulfils t v => delay t (k v)
  | Rejects t e => Rejects t e
  | Never => Never
  end.

(** [p.catch(h)], and [try { return await p } catch (e) { return h e }]. *)
Definition catch {A} (p : promise A) (h : error -> A) : promise A :=
  match p with
  | Rejects t e => Fulfils t (h e)
  | _ => p
  end.

(** Earliest rejection among [ps], the first of the list on a tie. *)
Fixpoint first_rejection {A} (ps : list (promise A)) : option (nat * error) :=
  match ps with
  | [] => None
  | p :: rest =>
      match p, first_rejection rest with
      | Rejects t e, Some (t', e') =>
          if (t <=? t')%nat then Some (t, e) else Some (t', e')
      | Rejects t e, None => Some (t, e)
      | _, r => r
      end
  end.

(** All of [ps] fulfil: the values in order and the latest time. *)
Fixpoint all_fulfilled {A} (ps : list (promise A)) : option (nat * list A) :=
  match ps with
  | [] => Some (0, [])
  | Fulfils t v :: rest =>
      match all_fulfilled rest with
      | Some (t', vs) => Some (Nat.max t t', v :: vs)
      | None => None
      end
  | _ :: _ => None
  end.

(** [Promise.all(ps)]: rejects as soon as one element rejects, fulfils once
    all have, stays pending otherwise. *)
Definition Promise_all {A} (ps : list (promise A)) : promise (list A) :=
  match first_rejection ps with
  | Some (t, e) => Rejects t e
  | None =>
      match all_fulfilled ps with
      | Some (t, vs) => Fulfils t vs
      | None => Never
      end
  end.

(** The promise that settles as [r] after [t] milliseconds. *)
Definition settle_at {A} (t : nat) (r : settled A) : promise A :=
  match r with
  | resolved v => Fulfils t v
  | rejected e => Rejects t e
  end.

(** The list a settled fetch leaves behind a [.catch(() => [])]. *)
Definition or_empty {A} (r : settled (list A)) : list A :=
  match r with
  | resolved v => v
  | rejected _ => []
  end.

Definition rejectsb {A} (p : promise A) : bool :=
  match p with Rejects _ _ => true | _ => false end.

Definition fulfilsb {A} (p : promise A) : bool :=
  match p with Fulfils _ _ => true | _ => false end.

(** [wrapped] is [raw] with every rejection turned into [default]. *)
Definition collapses {A} (default : A) (raw wrapped : promise A) : Prop :=
  match raw with
  | Rejects t _ => wrapped = Fulfils t default
  | Fulfils t v => wrapped = Fulfils t v
  | Never => wrapped = Never
  end.

(** [Promise.all([pa, pb])] on a pair of promises of different types. *)
Definition Promise_all2 {A B} (pa : promise A) (pb : promise B)
  : promise (A * B) :=
  match pa, pb with
  | Rejects t e, Rejects t' e' =>
      if (t <=? t')%nat then Rejects t e else Rejects t' e'
  | Rejects t e, _ => Rejects t e
  | _, Rejects t' e' => Rejects t' e'
  | Fulfils t a, Fulfils t' b => Fulfils (Nat.max t t') (a, b)
  | _, _ => Never
  end.

End Js.

(** ** Data model *)

(** [LogMessage] of [services/frpcManager]. *)
Record LogMessage : Type := {
  tunnel_id : Z;
  message : string;
  timestamp : string;
}.

(** [Tunnel] of [services/api], with the fields the coordinator reads.  The
    declaration is not part of these sources; [type] is optional because the
    code reads it through [?.]. *)
Module Api.
Record Tunnel : Type := {
  id : Z;
  name : string;
  type : option string;
  dorp : string;
}.
End Api.

(** [CustomTunnel] of [services/customTunnelService]: only its [id] is read
    here. *)
Module Custom.
Record CustomTunnel : Type := {
  id : Z;
}.
End Custom.

(** [UnifiedTunnel] of [TunnelList/types]. *)
Inductive UnifiedTunnel : Type :=
| api (data : Api.Tunnel)
| custom (data : Custom.CustomTunnel).

(** The key of a tunnel in [runningTunnels]: [`api_${id}`] or
    [`custom_${id}`]. *)
Definition tunnelKey (tunnel : UnifiedTunnel) : string :=
  match tunnel with
  | api data => "api_" +:+ pretty (Api.id data)
  | custom data => "custom_" +:+ pretty (Custom.id data)
  end.

(** ** services/logStore *)

Module LogStore.

Definition maxLogs : nat := 5000.

(** [logs.slice(-n)] for a positive [n]: the last [n] elements. *)
Definition slice_last (n : nat) (logs : list LogMessage) : list LogMessage :=
  drop (length logs - n) logs.

Definition trimLogs (logs : list LogMessage) : list LogMessage :=
  if (maxLogs <? length logs)%nat then slice_last maxLogs logs else logs.

(** [addLog], and the callback of [startListening]: push, trim; the
    notification of the listeners is the caller's next step. *)
Definition addLog (logs : list LogMessage) (log : LogMessage) : list LogMessage :=
  trimLogs (logs ++ [log]).

Definition clearLogs (logs : list LogMessage) : list LogMessage := [].

(** Operations on the store, for statements about sequences of them. *)
Inductive op : Type :=
| Add (log : LogMessage)
| Clear.

Definition apply (logs : list LogMessage) (o : op) : list LogMessage :=
  match o with
  | Add log => addLog logs log
  | Clear => clearLogs logs
  end.

End LogStore.

(** ** services/frpcManager *)

Module FrpcManager.

Import Js.

(** The replies of the native layer to [invoke]. *)
Record Native : Type := {
  is_frpc_running : Z -> promise bool;
  get_running_tunnels : promise (list Z);
  resolve_domain_to_ip : string -> promise (option string);
  stop_frpc : Z -> promise string;
}.

Definition stopTunnel (native : Native) (tunnelId : Z) : promise string :=
  stop_frpc native tunnelId.

Definition isTunnelRunning (native : Native) (tunnelId : Z) : promise bool :=
  catch (is_frpc_running native tunnelId) (fun _ => false).

Definition getRunningTunnels (native : Native) : promise (list Z) :=
  catch (get_running_tunnels native) (fun _ => []).

Definition resolveDomainToIp (native : Native) (domain : string)
  : promise (option string) :=
  catch (resolve_domain_to_ip native domain) (fun _ => None).

End FrpcManager.

(** ** TunnelList/hooks/useTunnelList *)

Module TunnelList.

Import Js.

(** What the outside world answers during one call. *)
Record Env : Type := {
  fetchTunnels : promise (list Api.Tunnel);
  getCustomTunnels : promise (list Custom.CustomTunnel);
  native : FrpcManager.Native;
  isCustomTunnelRunning : Z -> promise bool;
}.

(** The state the hook owns, and [tunnelListCache.tunnels]. *)
Record State : Type := {
  tunnels : list UnifiedTunnel;
  loading : bool;
  error : string;
  runningTunnels : gset string;
  cache_tunnels : list Api.Tunnel;
}.

Definition setTunnels (v : list UnifiedTunnel) (s : State) : State :=
  {| tunnels := v; loading := loading s; error := error s;
     runningTunnels := runningTunnels s; cache_tunnels := cache_tunnels s |}.

Definition setLoading (v : bool) (s : State) : State :=
  {| tunnels := tunnels s; loading := v; error := error s;
     runningTunnels := runningTunnels s; cache_tunnels := cache_tunnels s |}.

Definition setError (v : string) (s : State) : State :=
  {| tunnels := tunnels s; loading := loading s; error := v;
     runningTunnels := runningTunnels s; cache_tunnels := cache_tunnels s |}.

Definition setRunningTunnels (v : gset string) (s : State) : State :=
  {| tunnels := tunnels s; loading := loading s; error := error s;
     runningTunnels := v; cache_tunnels := cache_tunnels s |}.

Definition setCache (v : list Api.Tunnel) (s : State) : State :=
  {| tunnels := tunnels s; loading := loading s; error := error s;
     runningTunnels := runningTunnels s; cache_tunnels := v |}.

(** How a call of one of the hook's [async] functions ends: it returns at
    time [t] leaving state [s], it rejects (nothing catches it), or it stays
    suspended at an [await] with the state written so far. *)
Inductive outcome : Type :=
| Completed (t : nat) (s : State)
| Failed (t : nat) (s : State) (e : Js.error)
| Suspended (s : State).

(** [withTimeout] of [loadTunnels].  The query is issued before
    [setTimeout] is called, so when the promise and the timer are due at the
    same millisecond the promise settles first: its [then] clears the timer
    and its value is kept. *)
Definition withTimeout (p : promise bool) (timeoutMs : nat) : promise bool :=
  match p with
  | Fulfils t v =>
      if (t <=? timeoutMs)%nat then Fulfils t v else Fulfils timeoutMs false
  | Rejects t _ =>
      if (t <=? timeoutMs)%nat then Fulfils t false else Fulfils timeoutMs false
  | Never => Fulfils timeoutMs false
  end.

(** The status query of one tunnel, by kind. *)
Definition isRunning (env : Env) (tunnel : UnifiedTunnel) : promise bool :=
  match tunnel with
  | api data => FrpcManager.isTunnelRunning (native env) (Api.id data)
  | custom data => isCustomTunnelRunning env (Custom.id data)
  end.

(** The arrow mapped over [allTunnels] in [loadTunnels]: the key it adds to
    [running], if any. *)
Definition guardedQuery (env : Env) (tunnel : UnifiedTunnel)
  : promise (option string) :=
  await (withTimeout (isRunning env tunnel) 3000)
    (fun r => Fulfils 0 (if r then Some (tunnelKey tunnel) else None)).

Definition collect (added : list (option string)) : gset string :=
  fold_left
    (fun running k =>
       match k with Some key => {[key]} ∪ running | None => running end)
    added ∅.

(** The [catch] and [finally] blocks of [loadTunnels]. *)
Definition onLoadError (t : nat) (s : State) (err : Js.error) : outcome :=
  let message :=
    match err with Some m => m | None => "获取隧道列表失败" end in
  let s' :=
    if includes message "登录" || includes message "token"
       || includes message "令牌"
    then setError message s else s in
  Completed t (setLoading false s').

Definition loadTunnels (env : Env) (s : State) : outcome :=
  let s1 := setError "" (setLoading true s) in
  match Promise_all2 (catch (fetchTunnels env) (fun _ => []))
                     (catch (getCustomTunnels env) (fun _ => [])) with
  | Never => Suspended s1
  | Rejects t e => onLoadError t s1 e
  | Fulfils t (apiTunnels, customTunnels) =>
      let allTunnels := (map api apiTunnels ++ map custom customTunnels)%list in
      let s2 := setLoading false (setCache apiTunnels (setTunnels allTunnels s1)) in
      match Promise_all (map (guardedQuery env) allTunnels) with
      | Never => Suspended s2
      | Rejects t' e => onLoadError (t + t') s2 e
      | Fulfils t' added =>
          Completed (t + t') (setLoading false (setRunningTunnels (collect added) s2))
      end
  end.

(** The loop shared by [checkRunningStatus] and the listener of
    "tunnel-auto-restarted": one query after the other, each awaited. *)
Fixpoint pollEach (env : Env) (todo : list UnifiedTunnel) (running : gset string)
  : promise (gset string) :=
  match todo with
  | [] => Fulfils 0 running
  | tunnel :: rest =>
      await (isRunning env tunnel)
        (fun r =>
           pollEach env rest
             (if r then {[tunnelKey tunnel]} ∪ running else running))
  end.

Definition checkRunningStatus (env : Env) (s : State) : outcome :=
  match pollEach env (tunnels s) ∅ with
  | Fulfils t running => Completed t (setRunningTunnels running s)
  | Rejects t e => Failed t s e
  | Never => Suspended s
  end.

Definition pollIntervalMs : nat := 5000.

(** One tick of the interval effect: no timer exists while the catalog is
    empty. *)
Definition periodicPass (env : Env) (s : State) : option outcome :=
  match tunnels s with
  | [] => None
  | _ :: _ => Some (checkRunningStatus env s)
  end.

End TunnelList.

(** ** App/hooks/useTunnelNotifications *)

Module Notifications.

Import Js.

Definition marker_launched : string := "frpc 进程已启动".
Definition marker_success : string := "映射启动成功".
Definition marker_failed : string := "启动失败".
Definition tag_launcher : string := "[ChmlFrpLauncher]".
Definition tag_started : string := "启动成功".

(** [tunnelCacheRef.current] *)
Record Cache : Type := {
  updatedAt : Z;
  data : gmap Z Api.Tunnel;
}.

(** The refs of the hook. *)
Record Refs : Type := {
  processedLogsCount : nat;
  notifiedSuccess : gset Z;
  notifiedError : gset Z;
  successLogAdded : gset Z;
  tunnelCache : Cache;
}.

(** The anonymous [async] function of the success branch, suspended at
    [await getTunnelById(tunnelId)].  [getTunnelById] has already run up to
    its own first [await]: either the cache was fresh and its answer is
    fixed, or [fetchTunnels()] is in flight and [now] and [cache] are the
    values the call captured. *)
Inductive Task : Type :=
| Cached (tunnelId : Z) (hit : option Api.Tunnel)
| Fetching (tunnelId : Z) (now : Z) (cache : Cache).

Definition task_tunnelId (task : Task) : Z :=
  match task with
  | Cached tunnelId _ => tunnelId
  | Fetching tunnelId _ _ => tunnelId
  end.

(** What the hook does to the outside, in the order it does it. *)
Inductive Effect : Type :=
| toast_success (text : string) (duration : Z)
| toast_error (text : string) (duration : Z)
| playTunnelSound (kind : string) (enabled : bool)
| logStore_addLog (log : LogMessage).

Definition is_toast_success (e : Effect) : bool :=
  match e with toast_success _ _ => true | _ => false end.

Definition is_toast (e : Effect) : bool :=
  match e with toast_success _ _ | toast_error _ _ => true | _ => false end.

Definition is_addLog (e : Effect) : bool :=
  match e with logStore_addLog _ => true | _ => false end.

(** The hook, the store it subscribes to and what it reads around it. *)
Record World : Type := {
  logs : list LogMessage;
  activeTab : string;
  tunnelSoundEnabled : option string;
  refs : Refs;
  tasks : list Task;
  effects : list Effect;
}.

Definition set_cursor (n : nat) (r : Refs) : Refs :=
  {| processedLogsCount := n; notifiedSuccess := notifiedSuccess r;
     notifiedError := notifiedError r; successLogAdded := successLogAdded r;
     tunnelCache := tunnelCache r |}.

Definition set_notifiedSuccess (v : gset Z) (r : Refs) : Refs :=
  {| processedLogsCount := processedLogsCount r; notifiedSuccess := v;
     notifiedError := notifiedError r; successLogAdded := successLogAdded r;
     tunnelCache := tunnelCache r |}.

Definition set_notifiedError (v : gset Z) (r : Refs) : Refs :=
  {| processedLogsCount := processedLogsCount r;
     notifiedSuccess := notifiedSuccess r; notifiedError := v;
     successLogAdded := successLogAdded r; tunnelCache := tunnelCache r |}.

Definition set_successLogAdded (v : gset Z) (r : Refs) : Refs :=
  {| processedLogsCount := processedLogsCount r;
     notifiedSuccess := notifiedSuccess r; notifiedError := notifiedError r;
     successLogAdded := v; tunnelCache := tunnelCache r |}.

Definition set_tunnelCache (v : Cache) (r : Refs) : Refs :=
  {| processedLogsCount := processedLogsCount r;
     notifiedSuccess := notifiedSuccess r; notifiedError := notifiedError r;
     successLogAdded := successLogAdded r; tunnelCache := v |}.

Definition with_logs (v : list LogMessage) (w : World) : World :=
  {| logs := v; activeTab := activeTab w;
     tunnelSoundEnabled := tunnelSoundEnabled w; refs := refs w;
     tasks := tasks w; effects := effects w |}.

Definition with_activeTab (v : string) (w : World) : World :=
  {| logs := logs w; activeTab := v;
     tunnelSoundEnabled := tunnelSoundEnabled w; refs := refs w;
     tasks := tasks w; effects := effects w |}.

Definition with_refs (v : Refs) (w : World) : World :=
  {| logs := logs w; activeTab := activeTab w;
     tunnelSoundEnabled := tunnelSoundEnabled w; refs := v;
     tasks := tasks w; effects := effects w |}.

Definition with_tasks (v : list Task) (w : World) : World :=
  {| logs := logs w; activeTab := activeTab w;
     tunnelSoundEnabled := tunnelSoundEnabled w; refs := refs w;
     tasks := v; effects := effects w |}.

Definition raise (es : list Effect) (w : World) : World :=
  {| logs := logs w; activeTab := activeTab w;
     tunnelSoundEnabled := tunnelSoundEnabled w; refs := refs w;
     tasks := tasks w; effects := effects w ++ es |}.

(** [getTunnelById], up to its first [await]. *)
Definition getTunnelById_start (cache : Cache) (now : Z) (tunnelId : Z) : Task :=
  if (now - updatedAt cache <? 30000)%Z && (0 <? size (data cache))%nat
  then Cached tunnelId (data cache !! tunnelId)
  else Fetching tunnelId now cache.

Definition nextMap (fetched : list Api.Tunnel) : gmap Z Api.Tunnel :=
  fold_left (fun m tunnel => <[Api.id tunnel := tunnel]> m) fetched ∅.

(** [getTunnelById], from the settlement of [fetchTunnels()] on: the cache
    ref as the call leaves it, and the tunnel returned. *)
Definition getTunnelById_finish (task : Task) (fetched : settled (list Api.Tunnel))
    (current : Cache) : Cache * option Api.Tunnel :=
  match task with
  | Cached _ hit => (current, hit)
  | Fetching tunnelId now cache =>
      match fetched with
      | resolved fetchedTunnels =>
          ({| updatedAt := now; data := nextMap fetchedTunnels |},
           nextMap fetchedTunnels !! tunnelId)
      | rejected _ => (current, data cache !! tunnelId)
      end
  end.

Definition isWebType (tunnelType : option string) : bool :=
  match tunnelType with
  | Some t => String.eqb t "http" || String.eqb t "https"
  | None => false
  end.

Definition linkMessage (tunnelName link : string) : string :=
  "[I] [ChmlFrpLauncher] 隧道" +:+ dquote +:+ tunnelName +:+ dquote
  +:+ "启动成功，您可以通过" +:+ dquote +:+ link +:+ dquote +:+ "访问。".

Definition plainMessage (tunnelName : string) : string :=
  "[I] [ChmlFrpLauncher] 隧道" +:+ dquote +:+ tunnelName +:+ dquote
  +:+ "启动成功。".

(** The body of the anonymous [async] function after the [await]: the line
    it hands to [logStore.addLog], if it gets that far.  [stamp] is the
    formatted [new Date()]. *)
Definition friendlyLine (tunnelId : Z) (found : option Api.Tunnel) (stamp : string)
  : option LogMessage :=
  match found with
  | None => None
  | Some tunnel =>
      let tunnelType := option_map toLowerCase (Api.type tunnel) in
      if negb (isWebType tunnelType) then None
      else
        let link := or_else (Api.dorp tunnel) "" in
        let tunnelName :=
          or_else (Api.name tunnel) ("隧道" +:+ pretty tunnelId) in
        if negb (String.eqb link "")
        then Some {| tunnel_id := tunnelId;
                     message := linkMessage tunnelName link;
                     timestamp := stamp |}
        else Some {| tunnel_id := tunnelId;
                     message := plainMessage tunnelName;
                     timestamp := stamp |}
  end.

Definition hasLauncherSuccessLog (snapshot : list LogMessage) (tunnelId : Z) : bool :=
  existsb
    (fun item =>
       (tunnel_id item =? tunnelId)%Z
       && includes (message item) tag_launcher
       && includes (message item) tag_started)
    snapshot.

Definition soundEnabled (w : World) : bool :=
  match tunnelSoundEnabled w with
  | Some v => negb (String.eqb v "false")
  | None => true
  end.

(** The three [delete]s of the "process launched" branch. *)
Definition resetEpoch (tunnelId : Z) (r : Refs) : Refs :=
  set_successLogAdded (successLogAdded r ∖ {[tunnelId]})
    (set_notifiedError (notifiedError r ∖ {[tunnelId]})
       (set_notifiedSuccess (notifiedSuccess r ∖ {[tunnelId]}) r)).

(** First half of the loop body: epoch reset and friendly-line synthesis. *)
Definition handleSynthesis (now : Z) (snapshot : list LogMessage) (w : World)
    (log : LogMessage) : World :=
  let tunnelId := tunnel_id log in
  let hasLauncher := hasLauncherSuccessLog snapshot tunnelId in
  let w1 :=
    if includes (message log) marker_launched
    then with_refs (resetEpoch tunnelId (refs w)) w else w in
  if includes (message log) marker_success
     && negb hasLauncher
     && negb (bool_decide (tunnelId ∈ successLogAdded (refs w1)))
  then
    let r := set_successLogAdded ({[tunnelId]} ∪ successLogAdded (refs w1)) (refs w1) in
    with_tasks (tasks w1 ++ [getTunnelById_start (tunnelCache r) now tunnelId])
      (with_refs r w1)
  else w1.

(** Second half of the loop body, skipped when [activeTab] is "tunnels". *)
Definition handleToast (w : World) (log : LogMessage) : World :=
  let tunnelId := tunnel_id log in
  if includes (message log) marker_success then
    if bool_decide (tunnelId ∈ notifiedSuccess (refs w)) then w
    else
      raise [playTunnelSound "success" (soundEnabled w);
             toast_success "隧道启动成功" 4000]
        (with_refs
           (set_notifiedSuccess ({[tunnelId]} ∪ notifiedSuccess (refs w)) (refs w)) w)
  else if includes (message log) marker_failed then
    if bool_decide (tunnelId ∈ notifiedError (refs w)) then w
    else
      raise [playTunnelSound "error" (soundEnabled w);
             toast_error "隧道启动失败，请查看日志" 6000]
        (with_refs
           (set_notifiedError ({[tunnelId]} ∪ notifiedError (refs w)) (refs w)) w)
  else w.

(** The body of [for (const log of newLogs)]. *)
Definition handleLog (now : Z) (snapshot : list LogMessage) (w : World)
    (log : LogMessage) : World :=
  let w1 := handleSynthesis now snapshot w log in
  if String.eqb (activeTab w1) "tunnels" then w1 else handleToast w1 log.

(** The callback given to [logStore.subscribe], called with a copy of the
    store's array.  [now] is what [Date.now()] reads during the call. *)
Definition listener (now : Z) (snapshot : list LogMessage) (w : World) : World :=
  if (length snapshot =? 0)%nat then w
  else
    let startIndex := processedLogsCount (refs w) in
    if (length snapshot <=? startIndex)%nat then w
    else
      let newLogs := drop startIndex snapshot in
      let w1 := with_refs (set_cursor (length snapshot) (refs w)) w in
      fold_left (handleLog now snapshot) newLogs w1.

(** [newLogs] of a delivery to a hook whose cursor stands at [startIndex]:
    the lines the loop of the callback runs over, none when the callback
    returns before the loop. *)
Definition newLogs (snapshot : list LogMessage) (startIndex : nat)
  : list LogMessage :=
  if (length snapshot =? 0)%nat then []
  else if (length snapshot <=? startIndex)%nat then []
  else drop startIndex snapshot.

(** [notifyListeners] of the store, seen from this hook. *)
Definition notifyListeners (now : Z) (w : World) : World :=
  listener now (logs w) w.

(** What can happen to the hook. *)
Inductive Event : Type :=
| FrpcLog (now : Z) (log : LogMessage)
| Settle (k : nat) (fetched : settled (list Api.Tunnel)) (now : Z) (stamp : string)
| ClearLogs (now : Z)
| SwitchTab (now : Z) (tab : string).

(** The [k]-th suspended synthesis resumes: [getTunnelById] returns, and the
    function appends its line or gives up. *)
Definition settleTask (k : nat) (fetched : settled (list Api.Tunnel)) (now : Z)
    (stamp : string) (w : World) : World :=
  match tasks w !! k with
  | None => w
  | Some task =>
      let '(cache, found) :=
        getTunnelById_finish task fetched (tunnelCache (refs w)) in
      let w1 := with_tasks (delete k (tasks w))
                  (with_refs (set_tunnelCache cache (refs w)) w) in
      match friendlyLine (task_tunnelId task) found stamp with
      | None => w1
      | Some line =>
          notifyListeners now
            (with_logs (LogStore.addLog (logs w1) line)
               (raise [logStore_addLog line] w1))
      end
  end.

Definition step (w : World) (e : Event) : World :=
  match e with
  | FrpcLog now log =>
      notifyListeners now (with_logs (LogStore.addLog (logs w) log) w)
  | Settle k fetched now stamp => settleTask k fetched now stamp w
  | ClearLogs now =>
      notifyListeners now (with_logs (LogStore.clearLogs (logs w)) w)
  | SwitchTab now tab => notifyListeners now (with_activeTab tab w)
  end.

Definition run (w : World) (events : list Event) : World :=
  fold_left step events w.

Definition emptyRefs : Refs :=
  {| processedLogsCount := 0; notifiedSuccess := ∅; notifiedError := ∅;
     successLogAdded := ∅;
     tunnelCache := {| updatedAt := 0; data := ∅ |} |}.

(** The hook mounts on a store that holds [stored]: [subscribe] delivers the
    current array at once. *)
Definition mount (now : Z) (tab : string) (sound : option string)
    (stored : list LogMessage) : World :=
  notifyListeners now
    {| logs := stored; activeTab := tab; tunnelSoundEnabled := sound;
       refs := emptyRefs; tasks := []; effects := [] |}.

Definition count (p : Effect -> bool) (w : World) : nat :=
  length (List.filter p (effects w)).

(** The next line that arrives is handled: the cursor stands at the end of
    the store and the store has room. *)
Definition inStep (w : World) : Prop :=
  processedLogsCount (refs w) = length (logs w)
  /\ (length (logs w) < LogStore.maxLogs)%nat.

(** Whether handling [log] starts a synthesis, given the notification sets
    before it. *)
Definition startsSynthesis (snapshot : list LogMessage) (r : Refs)
    (log : LogMessage) : bool :=
  includes (message log) marker_success
  && negb (hasLauncherSuccessLog snapshot (tunnel_id log))
  && (includes (message log) marker_launched
      || negb (bool_decide (tunnel_id log ∈ successLogAdded r))).

(** Whether handling [log] raises the success toast. *)
Definition raisesSuccess (r : Refs) (log : LogMessage) : bool :=
  includes (message log) marker_success
  && (includes (message log) marker_launched
      || negb (bool_decide (tunnel_id log ∈ notifiedSuccess r))).


Definition is_addLog_for (tunnelId : Z) (e : Effect) : bool :=
  match e with
  | logStore_addLog log => (tunnel_id log =? tunnelId)%Z
  | _ => false
  end.

(** An event that does not open a new epoch for [tunnelId]: anything but the
    arrival of a "process launched" line of that tunnel. *)
Definition quiet (tunnelId : Z) (e : Event) : bool :=
  match e with
  | FrpcLog _ log =>
      negb ((tunnel_id log =? tunnelId)%Z
            && includes (message log) marker_launched)
  | _ => true
  end.

(** Lines arriving from the native layer, each with the clock reading of its
    delivery. *)
Definition arrivals (lines : list (Z * LogMessage)) : list Event :=
  map (fun p => FrpcLog (fst p) (snd p)) lines.

(** The cursor is at or beyond the end of the store: so it is after every
    delivery. *)
Definition caughtUp (w : World) : Prop :=
  (length (logs w) <= processedLogsCount (refs w))%nat.

End Notifications.

(** ** TunnelList/hooks/useAutoStartTunnels *)

Module AutoStart.

Import Js.

(** [onToggle]: the handler is called for its effect; what matters here is
    whether the call returns or throws. *)
Definition Toggle : Type := UnifiedTunnel -> bool -> settled unit.

(** One call of [autoStart], by the [await] it is suspended at. *)
Inductive Run : Type :=
| AwaitingList
| AwaitingSettle (currentTunnels : list UnifiedTunnel) (autoStartSet : gset string)
| Pausing (rest : list UnifiedTunnel) (currentRunningTunnels : gset string)
    (toggle : Toggle) (autoStartSet : gset string)
| Returned.

(** The refs of the hook, the dependencies its last effect saw, the calls of
    [autoStart] made so far, and the calls [toggle(tunnel, true)] issued, each
    with the index of the call of [autoStart] that issued it. *)
Record Hook : Type := {
  hasAutoStarted : bool;
  tunnelsRef : list UnifiedTunnel;
  runningTunnelsRef : gset string;
  onToggleRef : Toggle;
  deps : option (bool * nat);
  runs : list Run;
  toggled : list (nat * UnifiedTunnel);
}.

Definition markDone (h : Hook) : Hook :=
  {| hasAutoStarted := true; tunnelsRef := tunnelsRef h;
     runningTunnelsRef := runningTunnelsRef h; onToggleRef := onToggleRef h;
     deps := deps h; runs := runs h; toggled := toggled h |}.

Definition set_run (k : nat) (r : Run) (h : Hook) : Hook :=
  {| hasAutoStarted := hasAutoStarted h; tunnelsRef := tunnelsRef h;
     runningTunnelsRef := runningTunnelsRef h; onToggleRef := onToggleRef h;
     deps := deps h; runs := <[k := r]> (runs h); toggled := toggled h |}.

Definition spawn (h : Hook) : Hook :=
  {| hasAutoStarted := hasAutoStarted h; tunnelsRef := tunnelsRef h;
     runningTunnelsRef := runningTunnelsRef h; onToggleRef := onToggleRef h;
     deps := deps h; runs := runs h ++ [AwaitingList]; toggled := toggled h |}.

Definition record_toggle (k : nat) (tunnel : UnifiedTunnel) (h : Hook) : Hook :=
  {| hasAutoStarted := hasAutoStarted h; tunnelsRef := tunnelsRef h;
     runningTunnelsRef := runningTunnelsRef h; onToggleRef := onToggleRef h;
     deps := deps h; runs := runs h; toggled := toggled h ++ [(k, tunnel)] |}.

(** The three ref-updating effects of a render. *)
Definition set_props (tunnels : list UnifiedTunnel) (running : gset string)
    (onToggle : Toggle) (newDeps : bool * nat) (h : Hook) : Hook :=
  {| hasAutoStarted := hasAutoStarted h; tunnelsRef := tunnels;
     runningTunnelsRef := running; onToggleRef := onToggle;
     deps := Some newDeps; runs := runs h; toggled := toggled h |}.

(** The body of the last effect: the gates, then the call of [autoStart],
    which runs up to [await getAutoStartTunnels()]. *)
Definition autoStartEffect (loading : bool) (tunnels : list UnifiedTunnel)
    (h : Hook) : Hook :=
  if hasAutoStarted h then h
  else if loading || (length tunnels =? 0)%nat then h
  else spawn h.

(** A render with new props.  The last effect runs on mount and whenever
    [loading] or [tunnels.length] differs from the previous render. *)
Definition render (loading : bool) (tunnels : list UnifiedTunnel)
    (running : gset string) (onToggle : Toggle) (h : Hook) : Hook :=
  let newDeps := (loading, length tunnels) in
  let h1 := set_props tunnels running onToggle newDeps h in
  match deps h with
  | Some (l, n) =>
      if Bool.eqb l loading && (n =? length tunnels)%nat then h1
      else autoStartEffect loading tunnels h1
  | None => autoStartEffect loading tunnels h1
  end.

Definition autoStartKey (entry : string * Z) : string :=
  fst entry +:+ "_" +:+ pretty (snd entry).

Definition makeAutoStartSet (autoStartList : list (string * Z)) : gset string :=
  fold_left (fun acc entry => {[autoStartKey entry]} ∪ acc) autoStartList ∅.

(** [!user?.usertoken], [user] being [getStoredUser()]: [None] when there is
    no stored user or no token field. *)
Definition noToken (usertoken : option string) : bool :=
  match usertoken with
  | Some tok => String.eqb tok ""
  | None => true
  end.

(** [autoStart] of call [k], from the settlement of
    [getAutoStartTunnels()] to the 1000 ms wait. *)
Definition afterList (k : nat) (result : settled (list (string * Z)))
    (usertoken : option string) (h : Hook) : Hook :=
  match result with
  | rejected _ => markDone (set_run k Returned h)
  | resolved autoStartList =>
      if (length autoStartList =? 0)%nat then markDone (set_run k Returned h)
      else
        let currentTunnels := tunnelsRef h in
        let hasApiTunnels :=
          existsb (fun entry => String.eqb (fst entry) "api") autoStartList in
        if hasApiTunnels && noToken usertoken
        then markDone (set_run k Returned h)
        else set_run k (AwaitingSettle currentTunnels (makeAutoStartSet autoStartList)) h
  end.

(** The [for] loop of [autoStart] of call [k], up to its next 500 ms wait,
    to its end, or to a throw of [toggle], which the [catch] block takes. *)
Fixpoint autoStartLoop (k : nat) (todo : list UnifiedTunnel)
    (currentRunningTunnels : gset string) (toggle : Toggle)
    (autoStartSet : gset string) (h : Hook) : Hook :=
  match todo with
  | [] => markDone (set_run k Returned h)
  | tunnel :: rest =>
      let key := tunnelKey tunnel in
      if negb (bool_decide (key ∈ autoStartSet))
      then autoStartLoop k rest currentRunningTunnels toggle autoStartSet h
      else if bool_decide (key ∈ currentRunningTunnels)
      then autoStartLoop k rest currentRunningTunnels toggle autoStartSet h
      else
        let h1 := record_toggle k tunnel h in
        match toggle tunnel true with
        | rejected _ => markDone (set_run k Returned h1)
        | resolved _ =>
            set_run k (Pausing rest currentRunningTunnels toggle autoStartSet) h1
        end
  end.

(** What can happen to the hook. *)
Inductive Event : Type :=
| Render (loading : bool) (tunnels : list UnifiedTunnel)
    (running : gset string) (onToggle : Toggle)
| ListSettled (k : nat) (result : settled (list (string * Z)))
    (usertoken : option string)
| TimerFired (k : nat).

Definition step (h : Hook) (e : Event) : Hook :=
  match e with
  | Render loading tunnels running onToggle =>
      render loading tunnels running onToggle h
  | ListSettled k result usertoken =>
      match runs h !! k with
      | Some AwaitingList => afterList k result usertoken h
      | _ => h
      end
  | TimerFired k =>
      match runs h !! k with
      | Some (AwaitingSettle currentTunnels autoStartSet) =>
          autoStartLoop k currentTunnels (runningTunnelsRef h) (onToggleRef h)
            autoStartSet h
      | Some (Pausing rest currentRunningTunnels toggle autoStartSet) =>
          autoStartLoop k rest currentRunningTunnels toggle autoStartSet h
      | _ => h
      end
  end.

Definition run (h : Hook) (events : list Event) : Hook :=
  fold_left step events h.

(** The hook before its first render. *)
Definition unmounted : Hook :=
  {| hasAutoStarted := false; tunnelsRef := []; runningTunnelsRef := ∅;
     onToggleRef := fun _ _ => resolved tt; deps := None; runs := [];
     toggled := [] |}.

(** The calls of [autoStart] that issued at least one toggle. *)
Definition togglingRuns (h : Hook) : gset nat :=
  list_to_set (map fst (toggled h)).

End AutoStart.

(** ** Sessions and log lines *)

Definition sameKind (a b : UnifiedTunnel) : bool :=
  match a, b with
  | api _, api _ => true
  | custom _, custom _ => true
  | _, _ => false
  end.

(** Modelled from the spec: the native layer that emits the log lines is not
    part of these sources.  The specification gives a log line the numeric id
    of its session ("LogLine: {sessionId: number, message, timestamp}") and
    gives each kind of session its own numeric id; for a provisioned tunnel
    this is the [tunnel_id: tunnel.id] that [startTunnel] puts in the
    configuration it hands to the native layer. *)
Definition sessionId (tunnel : UnifiedTunnel) : Z :=
  match tunnel with
  | api data => Api.id data
  | custom data => Custom.id data
  end.

Definition logLineOf (tunnel : UnifiedTunnel) (text stamp : string) : LogMessage :=
  {| tunnel_id := sessionId tunnel; message := text; timestamp := stamp |}.

(** ** Concrete inputs used by the examples *)

Module Sample.

Import Js.

Definition silent_native : FrpcManager.Native :=
  {| FrpcManager.is_frpc_running := fun _ => Never;
     FrpcManager.get_running_tunnels := Never;
     FrpcManager.resolve_domain_to_ip := fun _ => Never;
     FrpcManager.stop_frpc := fun _ => Never |}.

Definition silent_env : TunnelList.Env :=
  {| TunnelList.fetchTunnels := Fulfils 0 [];
     TunnelList.getCustomTunnels := Fulfils 0 [];
     TunnelList.native := silent_native;
     TunnelList.isCustomTunnelRunning := fun _ => Never |}.

Definition tunnel_one : UnifiedTunnel :=
  api {| Api.id := 1; Api.name := "web"; Api.type := Some "tcp";
         Api.dorp := "25565" |}.

Definition one_tunnel_state : TunnelList.State :=
  {| TunnelList.tunnels := [tunnel_one]; TunnelList.loading := false;
     TunnelList.error := ""; TunnelList.runningTunnels := {["api_1"]};
     TunnelList.cache_tunnels := [] |}.

(** A provisioned and a custom session with the same numeric id. *)
Definition provisioned_7 : UnifiedTunnel :=
  api {| Api.id := 7; Api.name := "web"; Api.type := Some "http";
         Api.dorp := "a.example.com" |}.

Definition custom_7 : UnifiedTunnel := custom {| Custom.id := 7 |}.

Definition tcp_7 : Api.Tunnel :=
  {| Api.id := 7; Api.name := "game"; Api.type := Some "tcp";
     Api.dorp := "25565" |}.

Definition http_7 : Api.Tunnel :=
  {| Api.id := 7; Api.name := "web"; Api.type := Some "http";
     Api.dorp := "a.example.com" |}.

Definition line (tunnelId : Z) (text : string) : LogMessage :=
  {| tunnel_id := tunnelId; message := text; timestamp := "2026/01/01 00:00:00" |}.

(** The notification hook, mounted on an empty store, outside the log view. *)
Definition fresh : Notifications.World :=
  Notifications.mount 0 "home" None [].

(** The hook after three lines, none of them a marker. *)
Definition after_three : Notifications.World :=
  Notifications.run fresh
    [ Notifications.FrpcLog 1 (line 7 "login to server success");
      Notifications.FrpcLog 2 (line 7 "proxy added");
      Notifications.FrpcLog 3 (line 8 "login to server success") ].

(** The hook once the store holds 5000 lines: the cursor stands at 5000. *)
Definition saturated : Notifications.World :=
  {| Notifications.logs := replicate 5000 (line 7 "heartbeat");
     Notifications.activeTab := "home";
     Notifications.tunnelSoundEnabled := None;
     Notifications.refs := Notifications.set_cursor 5000 Notifications.emptyRefs;
     Notifications.tasks := [];
     Notifications.effects := [] |}.

(** The hook when the store holds 4999 lines and the cursor stands at its
    end: one more line fills the store. *)
Definition almost_full : Notifications.World :=
  {| Notifications.logs := replicate 4999 (line 8 "heartbeat");
     Notifications.activeTab := "home";
     Notifications.tunnelSoundEnabled := None;
     Notifications.refs := Notifications.set_cursor 4999 Notifications.emptyRefs;
     Notifications.tasks := [];
     Notifications.effects := [] |}.

Definition toggle_ok : AutoStart.Toggle := fun _ _ => resolved tt.

(** The hook mounts with a cached catalog, [loadTunnels] flips [loading] to
    [true] and back while the first call of [autoStart] is still waiting, and
    the effect runs again. *)
Definition double_start : list AutoStart.Event :=
  [ AutoStart.Render false [tunnel_one] ∅ toggle_ok;
    AutoStart.Render true [tunnel_one] ∅ toggle_ok;
    AutoStart.Render false [tunnel_one] ∅ toggle_ok;
    AutoStart.ListSettled 0 (resolved [("api", 1%Z)]) (Some "token");
    AutoStart.ListSettled 1 (resolved [("api", 1%Z)]) (Some "token");
    AutoStart.TimerFired 0;
    AutoStart.TimerFired 1;
    AutoStart.TimerFired 0;
    AutoStart.TimerFired 1 ].

End Sample.

(** ** services/logStore: the listeners and the native subscription *)

Module Subscriptions.

(** A listener is a function; a [Set] holds it by identity. *)
Definition Listener : Type := nat.

(** The [LogStore] singleton, the [FrpcManager] singleton it listens through
    and the "frpc-log" handlers registered with the runtime.  A handle names
    one registration; [delivered] records every call of a listener with the
    copy of the array it was given. *)
Record System : Type := {
  logs : list LogMessage;
  listeners : list Listener;
  isListening : bool;
  unlisten : option nat;
  pending : nat;
  handlers : list nat;
  nextHandle : nat;
  delivered : list (Listener * list LogMessage);
}.

Definition initial : System :=
  {| logs := []; listeners := []; isListening := false; unlisten := None;
     pending := 0; handlers := []; nextHandle := 0; delivered := [] |}.

(** [Set.prototype.add]: insertion order, no duplicates. *)
Definition setAdd (l : Listener) (ls : list Listener) : list Listener :=
  if existsb (Nat.eqb l) ls then ls else (ls ++ [l])%list.

(** [Set.prototype.delete] *)
Definition setDelete (l : nat) (ls : list nat) : list nat :=
  List.filter (fun x => negb (Nat.eqb l x)) ls.

Definition notifyListeners (s : System) : System :=
  {| logs := logs s; listeners := listeners s; isListening := isListening s;
     unlisten := unlisten s; pending := pending s; handlers := handlers s;
     nextHandle := nextHandle s;
     delivered :=
       (delivered s ++ map (fun l => (l, logs s)) (listeners s))%list |}.

Definition subscribe (l : Listener) (s : System) : System :=
  {| logs := logs s; listeners := setAdd l (listeners s);
     isListening := isListening s; unlisten := unlisten s;
     pending := pending s; handlers := handlers s;
     nextHandle := nextHandle s;
     delivered := (delivered s ++ [(l, logs s)])%list |}.

(** The function [subscribe] returns. *)
Definition unsubscribe (l : Listener) (s : System) : System :=
  {| logs := logs s; listeners := setDelete l (listeners s);
     isListening := isListening s; unlisten := unlisten s;
     pending := pending s; handlers := handlers s;
     nextHandle := nextHandle s; delivered := delivered s |}.

Definition getLogs (s : System) : list LogMessage := logs s.

Definition set_logs (v : list LogMessage) (s : System) : System :=
  {| logs := v; listeners := listeners s; isListening := isListening s;
     unlisten := unlisten s; pending := pending s; handlers := handlers s;
     nextHandle := nextHandle s; delivered := delivered s |}.

Definition addLog (log : LogMessage) (s : System) : System :=
  notifyListeners (set_logs (LogStore.addLog (logs s) log) s).

Definition clearLogs (s : System) : System :=
  notifyListeners (set_logs (LogStore.clearLogs (logs s)) s).

(** [FrpcManager.listenToLogs] up to its [await]: the handle held is
    released, and [listen] is called. *)
Definition listenToLogs (s : System) : System :=
  {| logs := logs s; listeners := listeners s; isListening := isListening s;
     unlisten := unlisten s; pending := S (pending s);
     handlers :=
       match unlisten s with
       | Some h => setDelete h (handlers s)
       | None => handlers s
       end;
     nextHandle := nextHandle s; delivered := delivered s |}.

Definition startListening (s : System) : System :=
  if isListening s then s
  else
    listenToLogs
      {| logs := logs s; listeners := listeners s; isListening := true;
         unlisten := unlisten s; pending := pending s;
         handlers := handlers s; nextHandle := nextHandle s;
         delivered := delivered s |}.

(** A pending [listen] resolves: the handler is registered and
    [FrpcManager.unlisten] holds its handle. *)
Definition listenResolved (s : System) : System :=
  match pending s with
  | O => s
  | S rest =>
      {| logs := logs s; listeners := listeners s;
         isListening := isListening s; unlisten := Some (nextHandle s);
         pending := rest; handlers := (handlers s ++ [nextHandle s])%list;
         nextHandle := S (nextHandle s); delivered := delivered s |}
  end.

(** [FrpcManager.stopListening] *)
Definition stopListening (s : System) : System :=
  match unlisten s with
  | None => s
  | Some h =>
      {| logs := logs s; listeners := listeners s;
         isListening := isListening s; unlisten := None;
         pending := pending s; handlers := setDelete h (handlers s);
         nextHandle := nextHandle s; delivered := delivered s |}
  end.

(** The runtime emits "frpc-log": every registered handler runs the callback
    of [startListening]. *)
Definition nativeLog (log : LogMessage) (s : System) : System :=
  fold_left (fun acc _ => addLog log acc) (handlers s) s.

Inductive op : Type :=
| Subscribe (l : Listener)
| Unsubscribe (l : Listener)
| AddLog (log : LogMessage)
| ClearLogs
| StartListening
| ListenResolved
| StopListening
| NativeLog (log : LogMessage).

Definition step (s : System) (o : op) : System :=
  match o with
  | Subscribe l => subscribe l s
  | Unsubscribe l => unsubscribe l s
  | AddLog log => addLog log s
  | ClearLogs => clearLogs s
  | StartListening => startListening s
  | ListenResolved => listenResolved s
  | StopListening => stopListening s
  | NativeLog log => nativeLog log s
  end.

Definition run (s : System) (ops : list op) : System := fold_left step ops s.

(** The snapshots given to listener [l], oldest first. *)
Definition receivedBy (l : Listener) (s : System) : list (list LogMessage) :=
  map snd (List.filter (fun d => Nat.eqb (fst d) l) (delivered s)).

Definition subscribesb (l : Listener) (o : op) : bool :=
  match o with
  | Subscribe l' => Nat.eqb l l'
  | _ => false
  end.

Definition isSubscribed (l : Listener) (s : System) : bool :=
  existsb (Nat.eqb l) (listeners s).

(** The store is bounded and every subscribed listener holds its content. *)
Definition upToDate (s : System) : Prop :=
  (length (logs s) <= LogStore.maxLogs)%nat
  /\ Forall (fun d => (length (snd d) <= LogStore.maxLogs)%nat) (delivered s)
  /\ forall l, isSubscribed l s = true -> last (receivedBy l s) = Some (logs s).

(** The native subscription: before [startListening] nothing is registered;
    afterwards at most one registration exists, pending or done, and the
    manager holds the handle of a registered one. *)
Definition singleRegistration (s : System) : Prop :=
  (pending s + length (handlers s) <= 1)%nat
  /\ (isListening s = false -> pending s = 0%nat /\ handlers s = [])
  /\ (handlers s = [] \/ exists h, handlers s = [h] /\ unlisten s = Some h).

End Subscriptions.

(** ** lib/sound *)

Module Sound.

(** How the audio element behaves: it plays, [play()] rejects, or the
    constructor throws. *)
Inductive Audio : Type :=
| Plays
| PlayRejects
| ConstructorThrows.

(** What a call leaves behind: an audio element started on a file, or a
    line on the console. *)
Inductive Trace : Type :=
| started (src : string)
| console_error (text : string).

Definition soundFile (type : string) : string :=
  if String.eqb type "success" then "/run_tunnel.mp3" else "/stop_tunnel.mp3".

Definition playTunnelSound (type : string) (enabled : bool) (audio : Audio)
  : list Trace :=
  if negb enabled then []
  else
    match audio with
    | Plays => [started (soundFile type)]
    | PlayRejects => [started (soundFile type); console_error "播放音效失败:"]
    | ConstructorThrows => [console_error "创建音效失败:"]
    end.

(** The sound calls among the effects of the notification hook. *)
Definition ofEffect (audio : Audio) (e : Notifications.Effect) : list Trace :=
  match e with
  | Notifications.playTunnelSound kind enabled =>
      playTunnelSound kind enabled audio
  | _ => []
  end.

End Sound.

(** ** TunnelList/hooks/useTunnelList: the rest of the hook *)

Module TunnelListMore.

Import Js TunnelList.

(** The initial values of the four [useState] calls, from
    [tunnelListCache.tunnels]. *)
Definition initialState (cache : list Api.Tunnel) : State :=
  {| tunnels := map api cache;
     loading := (length cache =? 0)%nat;
     error := "";
     runningTunnels := ∅;
     cache_tunnels := cache |}.

(** The listener of "tunnel-auto-restarted": the same loop, over
    [tunnelsRef.current]. *)
Definition onAutoRestarted (env : Env) (tunnelsRef : list UnifiedTunnel)
    (s : State) : outcome :=
  match pollEach env tunnelsRef ∅ with
  | Fulfils t running => Completed t (setRunningTunnels running s)
  | Rejects t e => Failed t s e
  | Never => Suspended s
  end.

(** The state a call leaves, however it ends. *)
Definition stateOf (o : outcome) : State :=
  match o with
  | Completed _ s => s
  | Failed _ s _ => s
  | Suspended s => s
  end.

(** The answer of a query that arrives in time. *)
Definition answersTrue (env : Env) (tunnel : UnifiedTunnel) : bool :=
  match isRunning env tunnel with
  | Fulfils _ true => true
  | _ => false
  end.

Definition answersTrueWithin (timeoutMs : nat) (env : Env)
    (tunnel : UnifiedTunnel) : bool :=
  match isRunning env tunnel with
  | Fulfils t true => (t <=? timeoutMs)%nat
  | _ => false
  end.

Definition settleTime {A} (p : promise A) : nat :=
  match p with
  | Fulfils t _ => t
  | Rejects t _ => t
  | Never => 0
  end.

(** The keys of the tunnels of [todo] that answer [true]. *)
Definition runningKeys (env : Env) (todo : list UnifiedTunnel) : gset string :=
  list_to_set (map tunnelKey (List.filter (answersTrue env) todo)).

(** The keys of the tunnels of [todo] that answer [true] no later than the
    timer is due. *)
Definition guardedKeys (env : Env) (todo : list UnifiedTunnel) : gset string :=
  list_to_set (map tunnelKey (List.filter (answersTrueWithin 3000 env) todo)).

(** The query answers, [true] or [false], before the timer. *)
Definition answersWithin (timeoutMs : nat) (env : Env) (tunnel : UnifiedTunnel)
  : bool :=
  match isRunning env tunnel with
  | Fulfils t _ => (t <? timeoutMs)%nat
  | _ => false
  end.

(** [loadTunnels] as the second copy of the hook in the file has it: the
    queries run one after the other with no timer around them, inside the
    [try] block, and [loading] is switched off by the [finally] block
    alone. *)
Definition loadTunnelsSequential (env : Env) (s : State) : outcome :=
  let s1 := setError "" (setLoading true s) in
  match Promise_all2 (catch (fetchTunnels env) (fun _ => []))
                     (catch (getCustomTunnels env) (fun _ => [])) with
  | Never => Suspended s1
  | Rejects t e => onLoadError t s1 e
  | Fulfils t (apiTunnels, customTunnels) =>
      let allTunnels := (map api apiTunnels ++ map custom customTunnels)%list in
      let s2 := setCache apiTunnels (setTunnels allTunnels s1) in
      match pollEach env allTunnels ∅ with
      | Never => Suspended s2
      | Rejects t' e => onLoadError (t + t') s2 e
      | Fulfils t' running =>
          Completed (t + t') (setLoading false (setRunningTunnels running s2))
      end
  end.

(** The time the queries of [todo] take one after the other. *)
Definition totalTime (env : Env) (todo : list UnifiedTunnel) : nat :=
  fold_right (fun tunnel acc => (settleTime (isRunning env tunnel) + acc)%nat)
    0%nat todo.

End TunnelListMore.

(** ** services/frpcManager: [startTunnel] *)

Module Start.

Import Js.

(** A JavaScript value, as far as the proxy preference can hold one:
    [Other shown] is an object or an array, with the text a template literal
    gives for it.  Numbers are integers. *)
Inductive value : Type :=
| Undefined
| Null
| Bool (b : bool)
| Num (z : Z)
| Str (s : string)
| Other (shown : string).

Definition truthy (v : value) : bool :=
  match v with
  | Undefined | Null => false
  | Bool b => b
  | Num z => negb (z =? 0)%Z
  | Str s => negb (String.eqb s "")
  | Other _ => true
  end.

(** [`${v}`] *)
Definition show (v : value) : string :=
  match v with
  | Undefined => "undefined"
  | Null => "null"
  | Bool true => "true"
  | Bool false => "false"
  | Num z => pretty z
  | Str s => s
  | Other shown => shown
  end.

(** [a || b] *)
Definition orValue (a b : value) : value := if truthy a then a else b.

(** The properties [startTunnel] reads of the parsed preference; a property
    that is absent reads as [Undefined]. *)
Record ProxyConfig : Type := {
  enabled : value;
  proxyType : value;
  host : value;
  port : value;
  username : value;
  password : value;
  tcpMux : value;
  forceTls : value;
  kcpOptimization : value;
}.

(** [localStorage.getItem("frpc_proxy_config")] and [JSON.parse] of it:
    nothing stored (or the empty string), a text whose reading throws
    ([JSON.parse] rejects it, or it parses to [null] and the first property
    access throws), or an object.  A text that parses to a number, a string
    or a boolean reads as an object without any of the properties. *)
Inductive Saved : Type :=
| NoItem
| Throws
| Object (proxyConfig : ProxyConfig).

(** A number as [parseInt] returns it. *)
Inductive number : Type :=
| NaN
| Int (z : Z).

(** The fields of [Tunnel] that [startTunnel] reads beside those of
    [Api.Tunnel]. *)
Record Tunnel : Type := {
  base : Api.Tunnel;
  node_ip : string;
  server_port : Z;
  node_token : string;
  localip : string;
  nport : Z;
}.

Record TunnelConfig : Type := {
  tunnel_id : Z;
  tunnel_name : string;
  user_token : string;
  server_addr : string;
  cfg_server_port : Z;
  cfg_node_token : string;
  tunnel_type : option string;
  local_ip : string;
  local_port : Z;
  remote_port : option number;
  custom_domains : option string;
  http_proxy : option string;
  tcp_mux : value;
  force_tls : value;
  kcp_optimization : value;
}.

(** The four variables the [try] block assigns. *)
Record Options : Type := {
  httpProxy : option string;
  opt_tcpMux : value;
  opt_forceTls : value;
  opt_kcpOptimization : value;
}.

Definition defaults : Options :=
  {| httpProxy := None; opt_tcpMux := Bool true; opt_forceTls := Bool false;
     opt_kcpOptimization := Bool false |}.

Definition proxyUrl (c : ProxyConfig) : option string :=
  if truthy (enabled c) && truthy (host c) && truthy (port c)
  then
    let auth :=
      if truthy (username c) && truthy (password c)
      then show (username c) +:+ ":" +:+ show (password c) +:+ "@"
      else "" in
    Some (show (proxyType c) +:+ "://" +:+ auth +:+ show (host c) +:+ ":"
          +:+ show (port c))
  else None.

Definition readOptions (saved : Saved) : Options :=
  match saved with
  | NoItem => defaults
  | Throws => defaults
  | Object c =>
      {| httpProxy := proxyUrl c;
         opt_tcpMux :=
           match tcpMux c with Undefined => Bool true | v => v end;
         opt_forceTls := orValue (forceTls c) (Bool false);
         opt_kcpOptimization := orValue (kcpOptimization c) (Bool false) |}
  end.

(** The configuration [startTunnel] hands to [invoke("start_frpc")].
    [parseInt] is the built-in. *)
Definition buildConfig (parseInt : string -> number) (saved : Saved)
    (tunnel : Tunnel) (userToken : string) : TunnelConfig :=
  let o := readOptions saved in
  let type := Api.type (base tunnel) in
  let dorp := Api.dorp (base tunnel) in
  let isType (t : string) :=
    match type with Some ty => String.eqb ty t | None => false end in
  {| tunnel_id := Api.id (base tunnel);
     tunnel_name := Api.name (base tunnel);
     user_token := userToken;
     server_addr := node_ip tunnel;
     cfg_server_port := server_port tunnel;
     cfg_node_token := node_token tunnel;
     tunnel_type := type;
     local_ip := localip tunnel;
     local_port := nport tunnel;
     remote_port :=
       if isType "tcp"
       then (if negb (String.eqb dorp "") then Some (parseInt dorp) else None)
       else None;
     custom_domains :=
       if isType "http" || isType "https" then Some dorp else None;
     http_proxy := httpProxy o;
     tcp_mux := opt_tcpMux o;
     force_tls := opt_forceTls o;
     kcp_optimization := opt_kcpOptimization o |}.

(** [startTunnel]: the configuration built, and the promise of the native
    call, passed on as it is. *)
Definition startTunnel (parseInt : string -> number)
    (start_frpc : TunnelConfig -> promise string) (saved : Saved)
    (tunnel : Tunnel) (userToken : string) : promise string :=
  start_frpc (buildConfig parseInt saved tunnel userToken).

End Start.

(** ** Background and theme helpers *)

Module Theme.

Import Js.

(** [s.split(sep)] for a one-character separator. *)
Fixpoint split (sep : ascii) (s : string) : list string :=
  match s with
  | EmptyString => [EmptyString]
  | String c rest =>
      if Ascii.eqb c sep then EmptyString :: split sep rest
      else
        match split sep rest with
        | [] => [String c EmptyString]
        | head :: tail => String c head :: tail
        end
  end.

(** [filePath.split(".").pop()?.toLowerCase() || ""].  Lower-casing is the
    one of [Js.toLowerCase], on the ASCII letters: no character outside ASCII
    lower-cases to a letter of the extensions and member names compared with
    below, so the comparisons come out as in JavaScript. *)
Definition extension (filePath : string) : string :=
  match last (split "." filePath) with
  | Some ext => toLowerCase ext
  | None => ""
  end.

Definition mimeTypes : list (string * string) :=
  [ ("png", "image/png"); ("jpg", "image/jpeg"); ("jpeg", "image/jpeg");
    ("gif", "image/gif"); ("webp", "image/webp"); ("bmp", "image/bmp");
    ("mp4", "video/mp4"); ("webm", "video/webm"); ("ogv", "video/ogg");
    ("mov", "video/quicktime") ].

Fixpoint lookupOwn (key : string) (table : list (string * string))
  : option string :=
  match table with
  | [] => None
  | (k, v) :: rest => if String.eqb key k then Some v else lookupOwn key rest
  end.

(** What [getMimeType] returns: a string, or, for the two lower-case names
    every object inherits, the inherited member itself. *)
Inductive Mime : Type :=
| mime (text : string)
| inherited (member : string).

(** [mimeTypes[ext || ""] || "image/png"]: the table is a plain object, so a
    lookup also finds [constructor] and [__proto__], which are truthy. *)
Definition getMimeType (filePath : string) : Mime :=
  let ext := extension filePath in
  match lookupOwn ext mimeTypes with
  | Some text => mime text
  | None =>
      if String.eqb ext "constructor" || String.eqb ext "__proto__"
      then inherited ext
      else mime "image/png"
  end.

Definition videoExts : list string := ["mp4"; "webm"; "ogv"; "mov"].

Definition isVideoFile (filePath : string) : bool :=
  existsb (String.eqb (extension filePath)) videoExts.

(** [mimeType.startsWith("video/")] *)
Definition isVideoMimeType (mimeType : string) : bool :=
  String.prefix "video/" mimeType.

Inductive BackgroundType : Type :=
| image
| video.

(** [getBackgroundType]: [None] is [null]. *)
Definition getBackgroundType (dataUrl : option string) : option BackgroundType :=
  match dataUrl with
  | None => None
  | Some url =>
      if String.eqb url "" then None
      else if String.prefix "data:video/" url then Some video
      else Some image
  end.

End Theme.

(** ** TunnelList/hooks/useAutoStartTunnels: what a call decides *)

Module AutoStartMore.

Import Js AutoStart.

(** The test of the [for] loop: flagged for auto-start and not running. *)
Definition wanted (autoStartSet running : gset string) (tunnel : UnifiedTunnel)
  : bool :=
  bool_decide (tunnelKey tunnel ∈ autoStartSet)
  && negb (bool_decide (tunnelKey tunnel ∈ running)).

(** The answers of [getAutoStartTunnels] after which [autoStart] returns
    before its loop: a rejection, the empty list, or a list with a
    provisioned entry while no token is stored. *)
Definition endsEarly (result : settled (list (string * Z)))
    (usertoken : option string) : bool :=
  match result with
  | rejected _ => true
  | resolved autoStartList =>
      (length autoStartList =? 0)%nat
      || (existsb (fun entry => String.eqb (fst entry) "api") autoStartList
          && noToken usertoken)
  end.

(** The timer of call [k] fires [n] times. *)
Definition firings (n k : nat) : list Event := replicate n (TimerFired k).

End AutoStartMore.

(** ** App/hooks/useTunnelNotifications: what is heard, and per-tunnel state *)

Module NotificationsMore.

Import Js Notifications.

(** The file that accompanies a toast when sounds are on. *)
Definition jingle (e : Effect) : list Sound.Trace :=
  match e with
  | toast_success _ _ => [Sound.started "/run_tunnel.mp3"]
  | toast_error _ _ => [Sound.started "/stop_tunnel.mp3"]
  | _ => []
  end.

(** What the calls of [playTunnelSound] among the effects leave behind. *)
Definition heard (audio : Sound.Audio) (w : World) : list Sound.Trace :=
  flat_map (Sound.ofEffect audio) (effects w).

(** With an audio element that plays, what is heard follows the toasts when
    the preference allows sounds, and is nothing otherwise. *)
Definition soundsFollowToasts (w : World) : Prop :=
  heard Sound.Plays w
  = if soundEnabled w then flat_map jingle (effects w) else [].

(** Whether [tunnelId] is in the three sets of the hook. *)
Definition flagsOf (tunnelId : Z) (r : Refs) : bool * bool * bool :=
  (bool_decide (tunnelId ∈ notifiedSuccess r),
   bool_decide (tunnelId ∈ notifiedError r),
   bool_decide (tunnelId ∈ successLogAdded r)).

Definition is_toast_error (e : Effect) : bool :=
  match e with toast_error _ _ => true | _ => false end.

(** The entries of a fetched list that carry [tunnelId]. *)
Definition withId (tunnelId : Z) (fetched : list Api.Tunnel) : list Api.Tunnel :=
  List.filter (fun tunnel => (Api.id tunnel =? tunnelId)%Z) fetched.

End NotificationsMore.

(** ** Concrete inputs used by the further examples *)

Module MoreSamples.

Import Js.

Definition minecraft : Start.Tunnel :=
  {| Start.base :=
       {| Api.id := 3; Api.name := "mc"; Api.type := Some "tcp";
          Api.dorp := "25565" |};
     Start.node_ip := "203.0.113.9"; Start.server_port := 7000;
     Start.node_token := "node"; Start.localip := "127.0.0.1";
     Start.nport := 25565 |}.

Definition website : Start.Tunnel :=
  {| Start.base := Sample.http_7;
     Start.node_ip := "203.0.113.9"; Start.server_port := 7000;
     Start.node_token := "node"; Start.localip := "127.0.0.1";
     Start.nport := 8080 |}.

Definition socksPreference : Start.ProxyConfig :=
  {| Start.enabled := Start.Bool true; Start.proxyType := Start.Str "socks5";
     Start.host := Start.Str "127.0.0.1"; Start.port := Start.Str "1080";
     Start.username := Start.Str "u"; Start.password := Start.Str "p";
     Start.tcpMux := Start.Undefined; Start.forceTls := Start.Bool true;
     Start.kcpOptimization := Start.Undefined |}.

(** A [parseInt] that reads nothing, for statements that hold whatever the
    built-in returns. *)
Definition parseNothing : string -> Start.number := fun _ => Start.NaN.

Definition custom_9 : UnifiedTunnel := custom {| Custom.id := 9 |}.

(** The notification hook after tunnel 7, a web tunnel, came up and got its
    friendly line. *)
Definition announced : Notifications.World :=
  Notifications.run Sample.fresh
    [ Notifications.FrpcLog 1 (Sample.line 7 Notifications.marker_success);
      Notifications.Settle 0 (resolved [Sample.http_7]) 2 "2026/01/01 00:00:01" ].

Definition friendly_7 : LogMessage :=
  {| tunnel_id := 7;
     message := Notifications.linkMessage "web" "a.example.com";
     timestamp := "2026/01/01 00:00:01" |}.

Definition api_3 : UnifiedTunnel := api (Start.base minecraft).

End MoreSamples.

(** * Properties *)

Open Scope list_scope.

Arguments LogStore.maxLogs : simpl never.
Arguments Js.includes : simpl never.

(** Projections of updated records. *)
Ltac world_simpl :=
  cbn [Notifications.logs Notifications.activeTab
       Notifications.tunnelSoundEnabled Notifications.refs
       Notifications.tasks Notifications.effects
       Notifications.with_logs Notifications.with_activeTab
       Notifications.with_refs Notifications.with_tasks Notifications.raise
       Notifications.processedLogsCount Notifications.notifiedSuccess
       Notifications.notifiedError Notifications.successLogAdded
       Notifications.tunnelCache Notifications.set_cursor
       Notifications.set_notifiedSuccess Notifications.set_notifiedError
       Notifications.set_successLogAdded Notifications.set_tunnelCache
       Notifications.resetEpoch] in *.

(** ** The log store is bounded and evicts from the front *)

Section LogStoreFacts.

Import LogStore.

Lemma trimLogs_length logs :
  length (trimLogs logs) = Nat.min (length logs) maxLogs.
Proof.
  unfold trimLogs, slice_last.
  destruct (Nat.ltb_spec maxLogs (length logs)) as [Hlt | Hge].
  - rewrite length_drop. lia.
  - lia.
Qed.

Lemma addLog_length logs log :
  length (addLog logs log) = Nat.min (S (length logs)) maxLogs.
Proof.
  unfold addLog. rewrite trimLogs_length, length_app. cbn [length]. lia.
Qed.

Lemma apply_bounded logs o :
  length logs <= maxLogs -> length (apply logs o) <= maxLogs.
Proof.
  intros Hb. destruct o as [log |]; simpl.
  - rewrite addLog_length. lia.
  - unfold clearLogs. simpl. lia.
Qed.

Lemma reachable_bounded ops :
  length (fold_left apply ops []) <= maxLogs.
Proof.
  assert (Hgen : forall start, length start <= maxLogs ->
                   length (fold_left apply ops start) <= maxLogs).
  { induction ops as [| o ops IH]; intros start Hs; simpl; [exact Hs |].
    apply IH, apply_bounded, Hs. }
  apply Hgen. simpl. lia.
Qed.

(** Without eviction [addLog] is a plain push. *)
Lemma addLog_room logs log :
  length logs < maxLogs -> addLog logs log = logs ++ [log].
Proof.
  intros Hlt. unfold addLog, trimLogs.
  destruct (Nat.ltb_spec maxLogs (length (logs ++ [log]))) as [Hover | _];
    [| reflexivity].
  rewrite length_app in Hover. simpl in Hover. lia.
Qed.

(** Appending to a window over [all] yields the window over the longer
    sequence. *)
Lemma addLog_window all log :
  addLog (drop (length all - maxLogs) all) log
  = drop (length (all ++ [log]) - maxLogs) (all ++ [log]).
Proof.
  unfold addLog, trimLogs, slice_last.
  rewrite !length_app, length_drop. simpl.
  destruct (Nat.ltb_spec maxLogs (length all - (length all - maxLogs) + 1))
    as [Hover | Hfit].
  - rewrite <- drop_app_le by lia.
    rewrite drop_drop. f_equal. lia.
  - replace (length all + 1 - maxLogs) with 0 by lia.
    replace (length all - maxLogs) with 0 by lia. reflexivity.
Qed.

Lemma appends_window appended :
  forall start,
    length start <= maxLogs ->
    fold_left addLog appended start
    = drop (length (start ++ appended) - maxLogs) (start ++ appended).
Proof.
  induction appended as [| log appended IH] using rev_ind; intros start Hs.
  - simpl. rewrite app_nil_r.
    replace (length start - maxLogs) with 0 by lia. reflexivity.
  - rewrite fold_left_app. simpl. rewrite (IH start Hs).
    rewrite addLog_window. rewrite <- app_assoc. reflexivity.
Qed.

(** C6.  Whatever has been done to the store ([before], any mix of appends
    and clears), and whatever is appended next, the buffer never holds more
    than 5000 lines, and after the appends it holds the newest 5000 of what it
    held plus what was appended, in their original order: eviction takes the
    oldest lines first. *)
Theorem logbuffer_bounded_fifo (before : list op) (appended : list LogMessage) :
  let held := fold_left apply before [] in
  let buffer := fold_left addLog appended held in
  maxLogs = 5000
  /\ length buffer <= 5000
  /\ buffer = drop (length (held ++ appended) - 5000) (held ++ appended).
Proof.
  intros held buffer.
  assert (Hheld : length held <= maxLogs) by apply reachable_bounded.
  assert (Hwin := appends_window appended held Hheld).
  fold buffer in Hwin.
  split; [reflexivity |]. change 5000 with maxLogs. split; [| exact Hwin].
  rewrite Hwin, length_drop. lia.
Qed.

End LogStoreFacts.

(** ** The status queries of the IPC boundary swallow failures *)

Section FrpcManagerFacts.

Import Js FrpcManager.

Lemma catch_collapses {A} (p : promise A) (d : A) :
  collapses d p (catch p (fun _ => d)) /\ rejectsb (catch p (fun _ => d)) = false.
Proof. destruct p; simpl; split; reflexivity. Qed.

(** C8.  Whatever the native layer answers, [isTunnelRunning],
    [getRunningTunnels] and [resolveDomainToIp] never reject: a rejection of
    the underlying [invoke] becomes [false], the empty list and [null]
    respectively, and every other answer is passed on unchanged. *)
Theorem status_queries_swallow_failure
    (native : Native) (tunnelId : Z) (domain : string) :
  (collapses false (is_frpc_running native tunnelId)
     (isTunnelRunning native tunnelId)
   /\ rejectsb (isTunnelRunning native tunnelId) = false)
  /\ (collapses [] (get_running_tunnels native) (getRunningTunnels native)
      /\ rejectsb (getRunningTunnels native) = false)
  /\ (collapses None (resolve_domain_to_ip native domain)
        (resolveDomainToIp native domain)
      /\ rejectsb (resolveDomainToIp native domain) = false).
Proof.
  unfold isTunnelRunning, getRunningTunnels, resolveDomainToIp.
  repeat split; apply catch_collapses.
Qed.

(** A native layer that is unreachable: every [invoke] rejects at once. *)
Example unreachable_native_is_silent :
  let native :=
    {| is_frpc_running := fun _ => Rejects 0 (Some "ipc");
       get_running_tunnels := Rejects 0 None;
       resolve_domain_to_ip := fun _ => Rejects 0 None;
       stop_frpc := fun _ => Rejects 0 None |} in
  isTunnelRunning native 7 = Fulfils 0 false
  /\ getRunningTunnels native = Fulfils 0 []
  /\ resolveDomainToIp native "a.example.com" = Fulfils 0 None
  /\ stopTunnel native 7 = Rejects 0 None.
Proof. repeat split. Qed.

End FrpcManagerFacts.

(** ** Loading the catalog and polling the running state *)

Section TunnelListFacts.

Import Js TunnelList Sample.

Lemma withTimeout_fulfils p timeoutMs :
  exists t v, withTimeout p timeoutMs = Fulfils t v /\ t <= timeoutMs.
Proof.
  destruct p as [t v | t e |]; simpl.
  - destruct (Nat.leb_spec t timeoutMs); eexists _, _; split; eauto; lia.
  - destruct (Nat.leb_spec t timeoutMs); eexists _, _; split; eauto; lia.
  - eexists _, _; split; eauto.
Qed.

Lemma guardedQuery_fulfils env tunnel :
  exists t k, guardedQuery env tunnel = Fulfils t k /\ t <= 3000.
Proof.
  unfold guardedQuery.
  destruct (withTimeout_fulfils (isRunning env tunnel) 3000) as (t & v & -> & Ht).
  simpl. eexists _, _; split; eauto. lia.
Qed.

(** The fan-out of [loadTunnels] always joins, within the timeout. *)
Lemma guarded_fanout_joins env (todo : list UnifiedTunnel) :
  exists t added,
    Promise_all (map (guardedQuery env) todo) = Fulfils t added
    /\ t <= 3000 /\ length added = length todo.
Proof.
  unfold Promise_all.
  assert (H : first_rejection (map (guardedQuery env) todo) = None
              /\ exists t added,
                   all_fulfilled (map (guardedQuery env) todo) = Some (t, added)
                   /\ t <= 3000 /\ length added = length todo).
  { induction todo as [| tunnel todo [IHr (t & added & IHf & Ht & Hl)]].
    - split; [reflexivity |]. exists 0, []. simpl. repeat split. lia.
    - cbn [map first_rejection all_fulfilled].
      destruct (guardedQuery_fulfils env tunnel) as (t0 & k & -> & Ht0).
      rewrite IHr, IHf. split; [reflexivity |].
      exists (Nat.max t0 t), (k :: added). cbn [length].
      repeat split; lia. }
  destruct H as (-> & t & added & -> & Ht & Hl). eauto.
Qed.

(** C7.  Whatever way the two catalog fetches settle (each fulfils or
    rejects, at any time), [loadTunnels] completes, leaves no error message,
    and the catalog is the provisioned tunnels in the order fetched followed
    by the custom tunnels in the order fetched, a source that rejected
    counting as the empty list; the other source is unaffected. *)
Theorem catalog_load_isolates_sources
    (s : State) (ta tc : nat)
    (ra : settled (list Api.Tunnel)) (rc : settled (list Custom.CustomTunnel))
    (nat_layer : FrpcManager.Native) (customRunning : Z -> promise bool) :
  let env :=
    {| fetchTunnels := settle_at ta ra; getCustomTunnels := settle_at tc rc;
       native := nat_layer; isCustomTunnelRunning := customRunning |} in
  exists t s',
    loadTunnels env s = Completed t s'
    /\ tunnels s' = map api (or_empty ra) ++ map custom (or_empty rc)
    /\ length (tunnels s') = length (or_empty ra) + length (or_empty rc)
    /\ error s' = ""
    /\ loading s' = false
    /\ cache_tunnels s' = or_empty ra.
Proof.
  intros env. unfold loadTunnels.
  assert (Hfetch :
    Promise_all2 (catch (fetchTunnels env) (fun _ => []))
                 (catch (getCustomTunnels env) (fun _ => []))
    = Fulfils (Nat.max ta tc) (or_empty ra, or_empty rc)).
  { destruct ra, rc; reflexivity. }
  rewrite Hfetch.
  destruct (guarded_fanout_joins env
              (map api (or_empty ra) ++ map custom (or_empty rc)))
    as (t & added & -> & _ & _).
  eexists _, _. split; [reflexivity |]. cbn.
  rewrite length_app, !length_map. repeat split.
Qed.

(** The scenario of the specification: the provisioned source throws, the
    custom source returns three tunnels. *)
Example one_source_down :
  let env :=
    {| fetchTunnels := Rejects 120 (Some "network");
       getCustomTunnels :=
         Fulfils 40 [ {| Custom.id := 1 |}; {| Custom.id := 2 |};
                      {| Custom.id := 3 |} ];
       native :=
         {| FrpcManager.is_frpc_running := fun _ => Never;
            FrpcManager.get_running_tunnels := Never;
            FrpcManager.resolve_domain_to_ip := fun _ => Never;
            FrpcManager.stop_frpc := fun _ => Never |};
       isCustomTunnelRunning := fun _ => Fulfils 5 false |} in
  let s0 :=
    {| tunnels := []; loading := true; error := "";
       runningTunnels := ∅; cache_tunnels := [] |} in
  exists t s',
    loadTunnels env s0 = Completed t s'
    /\ length (tunnels s') = 3 /\ error s' = "".
Proof. eexists _, _. repeat split. Qed.

Lemma pollEach_blocked env before tunnel after :
  isRunning env tunnel = Never ->
  forall running,
    fulfilsb (pollEach env (before ++ tunnel :: after) running) = false.
Proof.
  intros Hnever. induction before as [| head before IH]; intros running.
  - cbn [app pollEach]. rewrite Hnever. reflexivity.
  - cbn [app pollEach]. destruct (isRunning env head) as [t v | t e |];
      cbn [await]; try reflexivity.
    specialize (IH (if v then {[tunnelKey head]} ∪ running else running)).
    destruct (pollEach env (before ++ tunnel :: after) _); [discriminate | |];
      reflexivity.
Qed.

(** C1.  The periodic pass ([checkRunningStatus] on the interval) awaits the
    queries one after the other and without a timeout: when the query of one
    catalog tunnel never settles, the pass never completes and the running
    set is never replaced.  Only the pass inside [loadTunnels] fans out with
    the 3000 ms guard: on the same catalog and the same answers it joins
    within 3000 ms. *)
Theorem periodic_pass_has_no_timeout
    (env : Env) (s : State) (before after : list UnifiedTunnel)
    (tunnel : UnifiedTunnel) :
  tunnels s = before ++ tunnel :: after ->
  isRunning env tunnel = Never ->
  (forall t s', periodicPass env s <> Some (Completed t s'))
  /\ (exists t added,
        Promise_all (map (guardedQuery env) (tunnels s)) = Fulfils t added
        /\ t <= 3000).
Proof.
  intros Hcat Hnever. split.
  - intros t s' Hpass. unfold periodicPass, checkRunningStatus in Hpass.
    rewrite Hcat in Hpass.
    pose proof (pollEach_blocked env before tunnel after Hnever ∅) as Hblocked.
    destruct (before ++ tunnel :: after) eqn:Hlist; [discriminate |].
    destruct (pollEach env (u :: l) ∅); [discriminate | |];
      inversion Hpass.
  - destruct (guarded_fanout_joins env (tunnels s)) as (t & added & H & Ht & _).
    eauto.
Qed.

Lemma periodic_pass_has_no_timeout_witness :
  periodicPass silent_env one_tunnel_state = Some (Suspended one_tunnel_state)
  /\ (forall t s', periodicPass silent_env one_tunnel_state
                   <> Some (Completed t s'))
  /\ (exists t added,
        Promise_all (map (guardedQuery silent_env) (tunnels one_tunnel_state))
        = Fulfils t added /\ t <= 3000).
Proof.
  split; [reflexivity |].
  apply (periodic_pass_has_no_timeout silent_env one_tunnel_state [] [] tunnel_one);
    reflexivity.
Defined.

End TunnelListFacts.

(** ** Keys of the running set and of the notification sets *)

Section KeyFacts.

Import Js Notifications Sample.

Lemma tunnelKey_api_custom (a : Api.Tunnel) (c : Custom.CustomTunnel) :
  tunnelKey (api a) <> tunnelKey (custom c).
Proof. cbn. discriminate. Qed.

(** Two tunnels have the same key only if they are of the same kind and
    carry the same id. *)
Lemma tunnelKey_inj (a b : UnifiedTunnel) :
  tunnelKey a = tunnelKey b -> sameKind a b = true /\ sessionId a = sessionId b.
Proof.
  destruct a as [a | a], b as [b | b]; cbn [tunnelKey sameKind sessionId];
    intros Heq.
  - split; [reflexivity |].
    apply (inj (String.app "api_")) in Heq. apply (inj pretty) in Heq. exact Heq.
  - cbn in Heq. discriminate.
  - cbn in Heq. discriminate.
  - split; [reflexivity |].
    apply (inj (String.app "custom_")) in Heq. apply (inj pretty) in Heq.
    exact Heq.
Qed.

(** A second success line with the same [tunnel_id] raises nothing. *)
Lemma handleToast_absorbs (w : World) (first second : LogMessage) :
  tunnel_id first = tunnel_id second ->
  includes (message first) marker_success = true ->
  includes (message second) marker_success = true ->
  handleToast (handleToast w first) second = handleToast w first.
Proof.
  intros Hid H1 H2. unfold handleToast. rewrite H1, H2, <- Hid.
  destruct (bool_decide (tunnel_id first ∈ notifiedSuccess (refs w))) eqn:Hin.
  - rewrite Hin. reflexivity.
  - cbn [refs raise with_refs notifiedSuccess set_notifiedSuccess].
    rewrite bool_decide_eq_true_2 by set_solver. reflexivity.
Qed.

(** C3, as stated, fails on the notification sets: a provisioned and a custom
    session that both carry id 7 have different keys in the running set, but
    once the provisioned one has been notified the custom one counts as
    notified too, and its success line raises no toast. *)
Lemma dedup_sets_collide_on_shared_id :
  sameKind provisioned_7 custom_7 = false
  /\ sessionId provisioned_7 = sessionId custom_7
  /\ tunnelKey provisioned_7 <> tunnelKey custom_7
  /\ bool_decide
       (sessionId custom_7
        ∈ notifiedSuccess
            (refs (step fresh
                     (FrpcLog 1 (logLineOf provisioned_7 marker_success "t1")))))
     = true
  /\ count is_toast_success
       (run fresh
          [ FrpcLog 1 (logLineOf provisioned_7 marker_success "t1");
            FrpcLog 2 (logLineOf custom_7 marker_success "t2") ])
     = 1.
Proof.
  split; [reflexivity |]. split; [reflexivity |].
  split; [apply tunnelKey_api_custom |].
  split; vm_compute; reflexivity.
Qed.

End KeyFacts.

(** ** The auto-start gate *)

Section AutoStartFacts.

Import Js AutoStart Sample.


(** A render never sets the flag: only the end of a call of [autoStart]
    does. *)
Lemma render_keeps_flag loading tunnels running onToggle h :
  hasAutoStarted (render loading tunnels running onToggle h) = hasAutoStarted h.
Proof.
  unfold render, autoStartEffect.
  destruct (deps h) as [[l n] |]; [destruct (_ && _) |]; try reflexivity;
    (cbn [hasAutoStarted set_props]; destruct (hasAutoStarted h) eqn:Hflag;
     [exact Hflag |]; destruct (loading || _); exact Hflag).
Qed.

(** C5.  The flag is set only when a call of [autoStart] ends, so the effect
    that runs again while the first call is waiting starts a second call, and
    both calls toggle the same tunnel on: here the hook mounts with a cached
    catalog of one tunnel flagged for auto-start, [loading] goes to [true] and
    back within the first second, and [toggle(tunnel, true)] is issued by call
    0 and again by call 1. *)
Theorem autostart_runs_twice_when_reentered :
  let h := run unmounted double_start in
  toggled h = [(0, tunnel_one); (1, tunnel_one)]
  /\ togglingRuns h = {[0; 1]}
  /\ hasAutoStarted (run unmounted (take 7 double_start)) = false
  /\ hasAutoStarted h = true.
Proof.
  repeat split; vm_compute; reflexivity.
Qed.

End AutoStartFacts.

(** ** The notification hook: delivery and the cursor *)

Section CursorFacts.

Import Js Notifications Sample.

(** What the loop body leaves alone. *)
Lemma handleSynthesis_frame now snapshot w log :
  let w' := handleSynthesis now snapshot w log in
  logs w' = logs w /\ activeTab w' = activeTab w
  /\ tunnelSoundEnabled w' = tunnelSoundEnabled w
  /\ effects w' = effects w
  /\ processedLogsCount (refs w') = processedLogsCount (refs w)
  /\ tunnelCache (refs w') = tunnelCache (refs w).
Proof.
  unfold handleSynthesis.
  destruct (includes (message log) marker_launched);
    destruct (_ && _); world_simpl; repeat split.
Qed.

Lemma handleToast_frame w log :
  let w' := handleToast w log in
  logs w' = logs w /\ activeTab w' = activeTab w
  /\ tunnelSoundEnabled w' = tunnelSoundEnabled w
  /\ tasks w' = tasks w
  /\ processedLogsCount (refs w') = processedLogsCount (refs w)
  /\ successLogAdded (refs w') = successLogAdded (refs w)
  /\ tunnelCache (refs w') = tunnelCache (refs w).
Proof.
  unfold handleToast.
  destruct (includes (message log) marker_success);
    [| destruct (includes (message log) marker_failed)];
    try destruct (bool_decide _); world_simpl; repeat split.
Qed.

Lemma handleLog_frame now snapshot w log :
  let w' := handleLog now snapshot w log in
  logs w' = logs w /\ activeTab w' = activeTab w
  /\ tunnelSoundEnabled w' = tunnelSoundEnabled w
  /\ processedLogsCount (refs w') = processedLogsCount (refs w)
  /\ tunnelCache (refs w') = tunnelCache (refs w).
Proof.
  unfold handleLog.
  destruct (handleSynthesis_frame now snapshot w log) as (Hl & Ha & Hs & _ & Hc & Hk).
  destruct (String.eqb _ "tunnels"); [repeat split; assumption |].
  destruct (handleToast_frame (handleSynthesis now snapshot w log) log)
    as (Hl' & Ha' & Hs' & _ & Hc' & _ & Hk').
  cbn zeta. repeat split; congruence.
Qed.

Lemma handleLogs_frame now snapshot newLogs :
  forall w,
    let w' := fold_left (handleLog now snapshot) newLogs w in
    logs w' = logs w /\ activeTab w' = activeTab w
    /\ tunnelSoundEnabled w' = tunnelSoundEnabled w
    /\ processedLogsCount (refs w') = processedLogsCount (refs w)
    /\ tunnelCache (refs w') = tunnelCache (refs w).
Proof.
  induction newLogs as [| log newLogs IH]; intros w; cbn [fold_left].
  - repeat split.
  - destruct (IH (handleLog now snapshot w log)) as (H1 & H2 & H3 & H4 & H5).
    destruct (handleLog_frame now snapshot w log) as (G1 & G2 & G3 & G4 & G5).
    cbn zeta in *. repeat split; congruence.
Qed.

(** A snapshot no longer than the cursor is ignored. *)
Lemma listener_skips now snapshot w :
  length snapshot <= processedLogsCount (refs w) ->
  listener now snapshot w = w.
Proof.
  intros Hle. unfold listener.
  destruct (length snapshot =? 0)%nat; [reflexivity |].
  rewrite (proj2 (Nat.leb_le _ _) Hle). reflexivity.
Qed.

(** A snapshot one line longer than the cursor: that line alone is handled,
    and the cursor moves to the end. *)
Lemma listener_new_line now snapshot log w :
  processedLogsCount (refs w) = length snapshot ->
  listener now (snapshot ++ [log]) w
  = handleLog now (snapshot ++ [log])
      (with_refs (set_cursor (S (length snapshot)) (refs w)) w) log.
Proof.
  intros Hsync. unfold listener. rewrite length_app. cbn [length].
  replace (length snapshot + 1) with (S (length snapshot)) by lia.
  cbn [Nat.eqb]. rewrite Hsync.
  rewrite (proj2 (Nat.leb_gt _ _)) by lia.
  rewrite drop_app_length. reflexivity.
Qed.

Lemma listener_facts now snapshot w :
  let w' := listener now snapshot w in
  logs w' = logs w /\ activeTab w' = activeTab w
  /\ tunnelSoundEnabled w' = tunnelSoundEnabled w
  /\ processedLogsCount (refs w) <= processedLogsCount (refs w')
  /\ length snapshot <= processedLogsCount (refs w').
Proof.
  unfold listener.
  destruct (Nat.eqb_spec (length snapshot) 0) as [Hz | Hnz].
  { cbn zeta. repeat split; lia. }
  destruct (Nat.leb_spec (length snapshot) (processedLogsCount (refs w)))
    as [Hle | Hgt].
  { cbn zeta. repeat split; lia. }
  destruct (handleLogs_frame now snapshot
              (drop (processedLogsCount (refs w)) snapshot)
              (with_refs (set_cursor (length snapshot) (refs w)) w))
    as (H1 & H2 & H3 & H4 & _).
  cbn zeta in *. world_simpl. rewrite H4. repeat split; try assumption; lia.
Qed.

Lemma notifyListeners_caughtUp now w : caughtUp (notifyListeners now w).
Proof.
  unfold caughtUp, notifyListeners.
  destruct (listener_facts now (logs w) w) as (Hl & _ & _ & _ & Hc).
  cbn zeta in *. rewrite Hl. exact Hc.
Qed.

Lemma step_caughtUp w e : caughtUp w -> caughtUp (step w e).
Proof.
  intros Hw. destruct e as [now log | k fetched now stamp | now | now tab];
    cbn [step]; try apply notifyListeners_caughtUp.
  unfold settleTask. destruct (tasks w !! k) as [task |]; [| exact Hw].
  destruct (getTunnelById_finish task fetched (tunnelCache (refs w))) as [cache found].
  destruct (friendlyLine (task_tunnelId task) found stamp) as [line |].
  - apply notifyListeners_caughtUp.
  - exact Hw.
Qed.

Lemma mount_caughtUp now tab sound stored :
  caughtUp (mount now tab sound stored).
Proof. apply notifyListeners_caughtUp. Qed.

Lemma run_caughtUp events : forall w, caughtUp w -> caughtUp (run w events).
Proof.
  induction events as [| e events IH]; intros w Hw; [exact Hw |].
  apply IH, step_caughtUp, Hw.
Qed.

(** The cursor never moves back. *)
Lemma step_cursor_monotone w e :
  processedLogsCount (refs w) <= processedLogsCount (refs (step w e)).
Proof.
  assert (Hnotify : forall now w0,
            processedLogsCount (refs w0)
            <= processedLogsCount (refs (notifyListeners now w0))).
  { intros now w0. apply (listener_facts now (logs w0) w0). }
  destruct e as [now log | k fetched now stamp | now | now tab]; cbn [step].
  - exact (Hnotify now (with_logs (LogStore.addLog (logs w) log) w)).
  - unfold settleTask. destruct (tasks w !! k) as [task |]; [| lia].
    destruct (getTunnelById_finish task fetched (tunnelCache (refs w)))
      as [cache found].
    destruct (friendlyLine (task_tunnelId task) found stamp) as [line |].
    + etransitivity; [| apply Hnotify]. world_simpl. lia.
    + world_simpl. lia.
  - exact (Hnotify now (with_logs (LogStore.clearLogs (logs w)) w)).
  - exact (Hnotify now (with_activeTab tab w)).
Qed.

End CursorFacts.

(** ** The cursor is never rolled back *)

Section CursorStuck.

Import Js Notifications Sample.

Lemma count_raise p es w :
  count p (raise es w) = count p w + length (List.filter p es).
Proof. unfold count. world_simpl. rewrite List.filter_app, length_app. reflexivity. Qed.

(** Lines that arrive while the store is shorter than the cursor are
    stored and nothing else happens. *)
Lemma arrivals_below_cursor lines :
  forall w,
    length (logs w) + length lines <= processedLogsCount (refs w) ->
    let w' := run w (arrivals lines) in
    refs w' = refs w /\ tasks w' = tasks w /\ effects w' = effects w.
Proof.
  induction lines as [| [now log] lines IH]; intros w Hroom; cbn [arrivals map run fold_left].
  - repeat split.
  - cbn [length] in Hroom. cbn [step fst snd]. unfold notifyListeners.
    rewrite listener_skips.
    + destruct (IH (with_logs (LogStore.addLog (logs w) log) w)) as (H1 & H2 & H3).
      { world_simpl. rewrite addLog_length. lia. }
      exact (conj H1 (conj H2 H3)).
    + world_simpl. rewrite addLog_length. lia.
Qed.

(** Once the cursor has reached the capacity of the store, no delivery is
    ever handled again. *)
Lemma step_saturated w e :
  LogStore.maxLogs <= processedLogsCount (refs w) ->
  length (logs w) <= LogStore.maxLogs ->
  let w' := step w e in
  length (logs w') <= LogStore.maxLogs
  /\ processedLogsCount (refs w') = processedLogsCount (refs w)
  /\ notifiedSuccess (refs w') = notifiedSuccess (refs w)
  /\ notifiedError (refs w') = notifiedError (refs w)
  /\ successLogAdded (refs w') = successLogAdded (refs w)
  /\ count is_toast w' = count is_toast w
  /\ tasks w' `sublist_of` tasks w
  /\ count is_addLog w' + length (tasks w')
     <= count is_addLog w + length (tasks w)
  /\ (tasks w = [] -> tasks w' = [] /\ effects w' = effects w).
Proof.
  intros Hcur Hlen.
  destruct e as [now log | k fetched now stamp | now | now tab]; cbn [step].
  - unfold notifyListeners. rewrite listener_skips.
    + world_simpl. rewrite addLog_length. repeat split; auto; lia.
    + world_simpl. rewrite addLog_length. lia.
  - unfold settleTask. destruct (tasks w !! k) as [task |] eqn:Hk.
    2:{ cbn zeta. repeat split; auto; lia. }
    assert (Hdel : length (delete k (tasks w)) = length (tasks w) - 1).
    { apply length_delete. rewrite Hk. eauto. }
    assert (Hpos : 0 < length (tasks w)).
    { apply lookup_lt_Some in Hk. lia. }
    pose proof (sublist_delete (tasks w) k) as Hsub.
    destruct (getTunnelById_finish task fetched (tunnelCache (refs w)))
      as [cache found].
    destruct (friendlyLine (task_tunnelId task) found stamp) as [line |].
    + unfold notifyListeners. rewrite listener_skips.
      * world_simpl. rewrite addLog_length. unfold count. world_simpl.
        rewrite !List.filter_app, !length_app. cbn [List.filter is_toast is_addLog length].
        repeat split; try assumption; try lia;
          match goal with
          | Hnil : tasks w = [] |- _ => rewrite Hnil in Hk; discriminate
          end.
      * world_simpl. rewrite addLog_length. lia.
    + cbn zeta. world_simpl. unfold count. world_simpl.
      repeat split; try assumption; try lia;
        match goal with
        | Hnil : tasks w = [] |- _ => rewrite Hnil in Hk; discriminate
        end.
  - unfold notifyListeners. rewrite listener_skips.
    + world_simpl. cbn [LogStore.clearLogs length]. repeat split; auto; lia.
    + world_simpl. cbn [LogStore.clearLogs length]. lia.
  - unfold notifyListeners. rewrite listener_skips.
    + world_simpl. repeat split; auto; lia.
    + world_simpl. lia.
Qed.

Lemma run_saturated events :
  forall w,
    LogStore.maxLogs <= processedLogsCount (refs w) ->
    length (logs w) <= LogStore.maxLogs ->
    let w' := run w events in
    length (logs w') <= LogStore.maxLogs
    /\ processedLogsCount (refs w') = processedLogsCount (refs w)
    /\ notifiedSuccess (refs w') = notifiedSuccess (refs w)
    /\ notifiedError (refs w') = notifiedError (refs w)
    /\ successLogAdded (refs w') = successLogAdded (refs w)
    /\ count is_toast w' = count is_toast w
    /\ tasks w' `sublist_of` tasks w
    /\ count is_addLog w' + length (tasks w')
       <= count is_addLog w + length (tasks w)
    /\ (tasks w = [] -> effects w' = effects w).
Proof.
  induction events as [| e events IH]; intros w Hcur Hlen; cbn [run fold_left].
  - repeat split; auto.
  - destruct (step_saturated w e Hcur Hlen)
      as (S0 & S1 & S2 & S3 & S4 & S5 & S6 & S7 & S8).
    cbn zeta in *.
    destruct (IH (step w e)) as (R0 & R1 & R2 & R3 & R4 & R5 & R6 & R7 & R8);
      [lia | exact S0 |].
    cbn zeta in *. fold (run (step w e) events) in *.
    repeat split; try congruence; try lia.
    + etransitivity; eassumption.
    + intros Hnil. destruct (S8 Hnil) as [Hnil' Heff]. rewrite (R8 Hnil'). exact Heff.
Qed.

(** At the capacity a line that arrives is stored and skipped. *)
Lemma arrival_skipped w now log :
  LogStore.maxLogs <= processedLogsCount (refs w) ->
  length (logs w) <= LogStore.maxLogs ->
  step w (FrpcLog now log) = with_logs (LogStore.addLog (logs w) log) w.
Proof.
  intros Hcur Hlen. cbn [step]. unfold notifyListeners.
  apply listener_skips. world_simpl. rewrite addLog_length. lia.
Qed.

(** The cursor after a delivery: the larger of the cursor before and the
    length of the snapshot. *)
Lemma listener_cursor now snapshot w :
  processedLogsCount (refs (listener now snapshot w))
  = Nat.max (processedLogsCount (refs w)) (length snapshot).
Proof.
  unfold listener.
  destruct (Nat.eqb_spec (length snapshot) 0) as [Hz | Hnz]; [lia |].
  destruct (Nat.leb_spec (length snapshot) (processedLogsCount (refs w)))
    as [Hle | Hgt]; [lia |].
  destruct (handleLogs_frame now snapshot
              (drop (processedLogsCount (refs w)) snapshot)
              (with_refs (set_cursor (length snapshot) (refs w)) w))
    as (_ & _ & _ & H4 & _).
  cbn zeta in H4. rewrite H4. world_simpl. lia.
Qed.

Lemma listener_newLogs now snapshot w :
  listener now snapshot w
  = match newLogs snapshot (processedLogsCount (refs w)) with
    | [] => w
    | _ :: _ =>
        fold_left (handleLog now snapshot)
          (newLogs snapshot (processedLogsCount (refs w)))
          (with_refs (set_cursor (length snapshot) (refs w)) w)
    end.
Proof.
  unfold listener, newLogs.
  destruct (length snapshot =? 0)%nat; [reflexivity |].
  destruct (Nat.leb_spec (length snapshot) (processedLogsCount (refs w)))
    as [Hle | Hgt]; [reflexivity |].
  destruct (drop (processedLogsCount (refs w)) snapshot) as [| log rest] eqn:Hdrop;
    [| reflexivity].
  apply (f_equal length) in Hdrop. rewrite length_drop in Hdrop.
  cbn [length] in Hdrop. lia.
Qed.

(** On a hook whose cursor is at or beyond the end of the store, a delivery
    after an append runs the loop over the appended line alone, or not at
    all. *)
Lemma newLogs_after_addLog stored line startIndex :
  length stored <= startIndex ->
  newLogs (LogStore.addLog stored line) startIndex = []
  \/ newLogs (LogStore.addLog stored line) startIndex = [line].
Proof.
  intros Hcaught. unfold newLogs.
  destruct (length (LogStore.addLog stored line) =? 0)%nat; [left; reflexivity |].
  destruct (Nat.leb_spec (length (LogStore.addLog stored line)) startIndex)
    as [Hle | Hgt]; [left; reflexivity |].
  right. rewrite addLog_length in Hgt.
  assert (Hroom : length stored < LogStore.maxLogs) by lia.
  assert (Hsync : startIndex = length stored) by lia.
  rewrite (addLog_room stored line Hroom), Hsync. apply drop_app_length.
Qed.

Lemma newLogs_skips snapshot startIndex :
  length snapshot <= startIndex -> newLogs snapshot startIndex = [].
Proof.
  intros Hle. unfold newLogs.
  destruct (length snapshot =? 0)%nat; [reflexivity |].
  rewrite (proj2 (Nat.leb_le _ _) Hle). reflexivity.
Qed.

(** C9, as the code has it.  A delivery leaves the cursor at the larger of
    its old value and the length of the snapshot, and no event moves it back.
    After a clear, the lines that arrive while the store is no longer than the
    old cursor are stored but not handled: refs, pending syntheses and effects
    stay as they were, and the cursor is at or beyond the end of the store.
    They are not handled later either: in every state the hook reaches from
    there, the loop of a delivery runs over the line just appended and
    no other, or over nothing, and a delivery after a clear or a
    re-subscription runs over nothing.  Once the store holds 5000 lines the
    cursor is at 5000 and every later snapshot has that length, so every line
    that arrives is stored and skipped: whatever happens next, the cursor and
    the notification sets do not change, no toast is raised and no synthesis
    is started (the syntheses in flight can only go away).  Friendly lines are
    still appended, but only by syntheses that were in flight already, at most
    one each; with none in flight the hook never does anything again. *)
Theorem cursor_is_never_rolled_back :
  (forall now snapshot w,
      processedLogsCount (refs (listener now snapshot w))
      = Nat.max (processedLogsCount (refs w)) (length snapshot))
  /\ (forall w e,
        processedLogsCount (refs w) <= processedLogsCount (refs (step w e)))
  /\ (forall w now lines,
        length lines <= processedLogsCount (refs w) ->
        let w' := run (step w (ClearLogs now)) (arrivals lines) in
        refs w' = refs w /\ tasks w' = tasks w /\ effects w' = effects w
        /\ caughtUp w')
  /\ (forall now snapshot w,
        listener now snapshot w
        = match newLogs snapshot (processedLogsCount (refs w)) with
          | [] => w
          | _ :: _ =>
              fold_left (handleLog now snapshot)
                (newLogs snapshot (processedLogsCount (refs w)))
                (with_refs (set_cursor (length snapshot) (refs w)) w)
          end)
  /\ (forall w events line,
        caughtUp w ->
        let w' := run w events in
        let startIndex := processedLogsCount (refs w') in
        newLogs (logs w') startIndex = []
        /\ newLogs (LogStore.clearLogs (logs w')) startIndex = []
        /\ (newLogs (LogStore.addLog (logs w') line) startIndex = []
            \/ newLogs (LogStore.addLog (logs w') line) startIndex = [line]))
  /\ (forall w events,
        length (logs w) = 5000 ->
        caughtUp w ->
        let w' := run w events in
        (forall now log,
            step w' (FrpcLog now log)
            = with_logs (LogStore.addLog (logs w') log) w')
        /\ processedLogsCount (refs w') = processedLogsCount (refs w)
        /\ notifiedSuccess (refs w') = notifiedSuccess (refs w)
        /\ notifiedError (refs w') = notifiedError (refs w)
        /\ successLogAdded (refs w') = successLogAdded (refs w)
        /\ count is_toast w' = count is_toast w
        /\ tasks w' `sublist_of` tasks w
        /\ count is_addLog w' + length (tasks w')
           <= count is_addLog w + length (tasks w)
        /\ (tasks w = [] -> effects w' = effects w)).
Proof.
  split; [exact listener_cursor |].
  split; [exact step_cursor_monotone |]. split; [| split; [| split]].
  - intros w now lines Hle. cbn zeta.
    assert (Hcaught : caughtUp (run (step w (ClearLogs now)) (arrivals lines))).
    { apply run_caughtUp. cbn [step]. apply notifyListeners_caughtUp. }
    revert Hcaught. cbn [step]. unfold notifyListeners.
    rewrite listener_skips by (world_simpl; cbn [LogStore.clearLogs length]; lia).
    intros Hcaught.
    destruct (arrivals_below_cursor lines
                (with_logs (LogStore.clearLogs (logs w)) w))
      as (A1 & A2 & A3);
      [world_simpl; cbn [LogStore.clearLogs length]; lia |].
    cbn zeta in *. repeat split; assumption.
  - exact listener_newLogs.
  - intros w events line Hcaught. cbn zeta.
    pose proof (run_caughtUp events w Hcaught) as Hc. unfold caughtUp in Hc.
    split; [apply newLogs_skips; exact Hc |].
    split; [reflexivity |].
    apply newLogs_after_addLog. exact Hc.
  - intros w events Hfull Hcaught. unfold caughtUp in Hcaught.
    change 5000 with LogStore.maxLogs in Hfull.
    destruct (run_saturated events w) as (R0 & R1 & Rest); [lia | lia |].
    cbn zeta in *. split; [| exact (conj R1 Rest)].
    intros now log. apply arrival_skipped; [rewrite R1; lia | exact R0].
Qed.

Lemma cursor_is_never_rolled_back_witness :
  (let w' := run (step after_three (ClearLogs 10))
               (arrivals [(11%Z, line 7 marker_launched);
                          (12%Z, line 7 marker_success)]) in
   refs w' = refs after_three /\ tasks w' = tasks after_three
   /\ effects w' = effects after_three)
  /\ (let w' := run fresh
                  [FrpcLog 1 (line 7 "login to server success");
                   ClearLogs 2;
                   FrpcLog 3 (line 7 marker_success)] in
      newLogs (logs w') (processedLogsCount (refs w')) = []
      /\ newLogs (LogStore.clearLogs (logs w')) (processedLogsCount (refs w')) = [])
  /\ (let w' := run saturated
                  [FrpcLog 11 (line 7 marker_launched);
                   FrpcLog 12 (line 7 marker_success)] in
      count is_toast w' = count is_toast saturated
      /\ effects w' = effects saturated).
Proof.
  destruct cursor_is_never_rolled_back as (_ & _ & Hclear & _ & Hlater & Hfull).
  split; [| split].
  - destruct (Hclear after_three 10%Z
                [(11%Z, line 7 marker_launched); (12%Z, line 7 marker_success)])
      as (C1 & C2 & C3 & _); [vm_compute; lia |].
    split; [exact C1 | split; [exact C2 | exact C3]].
  - destruct (Hlater fresh
                [FrpcLog 1 (line 7 "login to server success");
                 ClearLogs 2;
                 FrpcLog 3 (line 7 marker_success)]
                (line 7 marker_success))
      as (H1 & H2 & _).
    + apply mount_caughtUp.
    + split; [exact H1 | exact H2].
  - destruct (Hfull saturated
                [FrpcLog 11 (line 7 marker_launched);
                 FrpcLog 12 (line 7 marker_success)])
      as (_ & _ & _ & _ & _ & Htoast & _ & _ & Heff).
    + reflexivity.
    + unfold caughtUp. apply Nat.eq_le_incl. reflexivity.
    + split; [exact Htoast | apply Heff; reflexivity].
Defined.

(** C9, as stated, fails on the friendly lines: the success line that fills
    the store to 5000 is handled and starts a synthesis; when the fetch
    answers, the store is at capacity and the cursor at 5000, and the friendly
    line is appended all the same. *)
Lemma synthesis_in_flight_appends_at_capacity :
  let w1 := step almost_full (FrpcLog 1 (line 7 marker_success)) in
  let w2 := step w1 (Settle 0 (resolved [http_7]) 2 "2026/01/01 00:00:01") in
  length (logs w1) = 5000
  /\ processedLogsCount (refs w1) = 5000
  /\ length (tasks w1) = 1
  /\ count is_addLog w1 = 0
  /\ count is_addLog w2 = 1
  /\ length (logs w2) = 5000
  /\ last (logs w2) = Some MoreSamples.friendly_7.
Proof. vm_compute. repeat split. Qed.

End CursorStuck.

(** ** The notification hook: what handling one line does *)

Section LineFacts.

Import Js Notifications Sample.

Lemma mem_add_same (i : Z) (X : gset Z) : bool_decide (i ∈ {[i]} ∪ X) = true.
Proof.
  apply bool_decide_eq_true_2, elem_of_union. left.
  apply elem_of_singleton. reflexivity.
Qed.

Lemma mem_del_same (i : Z) (X : gset Z) : bool_decide (i ∈ X ∖ {[i]}) = false.
Proof.
  apply bool_decide_eq_false_2. rewrite elem_of_difference, elem_of_singleton.
  intros [_ Hne]. apply Hne. reflexivity.
Qed.

Lemma mem_add_other (i j : Z) (X : gset Z) :
  i <> j -> bool_decide (j ∈ {[i]} ∪ X) = bool_decide (j ∈ X).
Proof.
  intros Hne. apply bool_decide_ext.
  rewrite elem_of_union, elem_of_singleton. intuition congruence.
Qed.

Lemma mem_del_other (i j : Z) (X : gset Z) :
  i <> j -> bool_decide (j ∈ X ∖ {[i]}) = bool_decide (j ∈ X).
Proof.
  intros Hne. apply bool_decide_ext.
  rewrite elem_of_difference, elem_of_singleton. intuition congruence.
Qed.

Lemma task_tunnelId_start cache now tunnelId :
  task_tunnelId (getTunnelById_start cache now tunnelId) = tunnelId.
Proof. unfold getTunnelById_start. destruct (_ && _); reflexivity. Qed.

(** The first half of the loop body, on the membership of any id [j]. *)
Lemma handleSynthesis_spec now snapshot w log :
  let w1 := handleSynthesis now snapshot w log in
  let id := tunnel_id log in
  let launched := includes (message log) marker_launched in
  let spawn := startsSynthesis snapshot (refs w) log in
  tasks w1
  = tasks w ++ (if spawn then [getTunnelById_start (tunnelCache (refs w)) now id]
                else [])
  /\ (forall j,
        bool_decide (j ∈ successLogAdded (refs w1))
        = if bool_decide (j = id)
          then spawn || (negb launched && bool_decide (j ∈ successLogAdded (refs w)))
          else bool_decide (j ∈ successLogAdded (refs w)))
  /\ (forall j,
        bool_decide (j ∈ notifiedSuccess (refs w1))
        = if bool_decide (j = id)
          then negb launched && bool_decide (j ∈ notifiedSuccess (refs w))
          else bool_decide (j ∈ notifiedSuccess (refs w))).
Proof.
  unfold handleSynthesis, startsSynthesis.
  destruct (includes (message log) marker_launched) eqn:Hl;
    destruct (includes (message log) marker_success) eqn:Hs;
    destruct (hasLauncherSuccessLog snapshot (tunnel_id log)) eqn:Hh;
    world_simpl; cbn [andb orb negb];
    rewrite ?mem_del_same; cbn [andb orb negb];
    try destruct (bool_decide (tunnel_id log ∈ successLogAdded (refs w))) eqn:Hin;
    cbn [andb orb negb]; world_simpl;
    (split; [rewrite ?app_nil_r; reflexivity |]);
    split; intros j; destruct (bool_decide_reflect (j = tunnel_id log)) as [-> | Hne];
    rewrite ?mem_add_same, ?mem_del_same, ?Hin;
    rewrite ?mem_add_other, ?mem_del_other by congruence;
    rewrite ?mem_del_other by congruence;
    reflexivity.
Qed.

(** The second half of the loop body. *)
Lemma handleToast_spec w log :
  let w' := handleToast w log in
  let id := tunnel_id log in
  let success := includes (message log) marker_success in
  let toast := success && negb (bool_decide (id ∈ notifiedSuccess (refs w))) in
  count is_toast_success w' = count is_toast_success w + (if toast then 1 else 0)
  /\ count is_addLog w' = count is_addLog w
  /\ (forall j, List.filter (is_addLog_for j) (effects w')
                = List.filter (is_addLog_for j) (effects w))
  /\ (forall j,
        bool_decide (j ∈ notifiedSuccess (refs w'))
        = if bool_decide (j = id)
          then success || bool_decide (j ∈ notifiedSuccess (refs w))
          else bool_decide (j ∈ notifiedSuccess (refs w))).
Proof.
  unfold handleToast, count.
  destruct (includes (message log) marker_success) eqn:Hs.
  - destruct (bool_decide (tunnel_id log ∈ notifiedSuccess (refs w))) eqn:Hin;
      cbn [andb orb negb]; world_simpl;
      (split; [rewrite ?List.filter_app, ?length_app;
               cbn [List.filter is_toast_success length]; lia |]);
      (split; [rewrite ?List.filter_app, ?length_app;
               cbn [List.filter is_addLog length]; lia |]);
      (split; [intros j; rewrite ?List.filter_app;
               cbn [List.filter is_addLog_for]; rewrite ?app_nil_r; reflexivity |]);
      intros j; destruct (bool_decide_reflect (j = tunnel_id log)) as [-> | Hne];
      rewrite ?mem_add_same, ?Hin; rewrite ?mem_add_other by congruence;
      reflexivity.
  - destruct (includes (message log) marker_failed);
      [destruct (bool_decide (tunnel_id log ∈ notifiedError (refs w))) |];
      cbn [andb orb negb]; world_simpl;
      (split; [rewrite ?List.filter_app, ?length_app;
               cbn [List.filter is_toast_success length]; lia |]);
      (split; [rewrite ?List.filter_app, ?length_app;
               cbn [List.filter is_addLog length]; lia |]);
      (split; [intros j; rewrite ?List.filter_app;
               cbn [List.filter is_addLog_for]; rewrite ?app_nil_r; reflexivity |]);
      intros j; destruct (bool_decide (j = tunnel_id log)); reflexivity.
Qed.

(** The loop body outside the log view, for the id of the line handled. *)
Lemma handleLog_spec now snapshot w log :
  String.eqb (activeTab w) "tunnels" = false ->
  let w' := handleLog now snapshot w log in
  let id := tunnel_id log in
  let launched := includes (message log) marker_launched in
  let success := includes (message log) marker_success in
  let spawn := startsSynthesis snapshot (refs w) log in
  tasks w'
  = tasks w ++ (if spawn then [getTunnelById_start (tunnelCache (refs w)) now id]
                else [])
  /\ count is_toast_success w'
     = count is_toast_success w + (if raisesSuccess (refs w) log then 1 else 0)
  /\ count is_addLog w' = count is_addLog w
  /\ bool_decide (id ∈ notifiedSuccess (refs w'))
     = success || (negb launched && bool_decide (id ∈ notifiedSuccess (refs w)))
  /\ bool_decide (id ∈ successLogAdded (refs w'))
     = spawn || (negb launched && bool_decide (id ∈ successLogAdded (refs w))).
Proof.
  intros Htab. unfold handleLog.
  destruct (handleSynthesis_frame now snapshot w log)
    as (_ & Ha & _ & He & _ & _).
  destruct (handleSynthesis_spec now snapshot w log) as (Ht & Hs & Hn).
  cbn zeta in *. rewrite Ha, Htab.
  destruct (handleToast_frame (handleSynthesis now snapshot w log) log)
    as (_ & _ & _ & Ht' & _ & Hs' & _).
  destruct (handleToast_spec (handleSynthesis now snapshot w log) log)
    as (Hc & Hd & _ & Hn').
  cbn zeta in *.
  rewrite Ht', Hs', Hc, Hd, Hn', !Hn, Hs.
  rewrite bool_decide_eq_true_2 by reflexivity.
  unfold count. rewrite He. unfold raisesSuccess.
  split; [exact Ht |].
  destruct (includes (message log) marker_launched),
           (includes (message log) marker_success),
           (bool_decide (tunnel_id log ∈ notifiedSuccess (refs w)));
    cbn [andb orb negb]; repeat split; reflexivity.
Qed.

End LineFacts.

(** ** The notification hook: arrivals and settlements *)

Section StepFacts.

Import Js Notifications Sample.

Lemma or_else_empty a : or_else a "" = a.
Proof.
  unfold or_else. destruct (String.eqb_spec a ""); [symmetry; assumption | reflexivity].
Qed.

(** A line that arrives in step is the only one handled. *)
Lemma step_frpcLog w now log :
  inStep w ->
  step w (FrpcLog now log)
  = handleLog now (logs w ++ [log])
      (with_refs (set_cursor (S (length (logs w))) (refs w))
         (with_logs (logs w ++ [log]) w)) log.
Proof.
  intros [Hsync Hroom]. cbn [step]. unfold notifyListeners. world_simpl.
  rewrite (addLog_room (logs w) log Hroom).
  rewrite (listener_new_line now (logs w) log) by (world_simpl; exact Hsync).
  reflexivity.
Qed.

(** Under a caught-up cursor, a line put in the store is either handled
    alone or not handled at all. *)
Lemma notify_after_addLog now w line :
  caughtUp w ->
  let stored := with_logs (LogStore.addLog (logs w) line) w in
  notifyListeners now stored = stored
  \/ (inStep w
      /\ notifyListeners now stored
         = handleLog now (logs w ++ [line])
             (with_refs (set_cursor (S (length (logs w))) (refs w))
                (with_logs (logs w ++ [line]) w)) line).
Proof.
  intros Hcaught. unfold caughtUp in Hcaught. cbn zeta.
  destruct (Nat.eq_dec (processedLogsCount (refs w)) (length (logs w))) as [Hsync | Hahead].
  - destruct (Nat.lt_ge_cases (length (logs w)) LogStore.maxLogs) as [Hroom | Hfull].
    + right. split; [split; assumption |].
      exact (step_frpcLog w now line (conj Hsync Hroom)).
    + left. unfold notifyListeners. apply listener_skips. world_simpl.
      rewrite addLog_length. lia.
  - left. unfold notifyListeners. apply listener_skips. world_simpl.
    rewrite addLog_length. lia.
Qed.

(** No delivery appends to the store by itself. *)
Lemma handleLog_addLog now snapshot w log :
  forall j,
    List.filter (is_addLog_for j) (effects (handleLog now snapshot w log))
    = List.filter (is_addLog_for j) (effects w).
Proof.
  intros j. unfold handleLog.
  destruct (handleSynthesis_frame now snapshot w log) as (_ & _ & _ & He & _ & _).
  cbn zeta in He.
  destruct (String.eqb _ "tunnels"); [rewrite He; reflexivity |].
  destruct (handleToast_spec (handleSynthesis now snapshot w log) log)
    as (_ & _ & Hf & _).
  cbn zeta in Hf. rewrite Hf, He. reflexivity.
Qed.

Lemma handleLog_addLog_count now snapshot w log :
  count is_addLog (handleLog now snapshot w log) = count is_addLog w.
Proof.
  unfold handleLog.
  destruct (handleSynthesis_frame now snapshot w log) as (_ & _ & _ & He & _ & _).
  cbn zeta in He.
  destruct (String.eqb _ "tunnels"); [unfold count; rewrite He; reflexivity |].
  destruct (handleToast_spec (handleSynthesis now snapshot w log) log)
    as (_ & Hc & _).
  cbn zeta in Hc. rewrite Hc. unfold count. rewrite He. reflexivity.
Qed.

Lemma listener_addLog_count now snapshot w :
  count is_addLog (listener now snapshot w) = count is_addLog w.
Proof.
  unfold listener.
  destruct (length snapshot =? 0)%nat; [reflexivity |].
  destruct (length snapshot <=? processedLogsCount (refs w))%nat; [reflexivity |].
  assert (Hfold : forall todo w0,
            count is_addLog (fold_left (handleLog now snapshot) todo w0)
            = count is_addLog w0).
  { induction todo as [| l todo IH]; intros w0; cbn [fold_left];
      [reflexivity |].
    rewrite IH. apply handleLog_addLog_count. }
  rewrite Hfold. reflexivity.
Qed.

(** The arrival of a line in step, as far as syntheses go; it holds in the
    log view too. *)
Lemma frpcLog_synthesis w now log :
  inStep w ->
  let w' := step w (FrpcLog now log) in
  let id := tunnel_id log in
  let launched := includes (message log) marker_launched in
  let spawn := startsSynthesis (logs w ++ [log]) (refs w) log in
  logs w' = logs w ++ [log]
  /\ processedLogsCount (refs w') = S (length (logs w))
  /\ activeTab w' = activeTab w
  /\ tunnelCache (refs w') = tunnelCache (refs w)
  /\ tasks w'
     = tasks w ++ (if spawn then [getTunnelById_start (tunnelCache (refs w)) now id]
                   else [])
  /\ count is_addLog w' = count is_addLog w
  /\ (forall j,
        bool_decide (j ∈ successLogAdded (refs w'))
        = if bool_decide (j = id)
          then spawn || (negb launched && bool_decide (j ∈ successLogAdded (refs w)))
          else bool_decide (j ∈ successLogAdded (refs w))).
Proof.
  intros Hstep. cbn zeta. rewrite (step_frpcLog w now log Hstep).
  set (w0 := with_refs (set_cursor (S (length (logs w))) (refs w))
               (with_logs (logs w ++ [log]) w)).
  destruct (handleLog_frame now (logs w ++ [log]) w0 log) as (F1 & F2 & _ & F4 & F5).
  cbn zeta in *. rewrite F1, F2, F4, F5, handleLog_addLog_count.
  do 4 (split; [reflexivity |]).
  unfold handleLog.
  destruct (handleSynthesis_spec now (logs w ++ [log]) w0 log) as (Ht & Hs & _).
  destruct (handleToast_frame (handleSynthesis now (logs w ++ [log]) w0 log) log)
    as (_ & _ & _ & Ht' & _ & Hs' & _).
  cbn zeta in *.
  destruct (String.eqb _ "tunnels").
  - split; [exact Ht |]. split; [reflexivity | exact Hs].
  - rewrite Ht', Hs'. split; [exact Ht |]. split; [reflexivity | exact Hs].
Qed.

(** The arrival of a line in step, outside the log view. *)
Lemma frpcLog_toast w now log :
  inStep w ->
  String.eqb (activeTab w) "tunnels" = false ->
  let w' := step w (FrpcLog now log) in
  let id := tunnel_id log in
  count is_toast_success w'
  = count is_toast_success w + (if raisesSuccess (refs w) log then 1 else 0)
  /\ bool_decide (id ∈ notifiedSuccess (refs w'))
     = includes (message log) marker_success
       || (negb (includes (message log) marker_launched)
           && bool_decide (id ∈ notifiedSuccess (refs w))).
Proof.
  intros Hstep Htab. cbn zeta. rewrite (step_frpcLog w now log Hstep).
  set (w0 := with_refs (set_cursor (S (length (logs w))) (refs w))
               (with_logs (logs w ++ [log]) w)).
  destruct (handleLog_spec now (logs w ++ [log]) w0 log Htab)
    as (_ & Hc & _ & Hn & _).
  cbn zeta in *. split; [exact Hc | exact Hn].
Qed.

(** What the settlement of a suspended synthesis amounts to. *)
Lemma settle_unfold w k task fetched now stamp :
  tasks w !! k = Some task ->
  let result := getTunnelById_finish task fetched (tunnelCache (refs w)) in
  let w1 := with_tasks (delete k (tasks w))
              (with_refs (set_tunnelCache (fst result) (refs w)) w) in
  step w (Settle k fetched now stamp)
  = match friendlyLine (task_tunnelId task) (snd result) stamp with
    | None => w1
    | Some line =>
        notifyListeners now
          (with_logs (LogStore.addLog (logs w1) line)
             (raise [logStore_addLog line] w1))
    end.
Proof.
  intros Hk. cbn [step]. unfold settleTask. rewrite Hk.
  destruct (getTunnelById_finish task fetched (tunnelCache (refs w)));
    reflexivity.
Qed.

Lemma settle_missing w k fetched now stamp :
  tasks w !! k = None -> step w (Settle k fetched now stamp) = w.
Proof. intros Hk. cbn [step]. unfold settleTask. rewrite Hk. reflexivity. Qed.

(** The line [friendlyLine] builds, spelled out. *)
Lemma friendlyLine_cases tunnelId found stamp :
  friendlyLine tunnelId found stamp
  = match found with
    | None => None
    | Some tunnel =>
        if isWebType (option_map toLowerCase (Api.type tunnel))
        then
          let tunnelName :=
            or_else (Api.name tunnel) ("隧道" +:+ pretty tunnelId) in
          Some {| tunnel_id := tunnelId;
                  message :=
                    if String.eqb (Api.dorp tunnel) ""
                    then plainMessage tunnelName
                    else linkMessage tunnelName (Api.dorp tunnel);
                  timestamp := stamp |}
        else None
    end.
Proof.
  destruct found as [tunnel |]; [| reflexivity]. unfold friendlyLine.
  destruct (isWebType _); cbn [negb]; [| reflexivity].
  rewrite or_else_empty. destruct (String.eqb (Api.dorp tunnel) ""); reflexivity.
Qed.

End StepFacts.

(** ** Keys of the running set, keys of the notification sets *)

Section DedupFacts.

Import Js Notifications Sample.

(** C3, as the code has it.  In the running set the keys are
    ["api_" id] and ["custom_" id]: two tunnels share a key only if they are
    of the same kind and have the same id, so a provisioned and a custom
    session never collide there.  The notification sets hold the bare numeric
    [tunnel_id] of the log line.  In the hook, outside the log view and with
    the cursor at the end of a store that has room for two lines: a success
    line records its [tunnel_id] in [notifiedSuccessRef], raising one toast
    unless the id was recorded already and the line does not relaunch it; a
    second success line with the same [tunnel_id] and without the "process
    launched" marker, whatever session it comes from, finds that entry and
    raises nothing. *)
Theorem running_keys_composite_dedup_numeric :
  (forall a b : UnifiedTunnel,
      tunnelKey a = tunnelKey b ->
      sameKind a b = true /\ sessionId a = sessionId b)
  /\ (forall a b : UnifiedTunnel,
        sameKind a b = false -> tunnelKey a <> tunnelKey b)
  /\ (forall (w : World) (now now' : Z) (first second : LogMessage),
        inStep w ->
        (S (length (logs w)) < LogStore.maxLogs)%nat ->
        String.eqb (activeTab w) "tunnels" = false ->
        tunnel_id first = tunnel_id second ->
        includes (message first) marker_success = true ->
        includes (message second) marker_success = true ->
        includes (message second) marker_launched = false ->
        let w1 := step w (FrpcLog now first) in
        let w2 := step w1 (FrpcLog now' second) in
        bool_decide (tunnel_id first ∈ notifiedSuccess (refs w1)) = true
        /\ count is_toast_success w1
           = count is_toast_success w
             + (if includes (message first) marker_launched
                   || negb (bool_decide
                              (tunnel_id first ∈ notifiedSuccess (refs w)))
                then 1 else 0)
        /\ count is_toast_success w2 = count is_toast_success w1
        /\ bool_decide (tunnel_id second ∈ notifiedSuccess (refs w2)) = true).
Proof.
  split; [exact tunnelKey_inj |]. split.
  - intros a b Hkind Hkey. apply tunnelKey_inj in Hkey. destruct Hkey as [Hk _].
    congruence.
  - intros w now now' first second Hin Hroom Htab Hid Hs1 Hs2 Hquiet. cbn zeta.
    destruct (frpcLog_toast w now first Hin Htab) as (Hcount1 & Hflag1).
    destruct (frpcLog_synthesis w now first Hin)
      as (Hlogs1 & Hcursor1 & Htab1 & _).
    cbn zeta in *. rewrite Hs1 in Hflag1. cbn [orb] in Hflag1.
    unfold raisesSuccess in Hcount1. rewrite Hs1 in Hcount1.
    cbn [andb] in Hcount1.
    assert (Hin1 : inStep (step w (FrpcLog now first))).
    { split.
      - rewrite Hcursor1, Hlogs1, length_app, Nat.add_1_r. reflexivity.
      - rewrite Hlogs1, length_app, Nat.add_1_r. exact Hroom. }
    assert (Htab1' : String.eqb (activeTab (step w (FrpcLog now first))) "tunnels"
                     = false) by (rewrite Htab1; exact Htab).
    destruct (frpcLog_toast _ now' second Hin1 Htab1') as (Hcount2 & Hflag2).
    cbn zeta in *. unfold raisesSuccess in Hcount2.
    rewrite Hs2, Hquiet, <- Hid, Hflag1 in Hcount2.
    cbn [andb orb negb] in Hcount2.
    rewrite Hs2 in Hflag2. cbn [orb] in Hflag2.
    split; [exact Hflag1 |]. split; [exact Hcount1 |].
    split; [rewrite Hcount2; lia | exact Hflag2].
Qed.

Lemma running_keys_composite_dedup_numeric_witness :
  (sameKind (api tcp_7) (api http_7) = true
   /\ sessionId (api tcp_7) = sessionId (api http_7))
  /\ tunnelKey provisioned_7 <> tunnelKey custom_7
  /\ (let w1 := step fresh
                  (FrpcLog 1 (logLineOf provisioned_7 marker_success "t1")) in
      let w2 := step w1 (FrpcLog 2 (logLineOf custom_7 marker_success "t2")) in
      bool_decide (7%Z ∈ notifiedSuccess (refs w1)) = true
      /\ count is_toast_success w1 = 1
      /\ count is_toast_success w2 = count is_toast_success w1).
Proof.
  destruct running_keys_composite_dedup_numeric as (Hkeys & Hkinds & Hdedup).
  split; [apply Hkeys; reflexivity |].
  split; [apply Hkinds; reflexivity |].
  destruct (Hdedup fresh 1%Z 2%Z
              (logLineOf provisioned_7 marker_success "t1")
              (logLineOf custom_7 marker_success "t2"))
    as (H1 & H2 & H3 & _).
  - split; [reflexivity | unfold LogStore.maxLogs; cbn; lia].
  - unfold LogStore.maxLogs. cbn. lia.
  - reflexivity.
  - reflexivity.
  - reflexivity.
  - reflexivity.
  - reflexivity.
  - cbn zeta. split; [exact H1 |]. split; [exact H2 | exact H3].
Defined.

End DedupFacts.

(** ** Synthesis of the friendly line *)

Section SynthesisFacts.

Import Js Notifications Sample.

Lemma startsSynthesis_first snapshot r log :
  includes (message log) marker_success = true ->
  hasLauncherSuccessLog snapshot (tunnel_id log) = false ->
  bool_decide (tunnel_id log ∈ successLogAdded r) = false ->
  startsSynthesis snapshot r log = true.
Proof.
  intros Hs Hh Hin. unfold startsSynthesis. rewrite Hs, Hh, Hin.
  destruct (includes (message log) marker_launched); reflexivity.
Qed.

(** The arrival of a success line that starts a synthesis. *)
Lemma success_line_spawns w now log :
  inStep w ->
  includes (message log) marker_success = true ->
  hasLauncherSuccessLog (logs w ++ [log]) (tunnel_id log) = false ->
  bool_decide (tunnel_id log ∈ successLogAdded (refs w)) = false ->
  let w1 := step w (FrpcLog now log) in
  let task := getTunnelById_start (tunnelCache (refs w)) now (tunnel_id log) in
  tasks w1 = tasks w ++ [task]
  /\ tasks w1 !! length (tasks w) = Some task
  /\ bool_decide (tunnel_id log ∈ successLogAdded (refs w1)) = true
  /\ tunnelCache (refs w1) = tunnelCache (refs w)
  /\ logs w1 = logs w ++ [log]
  /\ caughtUp w1.
Proof.
  intros Hstep Hs Hh Hin.
  destruct (frpcLog_synthesis w now log Hstep) as (Hl & Hc & _ & Hk & Ht & _ & Hm).
  cbn zeta in *.
  rewrite (startsSynthesis_first _ _ _ Hs Hh Hin) in Ht, Hm.
  split; [exact Ht |]. split.
  { rewrite Ht. apply list_lookup_middle. reflexivity. }
  split.
  { rewrite Hm. rewrite bool_decide_eq_true_2 by reflexivity. reflexivity. }
  split; [exact Hk |]. split; [exact Hl |].
  apply step_caughtUp. destruct Hstep as [Hsync _]. unfold caughtUp. lia.
Qed.

(** C4, as the code has it.  When a success line is handled, no friendly
    line for its tunnel is in the store and none has been synthesized in this
    epoch, the tunnel is marked as synthesized and [getTunnelById] is started:
    it answers from the cache when the cache is younger than 30 s and not
    empty, and from [fetchTunnels()] otherwise (from the stale cache if the
    fetch fails).  When it returns a tunnel whose lower-cased type is "http"
    or "https", exactly one line is appended: the one with the access link
    if [dorp] is not empty, the plain one otherwise.  When it returns a tunnel
    of any other type, or no tunnel, nothing is appended. *)
Theorem friendly_line_only_for_web_tunnels
    (w : World) (now : Z) (log : LogMessage)
    (fetched : settled (list Api.Tunnel)) (now' : Z) (stamp : string) :
  inStep w ->
  includes (message log) marker_success = true ->
  hasLauncherSuccessLog (logs w ++ [log]) (tunnel_id log) = false ->
  bool_decide (tunnel_id log ∈ successLogAdded (refs w)) = false ->
  let id := tunnel_id log in
  let cache := tunnelCache (refs w) in
  let task := getTunnelById_start cache now id in
  let w1 := step w (FrpcLog now log) in
  let found := snd (getTunnelById_finish task fetched (tunnelCache (refs w1))) in
  let w2 := step w1 (Settle (length (tasks w)) fetched now' stamp) in
  tasks w1 = tasks w ++ [task]
  /\ bool_decide (id ∈ successLogAdded (refs w1)) = true
  /\ found
     = (if (now - updatedAt cache <? 30000)%Z && (0 <? size (data cache))%nat
        then data cache !! id
        else match fetched with
             | resolved fetchedTunnels => nextMap fetchedTunnels !! id
             | rejected _ => data cache !! id
             end)
  /\ match found with
     | Some tunnel =>
         if isWebType (option_map toLowerCase (Api.type tunnel))
         then
           let tunnelName :=
             or_else (Api.name tunnel) ("隧道" +:+ pretty id) in
           let line :=
             {| tunnel_id := id;
                message :=
                  if String.eqb (Api.dorp tunnel) ""
                  then plainMessage tunnelName
                  else linkMessage tunnelName (Api.dorp tunnel);
                timestamp := stamp |} in
           logs w2 = LogStore.addLog (logs w1) line
           /\ count is_addLog w2 = S (count is_addLog w1)
         else logs w2 = logs w1 /\ effects w2 = effects w1
     | None => logs w2 = logs w1 /\ effects w2 = effects w1
     end.
Proof.
  intros Hstep Hs Hh Hin. cbn zeta.
  destruct (success_line_spawns w now log Hstep Hs Hh Hin)
    as (Ht & Hk & Hm & Hc & _ & _).
  cbn zeta in *. rewrite Hc.
  split; [exact Ht |]. split; [exact Hm |]. split.
  { unfold getTunnelById_start, getTunnelById_finish.
    destruct (_ && _); [reflexivity |]. destruct fetched; reflexivity. }
  rewrite (settle_unfold _ _ _ fetched now' stamp Hk). cbn zeta. rewrite Hc.
  rewrite task_tunnelId_start, friendlyLine_cases.
  destruct (snd (getTunnelById_finish _ fetched (tunnelCache (refs w))))
    as [tunnel |]; [| split; reflexivity].
  destruct (isWebType _); [| split; reflexivity].
  cbn zeta. split.
  - unfold notifyListeners.
    match goal with
    | |- logs (listener ?n ?snap ?w0) = _ =>
        destruct (listener_facts n snap w0) as (Hl & _)
    end.
    cbn zeta in Hl. rewrite Hl. reflexivity.
  - unfold notifyListeners. rewrite listener_addLog_count.
    unfold count. world_simpl. rewrite List.filter_app, length_app.
    cbn [List.filter is_addLog length]. lia.
Qed.

Lemma friendly_line_only_for_web_tunnels_witness :
  let w1 := step fresh (FrpcLog 1 (line 7 marker_success)) in
  let w2 := step w1 (Settle 0 (resolved [http_7]) 2 "2026/01/01 00:00:01") in
  tasks w1 = [getTunnelById_start (tunnelCache (refs fresh)) 1 7]
  /\ logs w2
     = LogStore.addLog (logs w1)
         {| tunnel_id := 7;
            message := linkMessage "web" "a.example.com";
            timestamp := "2026/01/01 00:00:01" |}
  /\ count is_addLog w2 = S (count is_addLog w1).
Proof.
  destruct (friendly_line_only_for_web_tunnels fresh 1 (line 7 marker_success)
              (resolved [http_7]) 2 "2026/01/01 00:00:01")
    as (Ht & _ & _ & Hline).
  - split; [reflexivity | unfold LogStore.maxLogs; cbn; lia].
  - reflexivity.
  - reflexivity.
  - reflexivity.
  - split; [exact Ht | exact Hline].
Defined.

(** C4, as stated, fails: for a tunnel of type "tcp" the synthesis is
    started and gives up; the store and the effects stay as they were, no
    generic line is appended. *)
Lemma tcp_tunnel_gets_no_friendly_line :
  let w1 := step fresh (FrpcLog 1 (line 7 marker_success)) in
  let w2 := step w1 (Settle 0 (resolved [tcp_7]) 2 "2026/01/01 00:00:01") in
  tasks w1 = [Fetching 7 1 (tunnelCache emptyRefs)]
  /\ tasks w2 = []
  /\ logs w2 = [line 7 marker_success]
  /\ count is_addLog w2 = 0.
Proof. repeat split; vm_compute; reflexivity. Qed.

End SynthesisFacts.

(** ** The synthesized flag outlives a synthesis that gives up *)

Section EpochFacts.

Import Js Notifications Sample.

Lemma friendlyLine_id tunnelId found stamp line :
  friendlyLine tunnelId found stamp = Some line -> tunnel_id line = tunnelId.
Proof.
  rewrite friendlyLine_cases. destruct found as [tunnel |]; [| discriminate].
  destruct (isWebType _); [| discriminate].
  cbn zeta. intros Heq. inversion Heq. reflexivity.
Qed.

(** The synthesis gives up exactly when no tunnel is found or the tunnel is
    not of a web type. *)
Lemma friendlyLine_gives_up tunnelId found stamp :
  friendlyLine tunnelId found stamp = None
  <-> found = None
      \/ exists tunnel,
           found = Some tunnel
           /\ isWebType (option_map toLowerCase (Api.type tunnel)) = false.
Proof.
  rewrite friendlyLine_cases. destruct found as [tunnel |].
  - destruct (isWebType _) eqn:Hweb; cbn zeta; split.
    + discriminate.
    + intros [Hnone | (t & Ht & Hf)]; [discriminate |].
      inversion Ht; subst. congruence.
    + intros _. right. eauto.
    + reflexivity.
  - split; [intros _; left; reflexivity | reflexivity].
Qed.

(** A failed fetch with nothing in the stale cache finds nothing. *)
Lemma failed_fetch_finds_nothing tunnelId now cache e current :
  data cache !! tunnelId = None ->
  snd (getTunnelById_finish (Fetching tunnelId now cache) (rejected e) current)
  = None.
Proof. intros Hmiss. exact Hmiss. Qed.

(** Handling a line that does not open a new epoch for [id] keeps the flag
    of [id] and starts no synthesis for [id]. *)
Lemma handleLog_keeps_flag now snapshot w log id :
  bool_decide (id ∈ successLogAdded (refs w)) = true ->
  Forall (fun task => task_tunnelId task <> id) (tasks w) ->
  (tunnel_id log =? id)%Z && includes (message log) marker_launched = false ->
  let w' := handleLog now snapshot w log in
  bool_decide (id ∈ successLogAdded (refs w')) = true
  /\ Forall (fun task => task_tunnelId task <> id) (tasks w').
Proof.
  intros Hflag Htasks Hquiet. unfold handleLog.
  destruct (handleSynthesis_spec now snapshot w log) as (Ht & Hs & _).
  destruct (handleToast_frame (handleSynthesis now snapshot w log) log)
    as (_ & _ & _ & Ht' & _ & Hs' & _).
  cbn zeta in *.
  assert (Hsyn :
    bool_decide (id ∈ successLogAdded (refs (handleSynthesis now snapshot w log)))
    = true
    /\ Forall (fun task => task_tunnelId task <> id)
         (tasks (handleSynthesis now snapshot w log))).
  { rewrite Hs, Ht. unfold startsSynthesis.
    destruct (bool_decide_reflect (id = tunnel_id log)) as [Heq | Hne].
    - subst id. rewrite Z.eqb_refl in Hquiet. cbn [andb] in Hquiet.
      rewrite Hquiet, Hflag. cbn [negb andb orb].
      rewrite andb_false_r, app_nil_r. cbn [orb]. split; [reflexivity | exact Htasks].
    - split; [exact Hflag |]. apply Forall_app. split; [exact Htasks |].
      destruct (_ && _ && _); [| constructor].
      constructor; [| constructor]. rewrite task_tunnelId_start. congruence. }
  destruct (String.eqb _ "tunnels"); [exact Hsyn |].
  rewrite Hs', Ht'. exact Hsyn.
Qed.

(** One quiet event keeps the flag of [id], starts no synthesis for [id] and
    appends no line for [id]. *)
Lemma quiet_step w e id :
  caughtUp w ->
  bool_decide (id ∈ successLogAdded (refs w)) = true ->
  Forall (fun task => task_tunnelId task <> id) (tasks w) ->
  quiet id e = true ->
  let w' := step w e in
  caughtUp w'
  /\ bool_decide (id ∈ successLogAdded (refs w')) = true
  /\ Forall (fun task => task_tunnelId task <> id) (tasks w')
  /\ List.filter (is_addLog_for id) (effects w')
     = List.filter (is_addLog_for id) (effects w).
Proof.
  intros Hcaught Hflag Htasks Hquiet. cbn zeta.
  split; [apply step_caughtUp; exact Hcaught |].
  destruct e as [now log | k fetched now stamp | now | now tab].
  - cbn [step quiet] in *. apply negb_true_iff in Hquiet.
    destruct (notify_after_addLog now w log Hcaught) as [-> | [_ ->]].
    + world_simpl. repeat split; assumption.
    + rewrite handleLog_addLog. world_simpl.
      destruct (handleLog_keeps_flag now (logs w ++ [log])
                  (with_refs (set_cursor (S (length (logs w))) (refs w))
                     (with_logs (logs w ++ [log]) w)) log id Hflag Htasks Hquiet)
        as [H1 H2].
      repeat split; assumption.
  - destruct (tasks w !! k) as [task |] eqn:Hk.
    2:{ rewrite (settle_missing _ _ _ _ _ Hk). repeat split; assumption. }
    rewrite (settle_unfold _ _ _ fetched now stamp Hk). cbn zeta.
    assert (Hother : task_tunnelId task <> id).
    { rewrite Forall_lookup in Htasks. exact (Htasks k task Hk). }
    destruct (friendlyLine (task_tunnelId task) _ stamp) as [line |] eqn:Hline.
    2:{ world_simpl. repeat split; try assumption. apply Forall_delete, Htasks. }
    apply friendlyLine_id in Hline.
    set (w1 := raise [logStore_addLog line]
                 (with_tasks (delete k (tasks w))
                    (with_refs
                       (set_tunnelCache
                          (fst (getTunnelById_finish task fetched
                                  (tunnelCache (refs w)))) (refs w)) w))).
    assert (Hcaught1 : caughtUp w1) by exact Hcaught.
    assert (Hflag1 : bool_decide (id ∈ successLogAdded (refs w1)) = true)
      by exact Hflag.
    assert (Htasks1 : Forall (fun task => task_tunnelId task <> id) (tasks w1)).
    { apply Forall_delete, Htasks. }
    assert (Heff1 : List.filter (is_addLog_for id) (effects w1)
                    = List.filter (is_addLog_for id) (effects w)).
    { unfold w1. world_simpl. rewrite List.filter_app.
      cbn [List.filter is_addLog_for]. rewrite Hline.
      rewrite (proj2 (Z.eqb_neq _ _) Hother). apply app_nil_r. }
    change (with_logs (LogStore.addLog (logs (with_tasks _ _)) line) _)
      with (with_logs (LogStore.addLog (logs w1) line) w1).
    destruct (notify_after_addLog now w1 line Hcaught1) as [-> | [_ ->]].
    + world_simpl. repeat split; assumption.
    + rewrite handleLog_addLog. world_simpl.
      assert (Hq : (tunnel_id line =? id)%Z
                   && includes (message line) marker_launched = false).
      { rewrite Hline, (proj2 (Z.eqb_neq _ _) Hother). reflexivity. }
      destruct (handleLog_keeps_flag now (logs w1 ++ [line])
                  (with_refs (set_cursor (S (length (logs w1))) (refs w1))
                     (with_logs (logs w1 ++ [line]) w1)) line id Hflag1 Htasks1 Hq)
        as [H1 H2].
      repeat split; assumption.
  - cbn [step]. unfold notifyListeners. rewrite listener_skips.
    + world_simpl. repeat split; assumption.
    + world_simpl. cbn [LogStore.clearLogs length]. lia.
  - cbn [step]. unfold notifyListeners. rewrite listener_skips.
    + world_simpl. repeat split; assumption.
    + world_simpl. exact Hcaught.
Qed.

Lemma quiet_run events id :
  forall w,
    caughtUp w ->
    bool_decide (id ∈ successLogAdded (refs w)) = true ->
    Forall (fun task => task_tunnelId task <> id) (tasks w) ->
    Forall (fun e => quiet id e = true) events ->
    let w' := run w events in
    bool_decide (id ∈ successLogAdded (refs w')) = true
    /\ Forall (fun task => task_tunnelId task <> id) (tasks w')
    /\ List.filter (is_addLog_for id) (effects w')
       = List.filter (is_addLog_for id) (effects w).
Proof.
  induction events as [| e events IH]; intros w Hc Hf Ht Hq; cbn [run fold_left].
  - repeat split; assumption.
  - inversion Hq as [| e' events' Hqe Hqs]; subst.
    destruct (quiet_step w e id Hc Hf Ht Hqe) as (Hc' & Hf' & Ht' & He').
    destruct (IH (step w e) Hc' Hf' Ht' Hqs) as (R1 & R2 & R3).
    cbn zeta in *. fold (run (step w e) events) in *.
    repeat split; try assumption. congruence.
Qed.

(** C10, as the code has it.  When a success line starts a synthesis for a
    tunnel, that tunnel is marked as synthesized at once, while
    [getTunnelById] is still pending.  What [getTunnelById] finds is the entry
    of the fresh cache, of the fetched list, or - when the fetch fails - of
    the stale cache: a failed fetch by itself does not end the synthesis.  If
    no tunnel is found that way, or one whose type is not "http" or "https",
    nothing is appended, and the mark stays: provided no older synthesis of
    the tunnel was still in flight, until a "process launched" line of that
    tunnel arrives, whatever else happens, the mark is still set, no
    synthesis is started for the tunnel and no friendly line is appended for
    it. *)
Theorem synthesized_flag_survives_giving_up
    (w : World) (now : Z) (log : LogMessage)
    (fetched : settled (list Api.Tunnel)) (now' : Z) (stamp : string)
    (events : list Event) :
  let id := tunnel_id log in
  let task := getTunnelById_start (tunnelCache (refs w)) now id in
  let w1 := step w (FrpcLog now log) in
  let found := snd (getTunnelById_finish task fetched (tunnelCache (refs w1))) in
  let w2 := step w1 (Settle (length (tasks w)) fetched now' stamp) in
  let w3 := run w2 events in
  inStep w ->
  includes (message log) marker_success = true ->
  hasLauncherSuccessLog (logs w ++ [log]) id = false ->
  bool_decide (id ∈ successLogAdded (refs w)) = false ->
  Forall (fun pending => task_tunnelId pending <> id) (tasks w) ->
  (found = None
   \/ exists tunnel,
        found = Some tunnel
        /\ isWebType (option_map toLowerCase (Api.type tunnel)) = false) ->
  Forall (fun e => quiet id e = true) events ->
  (tasks w1 = tasks w ++ [task]
   /\ bool_decide (id ∈ successLogAdded (refs w1)) = true
   /\ found
      = (if (now - updatedAt (tunnelCache (refs w)) <? 30000)%Z
            && (0 <? size (data (tunnelCache (refs w))))%nat
         then data (tunnelCache (refs w)) !! id
         else match fetched with
              | resolved fetchedTunnels => nextMap fetchedTunnels !! id
              | rejected _ => data (tunnelCache (refs w)) !! id
              end))
  /\ (logs w2 = logs w1 /\ effects w2 = effects w1
      /\ bool_decide (id ∈ successLogAdded (refs w2)) = true)
  /\ (bool_decide (id ∈ successLogAdded (refs w3)) = true
      /\ Forall (fun pending => task_tunnelId pending <> id) (tasks w3)
      /\ List.filter (is_addLog_for id) (effects w3)
         = List.filter (is_addLog_for id) (effects w2)).
Proof.
  cbn zeta. intros Hstep Hs Hh Hin Hpending Hgives Hquiet.
  destruct (success_line_spawns w now log Hstep Hs Hh Hin)
    as (Ht & Hk & Hm & Hc & _ & Hcaught).
  cbn zeta in *. rewrite Hc in Hgives.
  split.
  { split; [exact Ht |]. split; [exact Hm |].
    rewrite Hc. unfold getTunnelById_start.
    destruct ((now - updatedAt (tunnelCache (refs w)) <? 30000)%Z
              && (0 <? size (data (tunnelCache (refs w))))%nat);
      [reflexivity | destruct fetched; reflexivity]. }
  apply (friendlyLine_gives_up (tunnel_id log) _ stamp) in Hgives.
  assert (Hw2 :
    step (step w (FrpcLog now log)) (Settle (length (tasks w)) fetched now' stamp)
    = with_tasks (delete (length (tasks w)) (tasks (step w (FrpcLog now log))))
        (with_refs
           (set_tunnelCache
              (fst (getTunnelById_finish
                      (getTunnelById_start (tunnelCache (refs w)) now (tunnel_id log))
                      fetched (tunnelCache (refs w))))
              (refs (step w (FrpcLog now log))))
           (step w (FrpcLog now log)))).
  { rewrite (settle_unfold _ _ _ fetched now' stamp Hk). cbn zeta.
    rewrite Hc, task_tunnelId_start, Hgives. reflexivity. }
  rewrite Hw2.
  split; [world_simpl; repeat split; try reflexivity; exact Hm |].
  apply quiet_run.
  - exact Hcaught.
  - world_simpl. exact Hm.
  - world_simpl. rewrite Ht, delete_middle, app_nil_r. exact Hpending.
  - exact Hquiet.
Qed.

Lemma synthesized_flag_survives_giving_up_witness :
  let w1 := step fresh (FrpcLog 1 (line 7 marker_success)) in
  let w2 := step w1 (Settle 0 (resolved [tcp_7]) 2 "2026/01/01 00:00:01") in
  let w3 := run w2 [ FrpcLog 3 (line 7 marker_success);
                     SwitchTab 4 "tunnels";
                     FrpcLog 5 (line 8 marker_launched);
                     Settle 0 (rejected None) 6 "2026/01/01 00:00:02" ] in
  bool_decide (7%Z ∈ successLogAdded (refs w1)) = true
  /\ logs w2 = logs w1
  /\ bool_decide (7%Z ∈ successLogAdded (refs w3)) = true
  /\ List.filter (is_addLog_for 7) (effects w3)
     = List.filter (is_addLog_for 7) (effects w2).
Proof.
  destruct (synthesized_flag_survives_giving_up fresh 1 (line 7 marker_success)
              (resolved [tcp_7]) 2 "2026/01/01 00:00:01"
              [ FrpcLog 3 (line 7 marker_success);
                SwitchTab 4 "tunnels";
                FrpcLog 5 (line 8 marker_launched);
                Settle 0 (rejected None) 6 "2026/01/01 00:00:02" ])
    as ((_ & H1 & _) & (H2 & _ & _) & (H3 & _ & H4)).
  - split; [reflexivity | unfold LogStore.maxLogs; cbn; lia].
  - reflexivity.
  - reflexivity.
  - reflexivity.
  - constructor.
  - right. exists tcp_7. split; reflexivity.
  - repeat constructor.
  - repeat split; assumption.
Defined.

(** C10, as stated, fails in its first case.  A fetch that fails is answered
    from the stale cache: the cache was filled 40 seconds earlier with a list
    that holds tunnel 7, a web tunnel; the success line of tunnel 7 finds the
    cache too old and fetches, the fetch rejects, and the friendly line is
    appended.  It also fails when an older synthesis of the tunnel is still
    in flight: the synthesis started after the relaunch finds no tunnel and
    gives up, the mark is set, and then the older one, started before the
    relaunch, appends its friendly line within the epoch. *)
Lemma failed_fetch_is_answered_from_the_stale_cache :
  (let w1 := run fresh
               [ FrpcLog 1 (line 8 marker_success);
                 Settle 0 (resolved [http_7]) 2 "2026/01/01 00:00:01";
                 FrpcLog 40000 (line 7 marker_success) ] in
   let w2 := step w1 (Settle 0 (rejected None) 40001 "2026/01/01 00:00:01") in
   count is_addLog w1 = 0
   /\ length (tasks w1) = 1
   /\ bool_decide (7%Z ∈ successLogAdded (refs w1)) = true
   /\ last (logs w2) = Some MoreSamples.friendly_7
   /\ List.filter (is_addLog_for 7) (effects w2)
      = [logStore_addLog MoreSamples.friendly_7])
  /\ (let w1 := run fresh
                  [ FrpcLog 1 (line 7 marker_success);
                    FrpcLog 2 (line 7 marker_launched);
                    FrpcLog 3 (line 7 marker_success);
                    Settle 1 (resolved []) 4 "2026/01/01 00:00:01" ] in
      let w2 := step w1 (Settle 0 (resolved [http_7]) 5 "2026/01/01 00:00:01") in
      logs w1 = [line 7 marker_success; line 7 marker_launched;
                 line 7 marker_success]
      /\ bool_decide (7%Z ∈ successLogAdded (refs w1)) = true
      /\ length (tasks w1) = 1
      /\ List.filter (is_addLog_for 7) (effects w2)
         = [logStore_addLog MoreSamples.friendly_7]).
Proof. split; vm_compute; repeat split. Qed.

End EpochFacts.

(** ** One success toast per epoch *)

Section ToastFacts.

Import Js Notifications Sample.




End ToastFacts.

Section EpochToasts.

Import Js Notifications Sample.

Variable X : Z.
Variables (w : World) (fetched : settled (list Api.Tunnel)).
Variables (nowS : Z) (stampS : string).
Variables (n1 n2 n3 : Z) (l1 l2 l3 : LogMessage).

Hypothesis Hsync : processedLogsCount (refs w) = length (logs w).
Hypothesis Hroom : length (logs w) + 4 <= LogStore.maxLogs.
Hypothesis Htab : String.eqb (activeTab w) "tunnels" = false.
Hypothesis Hid1 : tunnel_id l1 = X.
Hypothesis Hid2 : tunnel_id l2 = X.
Hypothesis Hid3 : tunnel_id l3 = X.
Hypothesis H1l : includes (message l1) marker_launched = true.
Hypothesis H1s : includes (message l1) marker_success = false.
Hypothesis H2s : includes (message l2) marker_success = true.
Hypothesis H2l : includes (message l2) marker_launched = false.
Hypothesis H3s : includes (message l3) marker_success = true.
Hypothesis H3l : includes (message l3) marker_launched = false.

Let found : option Api.Tunnel :=
  snd (getTunnelById_finish
         (getTunnelById_start (tunnelCache (refs w)) n2 X) fetched
         (tunnelCache (refs w))).

Hypothesis Hinert :
  forall line,
    friendlyLine X found stampS = Some line ->
    includes (message line) marker_launched = false
    /\ includes (message line) marker_success = false.





End EpochToasts.

Section SecondEpoch.

Import Js Notifications Sample.





End SecondEpoch.

(** ** The model on concrete inputs *)

Section Scenarios.

Import Js TunnelList Notifications Sample.

Example includes_marker :
  includes "2026/01/01 [I] 映射启动成功, 感谢使用" marker_success = true
  /\ includes "映射启动成功" tag_started = true
  /\ includes "映射启动" marker_success = false
  /\ includes "" "" = true.
Proof. repeat split. Qed.

Example toLowerCase_type :
  toLowerCase "HTTPS" = "https" /\ isWebType (Some (toLowerCase "Http")) = true
  /\ isWebType (Some "tcp") = false /\ isWebType None = false.
Proof. repeat split. Qed.

Example withTimeout_cases :
  withTimeout (Fulfils 120 true) 3000 = Fulfils 120 true
  /\ withTimeout (Fulfils 3000 true) 3000 = Fulfils 3000 true
  /\ withTimeout (Fulfils 4000 true) 3000 = Fulfils 3000 false
  /\ withTimeout (Rejects 10 None) 3000 = Fulfils 10 false
  /\ withTimeout Never 3000 = Fulfils 3000 false.
Proof. repeat split. Qed.

Example promise_all_cases :
  Promise_all [Fulfils 5 1; Fulfils 9 2] = Fulfils 9 [1; 2]
  /\ Promise_all [Fulfils 5 1; Never; Rejects 7 None] = Rejects 7 None
  /\ Promise_all [Fulfils 5 1; Never] = Never.
Proof. repeat split. Qed.

Example slice_keeps_the_tail :
  LogStore.slice_last 2 [line 1 "a"; line 2 "b"; line 3 "c"]
  = [line 2 "b"; line 3 "c"].
Proof. reflexivity. Qed.

(** The catalog holds one provisioned http tunnel bound to a.example.com; the
    process starts and the mapping succeeds: one toast, and the store gains a
    line that names the domain. *)
Example http_tunnel_scenario :
  let w :=
    run fresh
      [ FrpcLog 1 (line 7 marker_launched);
        FrpcLog 2 (line 7 marker_success);
        Settle 0 (resolved [http_7]) 3 "2026/01/01 00:00:01" ] in
  count is_toast_success w = 1
  /\ option_map (fun log => includes (message log) "a.example.com")
       (last (logs w))
     = Some true
  /\ length (logs w) = 3
  /\ tasks w = [].
Proof. repeat split; vm_compute; reflexivity. Qed.

(** In the log view the toast is suppressed, the friendly line is not. *)
Example log_view_scenario :
  let w :=
    run (mount 0 "tunnels" None [])
      [ FrpcLog 1 (line 7 marker_launched);
        FrpcLog 2 (line 7 marker_success);
        Settle 0 (resolved [http_7]) 3 "2026/01/01 00:00:01" ] in
  count is_toast w = 0 /\ count is_addLog w = 1.
Proof. repeat split; vm_compute; reflexivity. Qed.

(** A failed start raises the error toast once per epoch. *)
Example failed_start_scenario :
  let w :=
    run fresh
      [ FrpcLog 1 (line 7 marker_launched);
        FrpcLog 2 (line 7 ("[E] " +:+ marker_failed));
        FrpcLog 3 (line 7 ("[E] " +:+ marker_failed)) ] in
  effects w
  = [playTunnelSound "error" true; toast_error "隧道启动失败，请查看日志" 6000].
Proof. vm_compute. reflexivity. Qed.

End Scenarios.

(** * Further properties *)

(** ** The log store and its listeners *)

Section SubscriptionFacts.

Import Subscriptions.

Ltac sys_simpl :=
  cbn [logs listeners isListening unlisten pending handlers nextHandle
       delivered notifyListeners subscribe unsubscribe set_logs
       Subscriptions.addLog Subscriptions.clearLogs listenToLogs] in *.

Lemma receivedBy_app l s extra :
  map snd (List.filter (fun d => Nat.eqb (fst d) l) (delivered s ++ extra))
  = receivedBy l s
    ++ map snd (List.filter (fun d => Nat.eqb (fst d) l) extra).
Proof. unfold receivedBy. rewrite List.filter_app, map_app. reflexivity. Qed.

(** What one round of notifications gives to [l]. *)
Lemma round_for (l : Listener) (ls : list Listener) (content : list LogMessage) :
  map snd (List.filter (fun d => Nat.eqb (fst d) l)
             (map (fun l' => (l', content)) ls))
  = replicate (length (List.filter (Nat.eqb l) ls)) content.
Proof.
  induction ls as [| l' ls IH]; [reflexivity |].
  cbn [map List.filter fst]. rewrite (Nat.eqb_sym l' l).
  destruct (Nat.eqb l l'); cbn [map snd length replicate]; rewrite IH; reflexivity.
Qed.

Lemma existsb_filter_length (l : Listener) (ls : list Listener) :
  existsb (Nat.eqb l) ls = (0 <? length (List.filter (Nat.eqb l) ls))%nat.
Proof.
  induction ls as [| l' ls IH]; [reflexivity |].
  cbn [existsb List.filter]. destruct (Nat.eqb l l'); [reflexivity |].
  cbn [orb]. exact IH.
Qed.

Lemma isSubscribed_setAdd l l' ls :
  existsb (Nat.eqb l) (setAdd l' ls)
  = Nat.eqb l l' || existsb (Nat.eqb l) ls.
Proof.
  unfold setAdd. destruct (existsb (Nat.eqb l') ls) eqn:Hin.
  - destruct (Nat.eqb_spec l l') as [-> | _]; [rewrite Hin |]; reflexivity.
  - rewrite existsb_app. cbn [existsb]. rewrite orb_false_r.
    apply orb_comm.
Qed.

Lemma isSubscribed_setDelete l l' ls :
  existsb (Nat.eqb l) (setDelete l' ls)
  = negb (Nat.eqb l l') && existsb (Nat.eqb l) ls.
Proof.
  unfold setDelete. induction ls as [| x ls IH]; cbn [List.filter existsb].
  - rewrite andb_false_r. reflexivity.
  - destruct (Nat.eqb_spec l' x) as [<- | Hne]; cbn [negb existsb].
    + rewrite IH. destruct (Nat.eqb_spec l l') as [-> | _]; reflexivity.
    + rewrite IH. destruct (Nat.eqb_spec l x) as [-> | _]; cbn [orb].
      * destruct (Nat.eqb_spec x l') as [Heq | _]; [congruence | reflexivity].
      * reflexivity.
Qed.

Lemma notified_upToDate s content :
  length content <= LogStore.maxLogs ->
  Forall (fun d => length (snd d) <= LogStore.maxLogs) (delivered s) ->
  upToDate (notifyListeners (set_logs content s)).
Proof.
  intros Hlen Hold. unfold upToDate. sys_simpl. split; [exact Hlen |]. split.
  - apply Forall_app. split; [exact Hold |].
    apply Forall_forall. intros d Hd. apply list_elem_of_fmap in Hd.
    destruct Hd as (l & -> & _). exact Hlen.
  - intros l Hsub. unfold isSubscribed in Hsub. sys_simpl.
    unfold receivedBy. sys_simpl.
    rewrite (receivedBy_app l s), round_for.
    rewrite existsb_filter_length in Hsub. apply Nat.ltb_lt in Hsub.
    destruct (length (List.filter (Nat.eqb l) (listeners s))) as [| n]; [lia |].
    rewrite last_app.
    replace (S n) with (n + 1) by lia. rewrite replicate_add. cbn [replicate].
    rewrite last_snoc. reflexivity.
Qed.

Lemma addLog_upToDate s log : upToDate s -> upToDate (Subscriptions.addLog log s).
Proof.
  intros (Hlen & Hold & _). apply notified_upToDate; [| exact Hold].
  rewrite addLog_length. lia.
Qed.

Lemma step_upToDate s o : upToDate s -> upToDate (step s o).
Proof.
  intros Hs. pose proof Hs as (Hlen & Hold & Hlast).
  destruct o as [l | l | log | | | | | log]; cbn [step].
  - unfold upToDate. sys_simpl. split; [exact Hlen |]. split.
    + apply Forall_app. split; [exact Hold |].
      constructor; [exact Hlen | constructor].
    + intros l' Hsub. unfold isSubscribed in Hsub. sys_simpl.
      rewrite isSubscribed_setAdd in Hsub. unfold receivedBy. sys_simpl.
      rewrite (receivedBy_app l' s). cbn [List.filter fst map snd].
      rewrite (Nat.eqb_sym l l').
      destruct (Nat.eqb l' l); cbn [orb map] in *.
      * rewrite last_snoc. reflexivity.
      * rewrite app_nil_r. apply Hlast. exact Hsub.
  - unfold upToDate. sys_simpl. split; [exact Hlen |]. split; [exact Hold |].
    intros l' Hsub. unfold isSubscribed in Hsub. sys_simpl.
    rewrite isSubscribed_setDelete in Hsub. apply andb_true_iff in Hsub.
    apply Hlast, Hsub.
  - apply addLog_upToDate, Hs.
  - unfold Subscriptions.clearLogs. apply notified_upToDate; [| exact Hold].
    cbn. lia.
  - unfold startListening. destruct (isListening s); exact Hs.
  - unfold listenResolved. destruct (pending s); exact Hs.
  - unfold stopListening. destruct (unlisten s); exact Hs.
  - unfold nativeLog.
    assert (Hfold : forall hs s0, upToDate s0 ->
              upToDate (fold_left (fun acc (_ : nat) => Subscriptions.addLog log acc) hs s0)).
    { induction hs as [| h hs IH]; intros s0 H0; cbn [fold_left]; [exact H0 |].
      apply IH, addLog_upToDate, H0. }
    apply Hfold, Hs.
Qed.

Lemma run_upToDate ops : forall s, upToDate s -> upToDate (run s ops).
Proof.
  induction ops as [| o ops IH]; intros s Hs; [exact Hs |].
  apply IH, step_upToDate, Hs.
Qed.

Lemma initial_upToDate : upToDate initial.
Proof.
  unfold upToDate. cbn. split; [lia |]. split; [constructor | discriminate].
Qed.

(** X1.  Whatever is done to the store, a subscribed listener's latest
    snapshot is the present content of the store, and no snapshot ever given
    to a listener has more than 5000 lines. *)
Theorem listeners_hold_the_present_content (ops : list op) (l : Listener) :
  let s := run initial ops in
  Forall (fun d => length (snd d) <= 5000) (delivered s)
  /\ (if isSubscribed l s
      then last (receivedBy l s) = Some (logs s)
      else True).
Proof.
  cbn zeta.
  destruct (run_upToDate ops initial initial_upToDate) as (_ & Hold & Hlast).
  split; [exact Hold |].
  destruct (isSubscribed l (run initial ops)) eqn:Hsub; [| exact I].
  apply Hlast, Hsub.
Qed.

Lemma step_unsubscribed l s o :
  isSubscribed l s = false ->
  subscribesb l o = false ->
  isSubscribed l (step s o) = false /\ receivedBy l (step s o) = receivedBy l s.
Proof.
  intros Hout Hop. unfold isSubscribed in *.
  assert (Hnotify : forall content s0,
            existsb (Nat.eqb l) (listeners s0) = false ->
            receivedBy l (notifyListeners (set_logs content s0)) = receivedBy l s0).
  { intros content s0 H0. unfold receivedBy. sys_simpl.
    rewrite (receivedBy_app l s0), round_for.
    rewrite existsb_filter_length in H0. apply Nat.ltb_ge in H0.
    replace (length (List.filter (Nat.eqb l) (listeners s0))) with 0 by lia.
    apply app_nil_r. }
  destruct o as [l' | l' | log | | | | | log]; cbn [step subscribesb] in *.
  - sys_simpl. rewrite isSubscribed_setAdd, Hop, Hout. split; [reflexivity |].
    unfold receivedBy. sys_simpl. rewrite (receivedBy_app l s).
    cbn [List.filter fst]. rewrite (Nat.eqb_sym l' l), Hop. apply app_nil_r.
  - sys_simpl. rewrite isSubscribed_setDelete, Hout, andb_false_r.
    split; reflexivity.
  - split; [exact Hout | apply Hnotify, Hout].
  - split; [exact Hout | apply Hnotify, Hout].
  - unfold startListening. destruct (isListening s); split; try assumption; reflexivity.
  - unfold listenResolved. destruct (pending s); split; try assumption; reflexivity.
  - unfold stopListening. destruct (unlisten s); split; try assumption; reflexivity.
  - unfold nativeLog.
    assert (Hfold : forall hs s0,
              existsb (Nat.eqb l) (listeners s0) = false ->
              let s1 := fold_left (fun acc (_ : nat) => Subscriptions.addLog log acc) hs s0 in
              existsb (Nat.eqb l) (listeners s1) = false
              /\ receivedBy l s1 = receivedBy l s0).
    { induction hs as [| h hs IH]; intros s0 H0; cbn [fold_left]; [split; auto |].
      destruct (IH (Subscriptions.addLog log s0) H0) as [I1 I2].
      cbn zeta in *. split; [exact I1 |]. rewrite I2. apply Hnotify, H0. }
    apply Hfold, Hout.
Qed.

(** X2.  Once a listener has unsubscribed it is given nothing more, whatever
    happens to the store, until it subscribes again. *)
Theorem unsubscribed_listener_gets_nothing
    (s : System) (l : Listener) (ops : list op) :
  Forall (fun o => subscribesb l o = false) ops ->
  receivedBy l (run (unsubscribe l s) ops) = receivedBy l s.
Proof.
  intros Hops.
  assert (Hgen : forall ops0 s0,
            isSubscribed l s0 = false ->
            Forall (fun o => subscribesb l o = false) ops0 ->
            receivedBy l (run s0 ops0) = receivedBy l s0).
  { induction ops0 as [| o ops0 IH]; intros s0 H0 Hall; [reflexivity |].
    inversion Hall as [| o' ops' Ho Hrest]; subst.
    destruct (step_unsubscribed l s0 o H0 Ho) as [H1 H2].
    cbn [run fold_left]. fold (run (step s0 o) ops0).
    rewrite (IH _ H1 Hrest). exact H2. }
  rewrite Hgen; [reflexivity | | exact Hops].
  unfold isSubscribed. sys_simpl. rewrite isSubscribed_setDelete, Nat.eqb_refl.
  reflexivity.
Qed.

Lemma unsubscribed_listener_gets_nothing_witness :
  let s := run initial [Subscribe 1; Subscribe 2; AddLog (Sample.line 7 "a")] in
  receivedBy 1
    (run (unsubscribe 1 s)
       [AddLog (Sample.line 7 "b"); ClearLogs; Subscribe 2; Unsubscribe 1])
  = receivedBy 1 s.
Proof.
  apply (unsubscribed_listener_gets_nothing _ 1). repeat constructor.
Defined.

Lemma addLog_registration log s :
  pending (Subscriptions.addLog log s) = pending s
  /\ handlers (Subscriptions.addLog log s) = handlers s
  /\ isListening (Subscriptions.addLog log s) = isListening s
  /\ unlisten (Subscriptions.addLog log s) = unlisten s.
Proof. repeat split. Qed.

Lemma nativeLog_registration log s :
  pending (nativeLog log s) = pending s
  /\ handlers (nativeLog log s) = handlers s
  /\ isListening (nativeLog log s) = isListening s
  /\ unlisten (nativeLog log s) = unlisten s.
Proof.
  unfold nativeLog.
  assert (Hfold : forall hs s0,
            let s1 := fold_left (fun acc (_ : nat) => Subscriptions.addLog log acc) hs s0 in
            pending s1 = pending s0 /\ handlers s1 = handlers s0
            /\ isListening s1 = isListening s0 /\ unlisten s1 = unlisten s0).
  { induction hs as [| h hs IH]; intros s0; cbn [fold_left].
    - repeat split.
    - destruct (IH (Subscriptions.addLog log s0)) as (H1 & H2 & H3 & H4).
      repeat split; assumption. }
  apply Hfold.
Qed.

Lemma step_singleRegistration s o :
  singleRegistration s -> singleRegistration (step s o).
Proof.
  intros Hs. pose proof Hs as (Hone & Hoff & Hheld). unfold singleRegistration.
  destruct o as [l | l | log | | | | | log]; cbn [step];
    try (sys_simpl; exact Hs).
  - unfold startListening. destruct (isListening s) eqn:Hon; [exact Hs |].
    destruct (Hoff eq_refl) as [Hp Hh]. sys_simpl. rewrite Hp, Hh.
    assert (Hnone : match unlisten s with
                    | Some h => setDelete h []
                    | None => []
                    end = []) by (destruct (unlisten s); reflexivity).
    rewrite Hnone. cbn [length]. split; [lia |]. split; [discriminate |].
    left. reflexivity.
  - unfold listenResolved. destruct (pending s) as [| rest] eqn:Hp; [exact Hs |].
    assert (Hh : handlers s = []).
    { destruct (handlers s); [reflexivity | cbn in Hone; lia]. }
    sys_simpl. rewrite Hh in *. cbn [app length]. split; [cbn in Hone; lia |].
    split.
    + intros Hfalse. destruct (Hoff Hfalse). discriminate.
    + right. eauto.
  - unfold stopListening. destruct (unlisten s) as [h |] eqn:Hu; [| exact Hs].
    sys_simpl.
    assert (Hnone : setDelete h (handlers s) = []).
    { destruct Hheld as [-> | (h' & -> & Hu')]; [reflexivity |].
      assert (h' = h) by congruence. subst h'.
      unfold setDelete. cbn [List.filter]. rewrite Nat.eqb_refl. reflexivity. }
    rewrite Hnone. cbn [length]. split; [lia |]. split.
    + intros Hfalse. destruct (Hoff Hfalse) as [Hp _]. split; [exact Hp | reflexivity].
    + left. reflexivity.
  - destruct (nativeLog_registration log s) as (H1 & H2 & H3 & H4).
    rewrite H1, H2, H3, H4. exact Hs.
Qed.

Lemma run_singleRegistration ops :
  forall s, singleRegistration s -> singleRegistration (run s ops).
Proof.
  induction ops as [| o ops IH]; intros s Hs; [exact Hs |].
  apply IH, step_singleRegistration, Hs.
Qed.

Lemma initial_singleRegistration : singleRegistration initial.
Proof.
  unfold singleRegistration. cbn. repeat split; try lia. left. reflexivity.
Qed.

(** X3.  However often [startListening] is called, at most one handler of
    "frpc-log" is ever registered, so a line the native layer emits is
    appended exactly once when the handler is registered and not at all
    otherwise: never twice. *)
Theorem native_lines_are_appended_once (ops : list op) (log : LogMessage) :
  let s := run initial ops in
  pending s + length (handlers s) <= 1
  /\ logs (step s (NativeLog log))
     = match handlers s with
       | [] => logs s
       | _ :: _ => LogStore.addLog (logs s) log
       end.
Proof.
  cbn zeta.
  destruct (run_singleRegistration ops initial initial_singleRegistration)
    as (Hone & _ & Hheld).
  split; [exact Hone |]. cbn [step]. unfold nativeLog.
  destruct Hheld as [-> | (h & -> & _)]; reflexivity.
Qed.

(** X4.  After [stopListening], a store that had started listening never
    listens again: [startListening] returns at its guard, no handler is
    registered, and every line the native layer emits is lost. *)
Theorem stopped_store_never_listens_again
    (before after : list op) (log : LogMessage) :
  let s := run initial before in
  isListening s = true ->
  pending s = 0 ->
  let s' := run (stopListening s) after in
  handlers s' = [] /\ logs (step s' (NativeLog log)) = logs s'.
Proof.
  cbn zeta. intros Hon Hp.
  destruct (run_singleRegistration before initial initial_singleRegistration)
    as (_ & _ & Hheld).
  set (s := run initial before) in *.
  assert (Hdead : isListening (stopListening s) = true
                  /\ pending (stopListening s) = 0
                  /\ handlers (stopListening s) = []).
  { unfold stopListening. destruct (unlisten s) as [h |] eqn:Hu.
    - sys_simpl. repeat split; try assumption.
      destruct Hheld as [-> | (h' & -> & Hu')]; [reflexivity |].
      assert (h' = h) by congruence. subst h'.
      unfold setDelete. cbn [List.filter]. rewrite Nat.eqb_refl. reflexivity.
    - repeat split; try assumption.
      destruct Hheld as [Hh | (h' & _ & Hu')]; [exact Hh | congruence]. }
  assert (Hstay : forall ops0 s0,
            isListening s0 = true /\ pending s0 = 0 /\ handlers s0 = [] ->
            isListening (run s0 ops0) = true /\ pending (run s0 ops0) = 0
            /\ handlers (run s0 ops0) = []).
  { induction ops0 as [| o ops0 IH]; intros s0 H0; [exact H0 |].
    cbn [run fold_left]. fold (run (step s0 o) ops0). apply IH.
    destruct H0 as (Ha & Hb & Hc).
    destruct o as [l | l | l0 | | | | | l0]; cbn [step];
      try (sys_simpl; repeat split; assumption).
    - unfold startListening. rewrite Ha. repeat split; assumption.
    - unfold listenResolved. rewrite Hb. repeat split; assumption.
    - unfold stopListening. destruct (unlisten s0); sys_simpl;
        [rewrite Hc |]; repeat split; assumption.
    - destruct (nativeLog_registration l0 s0) as (H1 & H2 & H3 & _).
      rewrite H1, H2, H3. repeat split; assumption. }
  destruct (Hstay after _ Hdead) as (_ & _ & Hnone).
  split; [exact Hnone |]. cbn [step]. unfold nativeLog. rewrite Hnone. reflexivity.
Qed.

Lemma stopped_store_never_listens_again_witness :
  let s := run initial [StartListening; ListenResolved;
                        NativeLog (Sample.line 7 "a")] in
  let s' := run (stopListening s)
              [Subscribe 1; StartListening; ListenResolved] in
  logs s = [Sample.line 7 "a"]
  /\ handlers s' = []
  /\ logs (step s' (NativeLog (Sample.line 7 "b"))) = logs s'.
Proof.
  split; [reflexivity |].
  apply (stopped_store_never_listens_again
           [StartListening; ListenResolved; NativeLog (Sample.line 7 "a")]
           [Subscribe 1; StartListening; ListenResolved] (Sample.line 7 "b"));
    reflexivity.
Defined.

End SubscriptionFacts.

(** ** The tunnel list: the running set and the load *)

Lemma gset_union_step (k : string) (L acc : gset string) :
  L ∪ ({[k]} ∪ acc) = {[k]} ∪ L ∪ acc.
Proof. rewrite (union_comm_L {[k]} L). apply union_assoc_L. Qed.

(** The catalog and the cache a load leaves, for any pair of settled fetches. *)
Lemma load_leaves_catalog_and_cache
    (s : TunnelList.State) (ta tc : nat)
    (ra : Js.settled (list Api.Tunnel))
    (rc : Js.settled (list Custom.CustomTunnel))
    (nat_layer : FrpcManager.Native) (customRunning : Z -> Js.promise bool) :
  let env :=
    {| TunnelList.fetchTunnels := Js.settle_at ta ra;
       TunnelList.getCustomTunnels := Js.settle_at tc rc;
       TunnelList.native := nat_layer;
       TunnelList.isCustomTunnelRunning := customRunning |} in
  exists t s',
    TunnelList.loadTunnels env s = TunnelList.Completed t s'
    /\ TunnelList.tunnels s'
       = map api (Js.or_empty ra) ++ map custom (Js.or_empty rc)
    /\ TunnelList.cache_tunnels s' = Js.or_empty ra.
Proof.
  intros env. unfold TunnelList.loadTunnels.
  assert (Hfetch :
    Js.Promise_all2 (Js.catch (TunnelList.fetchTunnels env) (fun _ => []))
                    (Js.catch (TunnelList.getCustomTunnels env) (fun _ => []))
    = Js.Fulfils (Nat.max ta tc) (Js.or_empty ra, Js.or_empty rc)).
  { destruct ra, rc; reflexivity. }
  rewrite Hfetch.
  destruct (guarded_fanout_joins env
              (map api (Js.or_empty ra) ++ map custom (Js.or_empty rc)))
    as (t & added & -> & _ & _).
  eexists _, _. split; [reflexivity |]. split; reflexivity.
Qed.


Section TunnelListMoreFacts.

Import Js TunnelList TunnelListMore.

Lemma pollEach_fulfilled env todo :
  Forall (fun tunnel => fulfilsb (isRunning env tunnel) = true) todo ->
  forall running,
    pollEach env todo running
    = Fulfils (totalTime env todo) (runningKeys env todo ∪ running).
Proof.
  induction 1 as [| tunnel todo Hhead _ IH]; intros running.
  - cbn. f_equal. unfold runningKeys. cbn. symmetry. apply union_empty_l_L.
  - cbn [pollEach totalTime fold_right]. unfold runningKeys, answersTrue in *.
    cbn [List.filter].
    destruct (isRunning env tunnel) as [t v | t e |]; try discriminate.
    cbn [await settleTime]. rewrite IH. cbn [delay]. f_equal.
    destruct v; cbn [map list_to_set]; [apply gset_union_step | reflexivity].
Qed.

Lemma runningKeys_spec env todo key :
  key ∈ runningKeys env todo
  <-> exists tunnel,
        In tunnel todo /\ tunnelKey tunnel = key /\ answersTrue env tunnel = true.
Proof.
  unfold runningKeys. rewrite elem_of_list_to_set, list_elem_of_fmap. split.
  - intros (tunnel & -> & Hin). apply list_elem_of_In, filter_In in Hin.
    destruct Hin as [Hin Hans]. eauto.
  - intros (tunnel & Hin & <- & Hans). exists tunnel. split; [reflexivity |].
    apply list_elem_of_In, filter_In. split; assumption.
Qed.

(** X5.  When every status query fulfils, the periodic pass and the pass run
    on "tunnel-auto-restarted" both complete after the sum of the query
    times, and replace the running set by exactly the keys of the catalog
    tunnels that answered [true]: a key that was in the set before and whose
    tunnel did not answer [true], or is no longer in the catalog, is gone. *)
Theorem sequential_pass_replaces_running_set (env : Env) (s : State) :
  Forall (fun tunnel => fulfilsb (isRunning env tunnel) = true) (tunnels s) ->
  checkRunningStatus env s
  = Completed (totalTime env (tunnels s))
      (setRunningTunnels (runningKeys env (tunnels s)) s)
  /\ onAutoRestarted env (tunnels s) s = checkRunningStatus env s
  /\ forall key,
       key ∈ runningKeys env (tunnels s)
       <-> exists tunnel,
             In tunnel (tunnels s) /\ tunnelKey tunnel = key
             /\ answersTrue env tunnel = true.
Proof.
  intros Hall. split; [| split; [reflexivity | apply runningKeys_spec]].
  unfold checkRunningStatus. rewrite (pollEach_fulfilled env _ Hall ∅).
  rewrite union_empty_r_L. reflexivity.
Qed.

Lemma sequential_pass_replaces_running_set_witness :
  let env :=
    {| fetchTunnels := Never; getCustomTunnels := Never;
       native :=
         {| FrpcManager.is_frpc_running := fun _ => Rejects 30 None;
            FrpcManager.get_running_tunnels := Never;
            FrpcManager.resolve_domain_to_ip := fun _ => Never;
            FrpcManager.stop_frpc := fun _ => Never |};
       isCustomTunnelRunning := fun _ => Fulfils 20 true |} in
  let s :=
    {| tunnels := [MoreSamples.api_3; MoreSamples.custom_9]; loading := false;
       error := ""; runningTunnels := {["api_3"; "custom_1"]};
       cache_tunnels := [] |} in
  checkRunningStatus env s
  = Completed 50 (setRunningTunnels (runningKeys env (tunnels s)) s)
  /\ "custom_9" ∈ runningKeys env (tunnels s).
Proof.
  intros env s.
  destruct (sequential_pass_replaces_running_set env s) as (Hpass & _ & Hkeys).
  - repeat constructor.
  - split; [exact Hpass |]. apply Hkeys. exists MoreSamples.custom_9.
    split; [right; left; reflexivity | split; reflexivity].
Defined.

Lemma guardedQuery_value env tunnel :
  exists t,
    guardedQuery env tunnel
    = Fulfils t (if answersTrueWithin 3000 env tunnel
                 then Some (tunnelKey tunnel) else None)
    /\ t <= 3000.
Proof.
  unfold guardedQuery, answersTrueWithin, withTimeout.
  destruct (isRunning env tunnel) as [t v | t e |].
  - destruct (Nat.leb_spec t 3000); cbn [await delay].
    + exists (t + 0). destruct v; split; try reflexivity; lia.
    + exists (3000 + 0). destruct v; split; try reflexivity; lia.
  - destruct (Nat.leb_spec t 3000); cbn [await delay].
    + exists (t + 0). split; [reflexivity | lia].
    + exists (3000 + 0). split; [reflexivity | lia].
  - cbn [await delay]. exists (3000 + 0). split; [reflexivity | lia].
Qed.

Lemma guarded_fanout_value env (todo : list UnifiedTunnel) :
  exists t,
    Promise_all (map (guardedQuery env) todo)
    = Fulfils t
        (map (fun tunnel =>
                if answersTrueWithin 3000 env tunnel
                then Some (tunnelKey tunnel) else None) todo)
    /\ t <= 3000.
Proof.
  unfold Promise_all.
  assert (H : first_rejection (map (guardedQuery env) todo) = None
              /\ exists t,
                   all_fulfilled (map (guardedQuery env) todo)
                   = Some (t, map (fun tunnel =>
                                     if answersTrueWithin 3000 env tunnel
                                     then Some (tunnelKey tunnel) else None) todo)
                   /\ t <= 3000).
  { induction todo as [| tunnel todo [IHr (t & IHf & Ht)]].
    - split; [reflexivity |]. exists 0. split; [reflexivity | lia].
    - cbn [map first_rejection all_fulfilled].
      destruct (guardedQuery_value env tunnel) as (t0 & -> & Ht0).
      rewrite IHr, IHf. split; [reflexivity |].
      exists (Nat.max t0 t). split; [reflexivity | lia]. }
  destruct H as (-> & t & -> & Ht). eauto.
Qed.

Lemma collect_guarded env (todo : list UnifiedTunnel) :
  collect (map (fun tunnel =>
                  if answersTrueWithin 3000 env tunnel
                  then Some (tunnelKey tunnel) else None) todo)
  = guardedKeys env todo.
Proof.
  unfold collect, guardedKeys.
  assert (Hgen : forall acc : gset string,
            fold_left
              (fun running k =>
                 match k with Some key => {[key]} ∪ running | None => running end)
              (map (fun tunnel =>
                      if answersTrueWithin 3000 env tunnel
                      then Some (tunnelKey tunnel) else None) todo) acc
            = list_to_set
                (map tunnelKey (List.filter (answersTrueWithin 3000 env) todo))
              ∪ acc).
  { induction todo as [| tunnel todo IH]; intros acc; cbn [map fold_left List.filter].
    - cbn [list_to_set]. symmetry. apply union_empty_l_L.
    - rewrite IH. destruct (answersTrueWithin 3000 env tunnel);
        cbn [map list_to_set]; [apply gset_union_step | reflexivity]. }
  rewrite Hgen. apply union_empty_r_L.
Qed.

Lemma answersTrueWithin_spec timeoutMs env tunnel :
  answersTrueWithin timeoutMs env tunnel = true
  <-> exists tq, isRunning env tunnel = Fulfils tq true /\ tq <= timeoutMs.
Proof.
  unfold answersTrueWithin. split.
  - destruct (isRunning env tunnel) as [t [|] | t e |]; try discriminate.
    intros H. apply Nat.leb_le in H. eauto.
  - intros (tq & -> & Htq). apply Nat.leb_le. exact Htq.
Qed.

(** X6.  After [loadTunnels], whatever way the two fetches settle, the
    running set holds exactly the keys of the catalog tunnels whose query
    answered [true] within 3000 ms, a reply at exactly 3000 ms included (a
    query that is later, rejects or never answers leaves its tunnel out), and
    the call is over at most 3000 ms after the later fetch. *)
Theorem load_running_set_is_the_timely_answers
    (s : State) (ta tc : nat)
    (ra : settled (list Api.Tunnel)) (rc : settled (list Custom.CustomTunnel))
    (nat_layer : FrpcManager.Native) (customRunning : Z -> promise bool) :
  let env :=
    {| fetchTunnels := settle_at ta ra; getCustomTunnels := settle_at tc rc;
       native := nat_layer; isCustomTunnelRunning := customRunning |} in
  let catalog := map api (or_empty ra) ++ map custom (or_empty rc) in
  exists t s',
    loadTunnels env s = Completed t s'
    /\ t <= Nat.max ta tc + 3000
    /\ runningTunnels s' = guardedKeys env catalog
    /\ forall key,
         key ∈ runningTunnels s'
         <-> exists tunnel tq,
               In tunnel catalog /\ tunnelKey tunnel = key
               /\ isRunning env tunnel = Fulfils tq true /\ tq <= 3000.
Proof.
  intros env catalog. unfold loadTunnels.
  assert (Hfetch :
    Promise_all2 (catch (fetchTunnels env) (fun _ => []))
                 (catch (getCustomTunnels env) (fun _ => []))
    = Fulfils (Nat.max ta tc) (or_empty ra, or_empty rc)).
  { destruct ra, rc; reflexivity. }
  rewrite Hfetch. fold catalog.
  destruct (guarded_fanout_value env catalog) as (t & -> & Ht).
  eexists _, _. split; [reflexivity |]. split; [lia |].
  cbn [runningTunnels setLoading setRunningTunnels]. rewrite collect_guarded.
  split; [reflexivity |].
  intros key. unfold guardedKeys.
  rewrite elem_of_list_to_set, list_elem_of_fmap. split.
  - intros (tunnel & -> & Hin). apply list_elem_of_In, filter_In in Hin.
    destruct Hin as [Hin Hans].
    apply answersTrueWithin_spec in Hans. destruct Hans as (tq & Hq & Htq).
    exists tunnel, tq. repeat split; assumption.
  - intros (tunnel & tq & Hin & <- & Hq & Htq). exists tunnel.
    split; [reflexivity |].
    apply list_elem_of_In, filter_In. split; [exact Hin |].
    apply answersTrueWithin_spec. exists tq. split; assumption.
Qed.

(** X7.  [loadTunnels] never rejects and never leaves an error message,
    whatever the fetches and the queries do: its [catch] block cannot be
    reached.  It either completes with [loading] off, or stays suspended
    because one of the two fetches never settles, and then [loading] stays on
    and the catalog is the one it had. *)
Theorem load_never_reports_an_error (env : Env) (s : State) :
  match loadTunnels env s with
  | Completed _ s' => error s' = "" /\ loading s' = false
  | Suspended s' =>
      (fetchTunnels env = Never \/ getCustomTunnels env = Never)
      /\ error s' = "" /\ loading s' = true /\ tunnels s' = tunnels s
  | Failed _ _ _ => False
  end.
Proof.
  unfold loadTunnels.
  destruct (fetchTunnels env) as [ta a | ta ea |] eqn:Ha;
    destruct (getCustomTunnels env) as [tc c | tc ec |] eqn:Hc;
    cbn [catch Promise_all2];
    try (repeat split; auto; fail);
    match goal with
    | |- context [Promise_all (map (guardedQuery env) ?todo)] =>
        destruct (guarded_fanout_joins env todo) as (t & added & -> & _ & _)
    end;
    split; reflexivity.
Qed.

(** X8.  The catalog a remount starts from is the provisioned tunnels of
    the last completed load alone: the custom tunnels of that load are not
    in it, no tunnel counts as running, and the hook shows itself as loading
    exactly when that load brought no provisioned tunnel. *)
Theorem remount_starts_from_the_provisioned_cache
    (s : State) (ta tc : nat)
    (ra : settled (list Api.Tunnel)) (rc : settled (list Custom.CustomTunnel))
    (nat_layer : FrpcManager.Native) (customRunning : Z -> promise bool) :
  let env :=
    {| fetchTunnels := settle_at ta ra; getCustomTunnels := settle_at tc rc;
       native := nat_layer; isCustomTunnelRunning := customRunning |} in
  let loaded := stateOf (loadTunnels env s) in
  let again := initialState (cache_tunnels loaded) in
  tunnels loaded = map api (or_empty ra) ++ map custom (or_empty rc)
  /\ tunnels again = map api (or_empty ra)
  /\ runningTunnels again = ∅
  /\ loading again = (length (or_empty ra) =? 0)%nat.
Proof.
  intros env loaded again.
  destruct (load_leaves_catalog_and_cache s ta tc ra rc nat_layer customRunning)
    as (t & s' & Hload & Hcat & Hcache).
  unfold again, loaded. fold env in Hload. rewrite Hload. cbn [stateOf].
  rewrite Hcache. repeat split. exact Hcat.
Qed.

End TunnelListMoreFacts.

(** ** One call of [autoStart] from beginning to end *)

Section AutoStartMoreFacts.

Import Js AutoStart AutoStartMore.

Ltac hook_simpl :=
  cbn [hasAutoStarted tunnelsRef runningTunnelsRef onToggleRef deps runs
       toggled markDone set_run spawn record_toggle set_props] in *.

Lemma fired_returned h k :
  runs h !! k = Some Returned -> step h (TimerFired k) = h.
Proof. intros Hk. cbn [step]. rewrite Hk. reflexivity. Qed.

Lemma firings_returned n h k :
  runs h !! k = Some Returned -> run h (firings n k) = h.
Proof.
  intros Hk. induction n as [| n IH]; [reflexivity |].
  unfold firings, run in *. cbn [replicate fold_left].
  rewrite (fired_returned h k Hk). exact IH.
Qed.

(** The loop of call [k], resumed as often as it has tunnels left, toggles
    the wanted tunnels of [todo] in order and marks the hook done. *)
Lemma loop_runs_to_the_end k running toggle autoStartSet :
  (forall tunnel, toggle tunnel true = resolved tt) ->
  forall todo h n,
    k < length (runs h) ->
    length todo <= n ->
    let h' := run (autoStartLoop k todo running toggle autoStartSet h)
                (firings n k) in
    toggled h'
    = toggled h ++ map (pair k) (List.filter (wanted autoStartSet running) todo)
    /\ hasAutoStarted h' = true
    /\ runs h' = <[k := Returned]> (runs h).
Proof.
  intros Hok. induction todo as [| tunnel todo IH]; intros h n Hk Hn.
  - cbn [autoStartLoop List.filter map]. cbn zeta.
    rewrite firings_returned.
    + hook_simpl. rewrite app_nil_r. repeat split.
    + hook_simpl. apply list_lookup_insert_eq. exact Hk.
  - cbn [autoStartLoop List.filter length] in *. unfold wanted at 1.
    destruct (bool_decide (tunnelKey tunnel ∈ autoStartSet)); cbn [negb andb];
      [| apply IH; [exact Hk | lia]].
    destruct (bool_decide (tunnelKey tunnel ∈ running)); cbn [negb andb];
      [apply IH; [exact Hk | lia] |].
    rewrite Hok. destruct n as [| n]; [lia |].
    unfold firings. cbn [replicate]. unfold run. cbn [fold_left step].
    hook_simpl. rewrite list_lookup_insert_eq by (hook_simpl; exact Hk).
    fold (run (autoStartLoop k todo running toggle autoStartSet
                 (set_run k (Pausing todo running toggle autoStartSet)
                    (record_toggle k tunnel h)))
            (replicate n (TimerFired k))).
    destruct (IH (set_run k (Pausing todo running toggle autoStartSet)
                    (record_toggle k tunnel h)) n)
      as (I1 & I2 & I3);
      [hook_simpl; rewrite length_insert; exact Hk | lia |].
    cbn zeta in *. unfold firings in *. rewrite I1, I2, I3. hook_simpl.
    rewrite list_insert_insert_eq, <- app_assoc. repeat split.
Qed.

(** X9.  One call of [autoStart] that nothing interrupts: the hook mounts
    with a loaded catalog, the list of flagged tunnels arrives, and the
    timers fire.  When the handler never throws, the call toggles on exactly
    the catalog tunnels that are flagged and not in the running set read after
    the first second, each once and in catalog order, and then marks the hook
    done. *)
Theorem autostart_toggles_the_flagged_idle_tunnels
    (tunnels : list UnifiedTunnel) (running : gset string) (toggle : Toggle)
    (autoStartList : list (string * Z)) (usertoken : option string) (n : nat) :
  (0 <? length tunnels)%nat = true ->
  endsEarly (resolved autoStartList) usertoken = false ->
  (forall tunnel, toggle tunnel true = resolved tt) ->
  length tunnels < n ->
  let h :=
    run unmounted
      ([Render false tunnels running toggle;
        ListSettled 0 (resolved autoStartList) usertoken]
       ++ firings n 0) in
  toggled h
  = map (pair 0)
      (List.filter (wanted (makeAutoStartSet autoStartList) running) tunnels)
  /\ hasAutoStarted h = true
  /\ runs h = [Returned].
Proof.
  intros Hcat Hgo Hok Hn. cbn zeta.
  unfold run. rewrite fold_left_app. cbn [fold_left step].
  assert (Hrender : render false tunnels running toggle unmounted
                    = spawn (set_props tunnels running toggle
                               (false, length tunnels) unmounted)).
  { unfold render, autoStartEffect. cbn [deps unmounted hasAutoStarted set_props orb].
    destruct (length tunnels); [discriminate | reflexivity]. }
  rewrite Hrender. hook_simpl. cbn [unmounted runs app lookup list_lookup].
  unfold afterList. unfold endsEarly in Hgo.
  apply orb_false_iff in Hgo. destruct Hgo as [Hlen Hauth].
  rewrite Hlen, Hauth. hook_simpl.
  destruct n as [| n]; [lia |].
  unfold firings. cbn [replicate fold_left step]. hook_simpl.
  cbn [unmounted runs app insert list_insert lookup list_lookup].
  match goal with
  | |- context [autoStartLoop 0 tunnels running toggle ?set ?h0] =>
      destruct (loop_runs_to_the_end 0 running toggle set Hok tunnels h0 n)
        as (I1 & I2 & I3); [cbn; lia | lia |]
  end.
  cbn zeta in *. unfold run, firings in *. rewrite I1, I2, I3.
  repeat split.
Qed.

Lemma autostart_toggles_the_flagged_idle_tunnels_witness :
  let h :=
    run unmounted
      ([Render false [Sample.tunnel_one; MoreSamples.api_3; MoreSamples.custom_9]
          {["api_3"]} Sample.toggle_ok;
        ListSettled 0 (resolved [("custom", 9%Z); ("api", 3%Z)]) (Some "token")]
       ++ firings 4 0) in
  toggled h = [(0, MoreSamples.custom_9)] /\ hasAutoStarted h = true.
Proof.
  destruct (autostart_toggles_the_flagged_idle_tunnels
              [Sample.tunnel_one; MoreSamples.api_3; MoreSamples.custom_9]
              {["api_3"]} Sample.toggle_ok
              [("custom", 9%Z); ("api", 3%Z)] (Some "token") 4)
    as (H1 & H2 & _); try reflexivity.
  - cbn. lia.
  - split; [exact H1 | exact H2].
Defined.




End AutoStartMoreFacts.

(** ** The notification hook: tab switches, sounds, the tunnel cache *)

Section NotificationsMoreFacts.

Import Js Notifications NotificationsMore.

(** X11.  Switching the tab re-subscribes the hook, and the store hands it
    the whole buffer again; on every state the hook can be in after mounting
    this delivery is skipped.  So a tab switch changes the tab and nothing
    else: the lines that arrived while the log view was open are never
    notified afterwards. *)
Theorem tab_switch_replays_nothing
    (now0 : Z) (tab0 : string) (sound : option string)
    (stored : list LogMessage) (events : list Event) (now : Z) (tab : string) :
  let w := run (mount now0 tab0 sound stored) events in
  step w (SwitchTab now tab) = with_activeTab tab w
  /\ effects (step w (SwitchTab now tab)) = effects w
  /\ refs (step w (SwitchTab now tab)) = refs w.
Proof.
  cbn zeta.
  assert (Hskip : step (run (mount now0 tab0 sound stored) events)
                    (SwitchTab now tab)
                  = with_activeTab tab (run (mount now0 tab0 sound stored) events)).
  { cbn [step]. unfold notifyListeners. apply listener_skips.
    exact (run_caughtUp events _ (mount_caughtUp now0 tab0 sound stored)). }
  rewrite Hskip. repeat split.
Qed.

Lemma soundsFollowToasts_same w w' :
  effects w' = effects w ->
  tunnelSoundEnabled w' = tunnelSoundEnabled w ->
  soundsFollowToasts w -> soundsFollowToasts w'.
Proof.
  unfold soundsFollowToasts, heard, soundEnabled. intros -> ->. trivial.
Qed.

Lemma soundsFollowToasts_raise w es :
  flat_map (Sound.ofEffect Sound.Plays) es
  = (if soundEnabled w then flat_map jingle es else []) ->
  soundsFollowToasts w -> soundsFollowToasts (raise es w).
Proof.
  unfold soundsFollowToasts, heard, soundEnabled. cbn [raise effects tunnelSoundEnabled].
  intros Hes Hw. rewrite !flat_map_app, Hes, Hw.
  destruct (match tunnelSoundEnabled w with
            | Some v => negb (v =? "false")%string
            | None => true
            end); reflexivity.
Qed.

Lemma handleToast_sounds w log :
  soundsFollowToasts w -> soundsFollowToasts (handleToast w log).
Proof.
  intros Hw. unfold handleToast.
  destruct (includes (message log) marker_success).
  - destruct (bool_decide (tunnel_id log ∈ notifiedSuccess (refs w)));
      [exact Hw |].
    apply soundsFollowToasts_raise.
    + unfold soundEnabled. cbn [with_refs tunnelSoundEnabled].
      destruct (match tunnelSoundEnabled w with
                | Some v => negb (v =? "false")%string
                | None => true
                end); reflexivity.
    + revert Hw. apply soundsFollowToasts_same; reflexivity.
  - destruct (includes (message log) marker_failed); [| exact Hw].
    destruct (bool_decide (tunnel_id log ∈ notifiedError (refs w)));
      [exact Hw |].
    apply soundsFollowToasts_raise.
    + unfold soundEnabled. cbn [with_refs tunnelSoundEnabled].
      destruct (match tunnelSoundEnabled w with
                | Some v => negb (v =? "false")%string
                | None => true
                end); reflexivity.
    + revert Hw. apply soundsFollowToasts_same; reflexivity.
Qed.

Lemma handleLog_sounds now snapshot w log :
  soundsFollowToasts w -> soundsFollowToasts (handleLog now snapshot w log).
Proof.
  intros Hw. unfold handleLog.
  assert (Hs : soundsFollowToasts (handleSynthesis now snapshot w log)).
  { destruct (handleSynthesis_frame now snapshot w log)
      as (_ & _ & Hsound & Heff & _).
    revert Hw. apply soundsFollowToasts_same; assumption. }
  destruct (String.eqb (activeTab (handleSynthesis now snapshot w log)) "tunnels");
    [exact Hs | apply handleToast_sounds; exact Hs].
Qed.

Lemma listener_sounds now snapshot w :
  soundsFollowToasts w -> soundsFollowToasts (listener now snapshot w).
Proof.
  intros Hw. unfold listener.
  destruct (length snapshot =? 0)%nat; [exact Hw |].
  destruct (length snapshot <=? processedLogsCount (refs w))%nat; [exact Hw |].
  assert (Hfold : forall todo w0,
             soundsFollowToasts w0 ->
             soundsFollowToasts (fold_left (handleLog now snapshot) todo w0)).
  { induction todo as [| log todo IH]; intros w0 Hw0; [exact Hw0 |].
    cbn [fold_left]. apply IH, handleLog_sounds, Hw0. }
  apply Hfold. revert Hw. apply soundsFollowToasts_same; reflexivity.
Qed.

Lemma step_sounds w e :
  soundsFollowToasts w -> soundsFollowToasts (step w e).
Proof.
  intros Hw. destruct e as [now log | k fetched now stamp | now | now tab];
    cbn [step]; unfold notifyListeners.
  - apply listener_sounds. revert Hw. apply soundsFollowToasts_same; reflexivity.
  - unfold settleTask. destruct (tasks w !! k) as [task |]; [| exact Hw].
    destruct (getTunnelById_finish task fetched (tunnelCache (refs w)))
      as [cache found].
    assert (Hw1 : soundsFollowToasts
                    (with_tasks (delete k (tasks w))
                       (with_refs (set_tunnelCache cache (refs w)) w))).
    { revert Hw. apply soundsFollowToasts_same; reflexivity. }
    destruct (friendlyLine (task_tunnelId task) found stamp) as [line |];
      [| exact Hw1].
    unfold notifyListeners. apply listener_sounds.
    apply (soundsFollowToasts_same
             (raise [logStore_addLog line]
                (with_tasks (delete k (tasks w))
                   (with_refs (set_tunnelCache cache (refs w)) w))));
      [reflexivity | reflexivity |].
    apply soundsFollowToasts_raise; [| exact Hw1].
    cbn [flat_map Sound.ofEffect jingle app].
    destruct (soundEnabled _); reflexivity.
  - apply listener_sounds. revert Hw. apply soundsFollowToasts_same; reflexivity.
  - apply listener_sounds. revert Hw. apply soundsFollowToasts_same; reflexivity.
Qed.

Lemma step_keeps_preference w e :
  tunnelSoundEnabled (step w e) = tunnelSoundEnabled w.
Proof.
  destruct e as [now log | k fetched now stamp | now | now tab];
    cbn [step]; unfold notifyListeners.
  - match goal with
    | |- context [listener ?n ?l ?w0] =>
        destruct (listener_facts n l w0) as (_ & _ & H & _)
    end. exact H.
  - unfold settleTask. destruct (tasks w !! k) as [task |]; [| reflexivity].
    destruct (getTunnelById_finish task fetched (tunnelCache (refs w)))
      as [cache found].
    destruct (friendlyLine (task_tunnelId task) found stamp) as [line |];
      [| reflexivity].
    unfold notifyListeners.
    match goal with
    | |- context [listener ?n ?l ?w0] =>
        destruct (listener_facts n l w0) as (_ & _ & H & _)
    end. exact H.
  - match goal with
    | |- context [listener ?n ?l ?w0] =>
        destruct (listener_facts n l w0) as (_ & _ & H & _)
    end. exact H.
  - match goal with
    | |- context [listener ?n ?l ?w0] =>
        destruct (listener_facts n l w0) as (_ & _ & H & _)
    end. exact H.
Qed.

(** X12.  The sound preference is read at every toast and gates the sound,
    never the toast.  With [tunnelSoundEnabled] stored as "false" no audio
    element is ever created; with anything else stored, or nothing, each
    toast is accompanied by its file: [/run_tunnel.mp3] for a success,
    [/stop_tunnel.mp3] for a failure. *)
Theorem sounds_follow_the_preference
    (now0 : Z) (tab0 : string) (sound : option string)
    (stored : list LogMessage) (events : list Event) :
  let w := run (mount now0 tab0 sound stored) events in
  heard Sound.Plays w
  = if bool_decide (sound = Some "false") then []
    else flat_map jingle (effects w).
Proof.
  cbn zeta.
  assert (Hrun : forall events w,
             soundsFollowToasts w ->
             soundsFollowToasts (run w events)
             /\ tunnelSoundEnabled (run w events) = tunnelSoundEnabled w).
  { clear events. induction events as [| e events IH]; intros w Hw;
      [split; [exact Hw | reflexivity] |].
    cbn [run fold_left]. fold (run (step w e) events).
    destruct (IH (step w e) (step_sounds w e Hw)) as (I1 & I2).
    split; [exact I1 | rewrite I2; apply step_keeps_preference]. }
  assert (Hmount : soundsFollowToasts (mount now0 tab0 sound stored)
                   /\ tunnelSoundEnabled (mount now0 tab0 sound stored) = sound).
  { unfold mount, notifyListeners. split.
    - apply listener_sounds. unfold soundsFollowToasts, heard.
      cbn [effects flat_map]. destruct (soundEnabled _); reflexivity.
    - match goal with
      | |- context [listener ?n ?l ?w0] =>
          destruct (listener_facts n l w0) as (_ & _ & H & _)
      end. exact H. }
  destruct Hmount as (M1 & M2).
  destruct (Hrun events _ M1) as (R1 & R2).
  unfold soundsFollowToasts in R1. rewrite R1.
  unfold soundEnabled. rewrite R2, M2.
  destruct sound as [v |]; [| reflexivity].
  destruct (String.eqb_spec v "false") as [-> | Hne]; [reflexivity |].
  rewrite bool_decide_eq_false_2 by congruence. reflexivity.
Qed.

Lemma includes_unfold s pat :
  includes s pat
  = String.prefix pat s
    || match s with
       | EmptyString => false
       | String _ rest => includes rest pat
       end.
Proof. destruct s; reflexivity. Qed.

Lemma prefix_append pat :
  forall s t, String.prefix pat s = true -> String.prefix pat (s +:+ t) = true.
Proof.
  induction pat as [| a pat IH]; intros s t H;
    [destruct (s +:+ t); reflexivity |].
  destruct s as [| b s]; [discriminate |].
  change (String.prefix (String a pat) (String b (s +:+ t)) = true).
  cbn [String.prefix] in *.
  destruct (ascii_dec a b); [apply IH; exact H | discriminate].
Qed.

Lemma includes_append_l s t pat :
  includes s pat = true -> includes (s +:+ t) pat = true.
Proof.
  induction s as [| c s IH]; intros H.
  - rewrite includes_unfold in H. rewrite orb_false_r in H.
    rewrite includes_unfold. apply orb_true_iff. left.
    apply prefix_append. exact H.
  - rewrite includes_unfold in H. apply orb_true_iff in H.
    change (includes (String c (s +:+ t)) pat = true).
    rewrite includes_unfold. apply orb_true_iff.
    destruct H as [H | H].
    + left. exact (prefix_append pat (String c s) t H).
    + right. apply IH. exact H.
Qed.

Lemma includes_append_r s t pat :
  includes t pat = true -> includes (s +:+ t) pat = true.
Proof.
  intros H. induction s as [| c s IH]; [exact H |].
  change (includes (String c (s +:+ t)) pat = true).
  rewrite includes_unfold, IH. apply orb_true_r.
Qed.

(** Both messages of the friendly line carry the two tags that
    [hasLauncherSuccessLog] looks for, whatever the name and the link. *)
Lemma friendly_line_is_tagged tunnelId found stamp line :
  friendlyLine tunnelId found stamp = Some line ->
  tunnel_id line = tunnelId
  /\ includes (message line) tag_launcher = true
  /\ includes (message line) tag_started = true.
Proof.
  rewrite friendlyLine_cases. destruct found as [tunnel |]; [| discriminate].
  destruct (isWebType _); [| discriminate].
  cbn zeta. intros [= <-]. cbn [tunnel_id message]. split; [reflexivity |].
  destruct (String.eqb (Api.dorp tunnel) ""); unfold plainMessage, linkMessage.
  - split.
    + apply includes_append_l. vm_compute. reflexivity.
    + do 4 apply includes_append_r. vm_compute. reflexivity.
  - split.
    + apply includes_append_l. vm_compute. reflexivity.
    + do 4 apply includes_append_r. apply includes_append_l.
      vm_compute. reflexivity.
Qed.

(** X13.  The friendly line is recognised by the test the hook makes on the
    buffer: while a friendly line of a tunnel is among the stored lines, no
    line of that tunnel starts another synthesis - whatever the line says,
    and also after a relaunch has cleared the tunnel's flags. *)
Theorem friendly_line_blocks_another_synthesis
    (w : World) (now : Z) (log line : LogMessage)
    (found : option Api.Tunnel) (stamp : string) :
  inStep w ->
  friendlyLine (tunnel_id log) found stamp = Some line ->
  In line (logs w) ->
  let w' := step w (FrpcLog now log) in
  hasLauncherSuccessLog (logs w') (tunnel_id log) = true
  /\ tasks w' = tasks w
  /\ count is_addLog w' = count is_addLog w.
Proof.
  intros Hin Hline Hstored. cbn zeta.
  destruct (friendly_line_is_tagged _ _ _ _ Hline) as (Hid & Htag & Hstarted).
  assert (Hhas : hasLauncherSuccessLog (logs w ++ [log]) (tunnel_id log) = true).
  { unfold hasLauncherSuccessLog. apply existsb_exists. exists line. split.
    - apply in_or_app. left. exact Hstored.
    - rewrite Hid, Z.eqb_refl, Htag, Hstarted. reflexivity. }
  destruct (frpcLog_synthesis w now log Hin)
    as (Hlogs & _ & _ & _ & Htasks & Hadd & _).
  cbn zeta in *. rewrite Hlogs, Htasks, Hadd. unfold startsSynthesis.
  rewrite Hhas. cbn [negb]. rewrite andb_false_r. cbn [andb].
  rewrite app_nil_r. repeat split.
Qed.

Lemma friendly_line_blocks_another_synthesis_witness :
  let log := Sample.line 7 (marker_launched +:+ marker_success) in
  let w' := step MoreSamples.announced (FrpcLog 3 log) in
  includes (message log) marker_launched = true
  /\ hasLauncherSuccessLog (logs w') 7 = true
  /\ tasks w' = tasks MoreSamples.announced.
Proof.
  destruct (friendly_line_blocks_another_synthesis MoreSamples.announced 3
              (Sample.line 7 (marker_launched +:+ marker_success))
              MoreSamples.friendly_7 (Some Sample.http_7) "2026/01/01 00:00:01")
    as (H1 & H2 & _).
  - split; [reflexivity |].
    replace (length (logs MoreSamples.announced)) with 2 by reflexivity.
    unfold LogStore.maxLogs. lia.
  - reflexivity.
  - replace (logs MoreSamples.announced)
      with [Sample.line 7 marker_success; MoreSamples.friendly_7]
      by (vm_compute; reflexivity).
    right. left. reflexivity.
  - split; [vm_compute; reflexivity | split; [exact H1 | exact H2]].
Defined.

Lemma nextMap_snoc fetched tunnel :
  nextMap (fetched ++ [tunnel]) = <[Api.id tunnel := tunnel]> (nextMap fetched).
Proof. unfold nextMap. rewrite fold_left_app. reflexivity. Qed.

Lemma nextMap_lookup fetched tunnelId :
  nextMap fetched !! tunnelId = last (withId tunnelId fetched).
Proof.
  induction fetched as [| tunnel fetched IH] using rev_ind; [reflexivity |].
  rewrite nextMap_snoc. unfold withId in *. rewrite List.filter_app.
  cbn [List.filter].
  destruct (Z.eqb_spec (Api.id tunnel) tunnelId) as [-> | Hne].
  - rewrite lookup_insert_eq, last_snoc. reflexivity.
  - rewrite lookup_insert_ne by exact Hne. rewrite app_nil_r. exact IH.
Qed.

(** X14.  [getTunnelById] builds its map by [set] in list order, so when the
    fetched list carries an id more than once the call that fetched answers
    with the last entry of that id, and with nothing only when no entry has
    it; the entries of other ids make no difference. *)
Theorem fetched_duplicates_last_wins
    (fetched : list Api.Tunnel) (tunnelId now : Z) (stale current : Cache) :
  snd (getTunnelById_finish (Fetching tunnelId now stale) (resolved fetched)
         current)
  = last (withId tunnelId fetched)
  /\ (snd (getTunnelById_finish (Fetching tunnelId now stale) (resolved fetched)
             current) = None
      <-> Forall (fun tunnel => Api.id tunnel <> tunnelId) fetched).
Proof.
  cbn [getTunnelById_finish snd]. rewrite nextMap_lookup. split; [reflexivity |].
  unfold withId. rewrite last_None. split.
  - intros Hnone. apply Forall_forall. intros tunnel Hin Hid.
    assert (Hmem : In tunnel
                     (List.filter (fun tunnel => (Api.id tunnel =? tunnelId)%Z)
                        fetched)).
    { apply filter_In. split; [apply list_elem_of_In; exact Hin |].
      apply Z.eqb_eq. exact Hid. }
    rewrite Hnone in Hmem. exact Hmem.
  - intros Hall. induction Hall as [| tunnel fetched Hne _ IH]; [reflexivity |].
    cbn [List.filter]. destruct (Z.eqb_spec (Api.id tunnel) tunnelId);
      [contradiction | exact IH].
Qed.

Lemma nextMap_size fetched :
  (0 <? size (nextMap fetched))%nat = negb (length fetched =? 0)%nat.
Proof.
  destruct fetched as [| tunnel fetched _] using rev_ind; [reflexivity |].
  rewrite nextMap_snoc, length_app, Nat.add_1_r. cbn [Nat.eqb negb].
  destruct (size (<[Api.id tunnel := tunnel]> (nextMap fetched))) eqn:Hsize;
    [| reflexivity].
  apply map_size_empty_inv in Hsize.
  exfalso. exact (insert_non_empty _ _ _ Hsize).
Qed.

(** X15.  What a successful fetch leaves in the cache serves the calls of
    the next thirty seconds, counted from the moment the fetching call
    started, not from the arrival of the answer - unless the fetched list was
    empty: an empty catalog is never served from the cache, every later call
    fetches again. *)
Theorem empty_catalog_is_never_cached
    (fetched : list Api.Tunnel) (tunnelId0 now0 : Z) (stale current : Cache)
    (now tunnelId : Z) :
  let cache :=
    fst (getTunnelById_finish (Fetching tunnelId0 now0 stale)
           (resolved fetched) current) in
  getTunnelById_start cache now tunnelId
  = if (now - now0 <? 30000)%Z && negb (length fetched =? 0)%nat
    then Cached tunnelId (last (withId tunnelId fetched))
    else Fetching tunnelId now cache.
Proof.
  cbn zeta. cbn [getTunnelById_finish fst]. unfold getTunnelById_start.
  cbn [updatedAt data]. rewrite nextMap_size, nextMap_lookup.
  reflexivity.
Qed.

Lemma handleLog_other_tunnel now snapshot w log j :
  tunnel_id log <> j ->
  flagsOf j (refs (handleLog now snapshot w log)) = flagsOf j (refs w).
Proof.
  intros Hne. unfold handleLog, handleSynthesis, handleToast, flagsOf, resetEpoch.
  repeat match goal with
         | |- context [if ?b then _ else _] => destruct b
         end;
    cbn [refs with_refs with_tasks raise set_successLogAdded set_notifiedError
         set_notifiedSuccess notifiedSuccess notifiedError successLogAdded];
    rewrite ?(mem_add_other _ _ _ Hne), ?(mem_del_other _ _ _ Hne);
    reflexivity.
Qed.

Lemma arrival_other_tunnel w now log j :
  caughtUp w ->
  tunnel_id log <> j ->
  flagsOf j (refs (step w (FrpcLog now log))) = flagsOf j (refs w).
Proof.
  intros Hcaught Hne. cbn [step].
  destruct (notify_after_addLog now w log Hcaught) as [Hsame | (_ & Hhandled)];
    cbn zeta in *.
  - rewrite Hsame. reflexivity.
  - rewrite Hhandled, (handleLog_other_tunnel _ _ _ _ j Hne). reflexivity.
Qed.

(** X16.  The three sets are keyed by tunnel id and a line touches only the
    entries of its own tunnel: whatever lines of other tunnels arrive - launch,
    success or failure - a tunnel is notified, marked failed and marked
    synthesized exactly as before. *)
Theorem lines_of_other_tunnels_leave_the_flags
    (w : World) (j : Z) (lines : list (Z * LogMessage)) :
  caughtUp w ->
  Forall (fun p => tunnel_id (snd p) <> j) lines ->
  flagsOf j (refs (run w (arrivals lines))) = flagsOf j (refs w).
Proof.
  intros Hcaught Hall. revert w Hcaught.
  induction Hall as [| [now log] lines Hne _ IH]; intros w Hcaught;
    [reflexivity |].
  cbn [arrivals map run fold_left fst snd] in *.
  fold (arrivals lines). fold (run (step w (FrpcLog now log)) (arrivals lines)).
  rewrite IH by (apply step_caughtUp; exact Hcaught).
  apply arrival_other_tunnel; assumption.
Qed.

Lemma lines_of_other_tunnels_leave_the_flags_witness :
  flagsOf 7
    (refs (run MoreSamples.announced
             (arrivals [(3%Z, Sample.line 8 marker_launched);
                        (4%Z, Sample.line 8 marker_success);
                        (5%Z, Sample.line 9 marker_failed)])))
  = (true, false, true).
Proof.
  rewrite (lines_of_other_tunnels_leave_the_flags MoreSamples.announced 7
             [(3%Z, Sample.line 8 marker_launched);
              (4%Z, Sample.line 8 marker_success);
              (5%Z, Sample.line 9 marker_failed)]).
  - vm_compute. reflexivity.
  - apply (run_caughtUp _ _ (mount_caughtUp 0 "home" None [])).
  - repeat constructor; discriminate.
Defined.

Lemma handleLog_failed_once now snapshot w log :
  includes (message log) marker_launched = false ->
  bool_decide (tunnel_id log ∈ notifiedError (refs w)) = true ->
  let w' := handleLog now snapshot w log in
  bool_decide (tunnel_id log ∈ notifiedError (refs w')) = true
  /\ count is_toast_error w' = count is_toast_error w.
Proof.
  intros Hquiet Hfailed. cbn zeta.
  unfold handleLog, handleSynthesis, handleToast. rewrite Hquiet.
  repeat match goal with
         | |- context [if ?b then _ else _] => destruct b eqn:?
         end;
    cbn [refs with_refs with_tasks raise set_successLogAdded set_notifiedError
         set_notifiedSuccess notifiedSuccess notifiedError successLogAdded
         activeTab tasks] in *;
    rewrite ?count_raise; cbn [List.filter is_toast_error length];
    try congruence;
    unfold count; cbn [effects with_refs with_tasks];
    (split; [assumption | lia]).
Qed.

(** X22.  A tunnel that has been reported as failed is not reported again
    before it is relaunched: whatever lines of that tunnel arrive without the
    "process launched" marker - failure lines, success lines, anything - none
    of them raises the failure toast, and the tunnel stays marked. *)
Theorem failure_is_reported_once_until_relaunch
    (w : World) (X : Z) (lines : list (Z * LogMessage)) :
  caughtUp w ->
  bool_decide (X ∈ notifiedError (refs w)) = true ->
  Forall (fun p => tunnel_id (snd p) = X
                   /\ includes (message (snd p)) marker_launched = false) lines ->
  let w' := run w (arrivals lines) in
  count is_toast_error w' = count is_toast_error w
  /\ bool_decide (X ∈ notifiedError (refs w')) = true.
Proof.
  intros Hcaught Hfailed Hall. cbn zeta. revert w Hcaught Hfailed.
  induction Hall as [| [now log] lines [Hid Hquiet] _ IH];
    intros w Hcaught Hfailed; [split; [reflexivity | exact Hfailed] |].
  cbn [arrivals map run fold_left fst snd] in *.
  fold (arrivals lines). fold (run (step w (FrpcLog now log)) (arrivals lines)).
  assert (Hstep : count is_toast_error (step w (FrpcLog now log))
                  = count is_toast_error w
                  /\ bool_decide (X ∈ notifiedError (refs (step w (FrpcLog now log))))
                     = true).
  { cbn [step].
    destruct (notify_after_addLog now w log Hcaught) as [Hsame | (_ & Hhandled)];
      cbn zeta in *.
    - rewrite Hsame. split; [reflexivity | exact Hfailed].
    - rewrite Hhandled. subst X.
      match goal with
      | |- context [handleLog now ?snap ?w0 log] =>
          destruct (handleLog_failed_once now snap w0 log Hquiet Hfailed)
            as (H1 & H2)
      end.
      cbn zeta in *. split; [exact H2 | exact H1]. }
  destruct Hstep as (S1 & S2).
  destruct (IH (step w (FrpcLog now log)) (step_caughtUp _ _ Hcaught) S2)
    as (I1 & I2).
  split; [rewrite I1; exact S1 | exact I2].
Qed.

Lemma failure_is_reported_once_until_relaunch_witness :
  let w := step Sample.fresh (FrpcLog 1 (Sample.line 7 marker_failed)) in
  let w' := run w (arrivals [(2%Z, Sample.line 7 marker_failed);
                             (3%Z, Sample.line 7 marker_success);
                             (4%Z, Sample.line 7 marker_failed)]) in
  count is_toast_error w = 1
  /\ count is_toast_error w' = 1.
Proof.
  intros w w'.
  destruct (failure_is_reported_once_until_relaunch w 7
              [(2%Z, Sample.line 7 marker_failed);
               (3%Z, Sample.line 7 marker_success);
               (4%Z, Sample.line 7 marker_failed)])
    as (H1 & _).
  - apply step_caughtUp, mount_caughtUp.
  - vm_compute. reflexivity.
  - repeat constructor.
  - split; [vm_compute; reflexivity |].
    fold w' in H1. rewrite H1. vm_compute. reflexivity.
Defined.

End NotificationsMoreFacts.

(** ** The configuration handed to the native layer *)

Section StartFacts.

Import Js Start.

Variable parseInt : string -> number.

(** X17.  [startTunnel] routes the tunnel's [dorp] by the exact type string:
    it becomes the remote port only for "tcp" with a non-empty [dorp], and the
    custom domain only for "http" and "https"; a configuration never carries
    both.  The comparison is case-sensitive, so every tunnel that gets a
    custom domain is one the notification hook treats as a web tunnel; the
    identity fields are copied from the tunnel whatever the stored proxy
    preference is. *)
Theorem start_routes_dorp_by_exact_type
    (saved : Saved) (tunnel : Tunnel) (userToken : string) :
  let cfg := buildConfig parseInt saved tunnel userToken in
  let type := Api.type (base tunnel) in
  let dorp := Api.dorp (base tunnel) in
  (remote_port cfg <> None <-> type = Some "tcp" /\ dorp <> "")
  /\ (remote_port cfg <> None -> remote_port cfg = Some (parseInt dorp))
  /\ (custom_domains cfg <> None <-> type = Some "http" \/ type = Some "https")
  /\ (custom_domains cfg <> None -> custom_domains cfg = Some dorp)
  /\ (remote_port cfg = None \/ custom_domains cfg = None)
  /\ (custom_domains cfg <> None ->
      Notifications.isWebType (option_map toLowerCase type) = true)
  /\ (tunnel_id cfg, tunnel_name cfg, user_token cfg, tunnel_type cfg)
     = (Api.id (base tunnel), Api.name (base tunnel), userToken, type).
Proof.
  cbn zeta. unfold buildConfig.
  cbn [remote_port custom_domains tunnel_id tunnel_name user_token tunnel_type].
  destruct (Api.type (base tunnel)) as [ty |].
  - destruct (String.eqb_spec ty "tcp") as [-> | Htcp].
    + cbn [String.eqb Ascii.eqb Bool.eqb orb option_map negb].
      destruct (String.eqb_spec (Api.dorp (base tunnel)) "") as [-> | Hdorp];
        cbn [negb]; repeat split; try congruence; try tauto;
        intros; try discriminate; intuition congruence.
    + destruct (String.eqb_spec ty "http") as [-> | Hhttp];
        [cbn [orb]; repeat split; try congruence; try tauto;
         intros; try discriminate; intuition congruence |].
      destruct (String.eqb_spec ty "https") as [-> | Hhttps];
        [cbn [orb]; repeat split; try congruence; try tauto;
         intros; try discriminate; intuition congruence |].
      cbn [orb]. repeat split; try congruence; try tauto;
        intros; try discriminate; intuition congruence.
  - cbn [orb]. repeat split; try congruence; try tauto;
      intros; try discriminate; intuition congruence.
Qed.

(** X18.  The options of the configuration are defined whatever is stored
    under [frpc_proxy_config]: [tcp_mux] is never [undefined], [force_tls]
    and [kcp_optimization] are truthy or exactly [false], and a proxy URL is
    built only from a stored object whose [enabled], [host] and [port] are
    all truthy.  With nothing stored, or a text that cannot be read, the
    tunnel is started with multiplexing on, TLS and KCP off and no proxy. *)
Theorem start_options_are_always_defined
    (saved : Saved) (tunnel : Tunnel) (userToken : string) :
  let cfg := buildConfig parseInt saved tunnel userToken in
  tcp_mux cfg <> Undefined
  /\ (truthy (force_tls cfg) = false -> force_tls cfg = Bool false)
  /\ (truthy (kcp_optimization cfg) = false -> kcp_optimization cfg = Bool false)
  /\ (http_proxy cfg <> None <->
      exists c, saved = Object c
                /\ truthy (enabled c) = true /\ truthy (host c) = true
                /\ truthy (port c) = true)
  /\ (match saved with
      | Object _ => True
      | _ => (http_proxy cfg, tcp_mux cfg, force_tls cfg, kcp_optimization cfg)
             = (None, Bool true, Bool false, Bool false)
      end).
Proof.
  cbn zeta. unfold buildConfig.
  cbn [tcp_mux force_tls kcp_optimization http_proxy].
  destruct saved as [| | c]; cbn [readOptions defaults httpProxy opt_tcpMux
                                   opt_forceTls opt_kcpOptimization].
  - repeat split; try discriminate; try tauto.
    intros (c & Hc & _). discriminate.
  - repeat split; try discriminate; try tauto.
    intros (c & Hc & _). discriminate.
  - split; [destruct (tcpMux c); discriminate |].
    split; [unfold orValue; destruct (truthy (forceTls c)) eqn:H;
            [intros H'; cbn in H'; congruence | reflexivity] |].
    split; [unfold orValue; destruct (truthy (kcpOptimization c)) eqn:H;
            [intros H'; cbn in H'; congruence | reflexivity] |].
    split; [| exact I].
    unfold proxyUrl.
    destruct (truthy (enabled c)) eqn:He, (truthy (host c)) eqn:Hh,
      (truthy (port c)) eqn:Hp; cbn [andb]; split;
      try (intros H; contradiction); try discriminate;
      try (intros _; exists c; repeat split; assumption);
      try (intros (c' & [= <-] & E1 & E2 & E3); congruence).
Qed.

End StartFacts.

(** ** Background files *)

Section ThemeFacts.

Import Js Theme.

(** X19.  [isVideoFile] and [getMimeType] keep separate lists of the video
    extensions; the two agree on every path: a file is a video file exactly
    when its MIME type is a video type.  The two paths on which
    [getMimeType] returns no string at all, [constructor] and [__proto__] as
    extension, are not video files. *)
Theorem video_files_have_video_mime_types (filePath : string) :
  match getMimeType filePath with
  | mime text => isVideoMimeType text = isVideoFile filePath
  | inherited _ => isVideoFile filePath = false
  end.
Proof.
  unfold getMimeType, isVideoFile. generalize (extension filePath) as ext.
  intros ext. unfold mimeTypes, videoExts. cbn [lookupOwn existsb].
  repeat match goal with
         | |- context [String.eqb ext ?k] =>
             destruct (String.eqb_spec ext k) as [-> | ?];
               [vm_compute; reflexivity |]
         end.
  reflexivity.
Qed.

End ThemeFacts.

(** ** The two copies of [loadTunnels] *)

Section SequentialLoadFacts.

Import Js TunnelList TunnelListMore.

Lemma delay_delay {A} (a b : nat) (p : promise A) :
  delay a (delay b p) = delay (a + b) p.
Proof. destruct p; cbn [delay]; f_equal; lia. Qed.

(** The loop runs through a prefix of queries that all fulfil and goes on
    with what they added. *)
Lemma pollEach_prefix env pre rest :
  Forall (fun tunnel => fulfilsb (isRunning env tunnel) = true) pre ->
  forall running,
    pollEach env (pre ++ rest) running
    = delay (totalTime env pre)
        (pollEach env rest (runningKeys env pre ∪ running)).
Proof.
  induction 1 as [| tunnel pre Hhead _ IH]; intros running.
  - cbn [app totalTime fold_right]. unfold runningKeys.
    cbn [List.filter map list_to_set]. rewrite union_empty_l_L.
    destruct (pollEach env rest running); reflexivity.
  - cbn [app pollEach totalTime fold_right]. unfold runningKeys, answersTrue in *.
    cbn [List.filter].
    destruct (isRunning env tunnel) as [t v | t e |]; try discriminate.
    cbn [await settleTime]. rewrite IH, delay_delay. f_equal. f_equal.
    destruct v; cbn [map list_to_set]; [apply gset_union_step | reflexivity].
Qed.

Lemma prompt_answers_agree env todo :
  Forall (fun tunnel => answersWithin 3000 env tunnel = true) todo ->
  Forall (fun tunnel => fulfilsb (isRunning env tunnel) = true) todo
  /\ runningKeys env todo = guardedKeys env todo.
Proof.
  unfold runningKeys, guardedKeys.
  induction 1 as [| tunnel todo Hhead _ [IHf IHk]]; [split; [constructor | reflexivity] |].
  unfold answersWithin in Hhead. cbn [List.filter].
  unfold answersTrue, answersTrueWithin in *.
  destruct (isRunning env tunnel) as [t v | t e |] eqn:Hq; try discriminate.
  split.
  - constructor; [rewrite Hq; reflexivity | exact IHf].
  - assert (Hle : (t <=? 3000)%nat = true)
      by (apply Nat.leb_le; apply Nat.ltb_lt in Hhead; lia).
    rewrite Hle. destruct v; cbn [map list_to_set]; rewrite ?IHk; reflexivity.
Qed.

(** X20.  The two copies of [loadTunnels] in the file leave the same state -
    catalog, cache, flags and running set - whenever every status query
    answers in less than 3000 ms: the timer of the newer copy changes the
    result only for queries that are late, reject or never answer. *)
Theorem both_loads_agree_on_prompt_answers
    (s : State) (ta tc : nat)
    (ra : settled (list Api.Tunnel)) (rc : settled (list Custom.CustomTunnel))
    (nat_layer : FrpcManager.Native) (customRunning : Z -> promise bool) :
  let env :=
    {| fetchTunnels := settle_at ta ra; getCustomTunnels := settle_at tc rc;
       native := nat_layer; isCustomTunnelRunning := customRunning |} in
  let catalog := map api (or_empty ra) ++ map custom (or_empty rc) in
  Forall (fun tunnel => answersWithin 3000 env tunnel = true) catalog ->
  exists t t' s',
    loadTunnelsSequential env s = Completed t s'
    /\ loadTunnels env s = Completed t' s'
    /\ t = Nat.max ta tc + totalTime env catalog
    /\ t' <= Nat.max ta tc + 3000.
Proof.
  intros env catalog Hprompt.
  destruct (prompt_answers_agree env catalog Hprompt) as (Hful & Hkeys).
  unfold loadTunnelsSequential, loadTunnels.
  assert (Hfetch :
    Promise_all2 (catch (fetchTunnels env) (fun _ => []))
                 (catch (getCustomTunnels env) (fun _ => []))
    = Fulfils (Nat.max ta tc) (or_empty ra, or_empty rc)).
  { destruct ra, rc; reflexivity. }
  rewrite Hfetch. fold catalog.
  rewrite (pollEach_fulfilled env catalog Hful ∅), union_empty_r_L.
  destruct (guarded_fanout_value env catalog) as (t' & -> & Ht').
  rewrite collect_guarded, Hkeys.
  eexists _, _, _. split; [reflexivity |]. split; [reflexivity |].
  split; [reflexivity | lia].
Qed.

Lemma both_loads_agree_on_prompt_answers_witness :
  let env :=
    {| fetchTunnels := Fulfils 100 [Start.base MoreSamples.minecraft];
       getCustomTunnels := Rejects 40 None;
       native :=
         {| FrpcManager.is_frpc_running := fun _ => Fulfils 2000 true;
            FrpcManager.get_running_tunnels := Never;
            FrpcManager.resolve_domain_to_ip := fun _ => Never;
            FrpcManager.stop_frpc := fun _ => Never |};
       isCustomTunnelRunning := fun _ => Never |} in
  exists t t' s',
    loadTunnelsSequential env Sample.one_tunnel_state = Completed t s'
    /\ loadTunnels env Sample.one_tunnel_state = Completed t' s'
    /\ t = 2100 /\ t' <= 3100.
Proof.
  intros env.
  destruct (both_loads_agree_on_prompt_answers Sample.one_tunnel_state 100 40
              (resolved [Start.base MoreSamples.minecraft]) (rejected None)
              (FrpcManager.Build_Native (fun _ => Fulfils 2000 true) Never
                 (fun _ => Never) (fun _ => Never))
              (fun _ => Never))
    as (t & t' & s' & H1 & H2 & H3 & H4).
  - repeat constructor.
  - exists t, t', s'. repeat split; assumption.
Defined.

(** X21.  In the older copy the queries are inside the [try] block and
    unguarded.  At the first query that does not fulfil the load stops: a
    query that never answers leaves the hook loading for ever, with the new
    catalog shown and the running set it had; a query that rejects sends the
    load through the [catch] block, which keeps the running set, switches
    [loading] off and shows the message when it speaks of the login or the
    token. *)
Theorem sequential_load_stops_at_the_first_bad_query
    (s : State) (ta tc : nat)
    (ra : settled (list Api.Tunnel)) (rc : settled (list Custom.CustomTunnel))
    (nat_layer : FrpcManager.Native) (customRunning : Z -> promise bool)
    (pre post : list UnifiedTunnel) (tunnel : UnifiedTunnel) :
  let env :=
    {| fetchTunnels := settle_at ta ra; getCustomTunnels := settle_at tc rc;
       native := nat_layer; isCustomTunnelRunning := customRunning |} in
  let catalog := map api (or_empty ra) ++ map custom (or_empty rc) in
  catalog = pre ++ tunnel :: post ->
  Forall (fun tunnel => fulfilsb (isRunning env tunnel) = true) pre ->
  match isRunning env tunnel with
  | Fulfils _ _ => True
  | Never =>
      exists s',
        loadTunnelsSequential env s = Suspended s'
        /\ loading s' = true /\ tunnels s' = catalog
        /\ runningTunnels s' = runningTunnels s
  | Rejects t e =>
      exists s',
        loadTunnelsSequential env s
        = Completed (Nat.max ta tc + (totalTime env pre + t)) s'
        /\ loading s' = false /\ tunnels s' = catalog
        /\ runningTunnels s' = runningTunnels s
        /\ exists message,
             message = match e with Some m => m | None => "获取隧道列表失败" end
             /\ error s'
                = if includes message "登录" || includes message "token"
                     || includes message "令牌"
                  then message else ""
  end.
Proof.
  intros env catalog Hcat Hpre.
  destruct (isRunning env tunnel) as [t v | t e |] eqn:Hq; [exact I | |].
  - unfold loadTunnelsSequential.
    assert (Hfetch :
      Promise_all2 (catch (fetchTunnels env) (fun _ => []))
                   (catch (getCustomTunnels env) (fun _ => []))
      = Fulfils (Nat.max ta tc) (or_empty ra, or_empty rc)).
    { destruct ra, rc; reflexivity. }
    rewrite Hfetch. fold catalog. rewrite Hcat.
    rewrite (pollEach_prefix env pre (tunnel :: post) Hpre ∅).
    cbn [pollEach]. rewrite Hq. cbn [await delay]. unfold onLoadError.
    eexists. split; [reflexivity |].
    repeat match goal with
           | |- context [if ?b then _ else _] => destruct b eqn:?
           end;
      cbn [loading tunnels runningTunnels error setLoading setError setCache
           setTunnels setRunningTunnels];
      (split; [reflexivity |]); (split; [reflexivity |]);
      (split; [reflexivity |]); eexists; (split; [reflexivity |]);
      cbn [orb] in *;
      repeat match goal with
             | H : ?b = _ |- context [?b] => rewrite H
             end; reflexivity.
  - unfold loadTunnelsSequential.
    assert (Hfetch :
      Promise_all2 (catch (fetchTunnels env) (fun _ => []))
                   (catch (getCustomTunnels env) (fun _ => []))
      = Fulfils (Nat.max ta tc) (or_empty ra, or_empty rc)).
    { destruct ra, rc; reflexivity. }
    rewrite Hfetch. fold catalog. rewrite Hcat.
    rewrite (pollEach_prefix env pre (tunnel :: post) Hpre ∅).
    cbn [pollEach]. rewrite Hq. cbn [await delay].
    eexists. split; [reflexivity |]. repeat split.
Qed.

Lemma sequential_load_stops_at_the_first_bad_query_witness :
  let env :=
    {| fetchTunnels := Fulfils 100 [Start.base MoreSamples.minecraft];
       getCustomTunnels := Fulfils 40 [{| Custom.id := 9 |}];
       native :=
         {| FrpcManager.is_frpc_running := fun _ => Fulfils 20 true;
            FrpcManager.get_running_tunnels := Never;
            FrpcManager.resolve_domain_to_ip := fun _ => Never;
            FrpcManager.stop_frpc := fun _ => Never |};
       isCustomTunnelRunning := fun _ => Rejects 5 (Some "invalid token") |} in
  exists s',
    loadTunnelsSequential env Sample.one_tunnel_state = Completed 125 s'
    /\ loading s' = false
    /\ error s' = "invalid token"
    /\ runningTunnels s' = runningTunnels Sample.one_tunnel_state.
Proof.
  intros env.
  destruct (sequential_load_stops_at_the_first_bad_query
              Sample.one_tunnel_state 100 40
              (resolved [Start.base MoreSamples.minecraft])
              (resolved [{| Custom.id := 9 |}])
              (FrpcManager.Build_Native (fun _ => Fulfils 20 true) Never
                 (fun _ => Never) (fun _ => Never))
              (fun _ => Rejects 5 (Some "invalid token"))
              [MoreSamples.api_3] [] MoreSamples.custom_9)
    as (s' & H1 & H2 & _ & H4 & message & -> & H5).
  - reflexivity.
  - repeat constructor.
  - exists s'. split; [exact H1 |]. split; [exact H2 |].
    split; [exact H5 | exact H4].
Defined.

End SequentialLoadFacts.
